(** * ffmpipe: the Session controller ([ffmpipe::Pipe]) over a model of the
    Win32 calls it makes.

    The program is a thin layer of control flow over operating-system
    calls.  The embedding keeps the control flow of the C++ functions as it
    is written and threads an explicit [World] (handle table, named pipes,
    last-error value, sink text, call trace) through every call.  What the
    operating system decides on its own (whether a call succeeds, how many
    bytes an overlapped write moves, what a wait returns, what the child
    prints) is read from an [Oracle], a record of functions of the current
    [World]; theorems quantify over every oracle. *)

From Stdlib Require Import ZArith Lia Ascii String DecimalString DecimalN.
From stdpp Require Import base gmap strings list.

Local Open Scope Z_scope.

(** ** Machine integers and Win32 constants *)

Definition DWORD_MAX : Z := 2 ^ 32.

(** Arithmetic on [DWORD] (unsigned 32 bit) wraps around. *)
Definition wrap32 (z : Z) : Z := z mod DWORD_MAX.

Definition HANDLE := Z.
Definition INVALID_HANDLE_VALUE : HANDLE := -1.
Definition NULL : HANDLE := 0.

Definition ERROR_SUCCESS : Z := 0.
Definition ERROR_INVALID_HANDLE : Z := 6.
Definition ERROR_IO_PENDING : Z := 997.
Definition STATUS_WAIT_0 : Z := 0.
Definition WAIT_TIMEOUT : Z := 258.
Definition WAIT_FAILED : Z := 4294967295.
Definition INFINITE : Z := 4294967295.

Definition bytes := list Byte.byte.

(** ** The world the program runs in *)

(** Kernel objects a handle can refer to.  A named pipe has a server end
    (made by [CreateNamedPipeA], read by its owner) and a client end (made by
    [CreateFileA], written by its owner). *)
Inductive Obj :=
| OEvent
| OProcess
| OThread
| OPipeServer (path : string)
| OPipeClient (path : string).

(** One entry per call that leaves the program. *)
Inductive Event :=
| EvCreateNamedPipe (path : string) (buffer_size timeout_ms : Z) (ret : HANDLE)
| EvCreateFile (path : string) (ret : HANDLE)
| EvCreateEvent (ret : HANDLE)
| EvSetHandleInformation (h : HANDLE) (ret : bool)
| EvCreateProcess (cmdline : string) (hStdInput hStdOutput hStdError : HANDLE)
    (ret : bool)
| EvCloseHandle (h : HANDLE)
| EvWriteFile (h : HANDLE) (offset count : Z) (ret : bool)
| EvWaitForMultipleObjects (hs : list HANDLE) (wait_all : bool)
    (timeout_ms : Z) (ret : Z)
| EvGetOverlappedResult (h : HANDLE) (wait : bool) (ret : option Z)
| EvWaitForSingleObject (h : HANDLE) (timeout_ms : Z) (ret : Z)
| EvTerminateProcess (h : HANDLE) (exit_code : Z)
| EvPeekNamedPipe (h : HANDLE) (ret : option Z)
| EvReadFile (h : HANDLE) (count : Z) (ret : option bytes)
| EvPrint (chunk : bytes).

Record World := mkWorld {
  w_handles : gmap Z Obj;           (* open handles of the parent process *)
  w_next : Z;                       (* value of the next handle handed out *)
  w_pipes : gmap string bytes;      (* named pipes: bytes written, not yet read *)
  w_transferred : Z;                (* byte count of the last overlapped write *)
  w_last_error : Z;                 (* GetLastError *)
  w_sink : bytes;                   (* text the print callbacks have produced *)
  w_pid : Z;                        (* GetCurrentProcessId *)
  w_trace : list Event              (* calls made so far, oldest first *)
}.

Definition set_handles (f : gmap Z Obj → gmap Z Obj) (w : World) : World :=
  mkWorld (f (w_handles w)) (w_next w) (w_pipes w) (w_transferred w)
    (w_last_error w) (w_sink w) (w_pid w) (w_trace w).
Definition set_next (n : Z) (w : World) : World :=
  mkWorld (w_handles w) n (w_pipes w) (w_transferred w)
    (w_last_error w) (w_sink w) (w_pid w) (w_trace w).
Definition set_pipes (f : gmap string bytes → gmap string bytes) (w : World) : World :=
  mkWorld (w_handles w) (w_next w) (f (w_pipes w)) (w_transferred w)
    (w_last_error w) (w_sink w) (w_pid w) (w_trace w).
Definition set_transferred (n : Z) (w : World) : World :=
  mkWorld (w_handles w) (w_next w) (w_pipes w) n
    (w_last_error w) (w_sink w) (w_pid w) (w_trace w).
Definition set_last_error (e : Z) (w : World) : World :=
  mkWorld (w_handles w) (w_next w) (w_pipes w) (w_transferred w)
    e (w_sink w) (w_pid w) (w_trace w).
Definition set_sink (f : bytes → bytes) (w : World) : World :=
  mkWorld (w_handles w) (w_next w) (w_pipes w) (w_transferred w)
    (w_last_error w) (f (w_sink w)) (w_pid w) (w_trace w).
Definition add_event (e : Event) (w : World) : World :=
  mkWorld (w_handles w) (w_next w) (w_pipes w) (w_transferred w)
    (w_last_error w) (w_sink w) (w_pid w) (w_trace w ++ [e]).

(** Bytes buffered in the pipe called [path] (none when there is no such pipe). *)
Definition pipe_bytes (w : World) (path : string) : bytes :=
  default [] (w_pipes w !! path).

(** What an overlapped [WriteFile] can answer. [moved] is the number of
    bytes the pipe is ready to take from this request. *)
Inductive WriteReply :=
| WrDone (moved : Z)        (* completed before the call returned *)
| WrPending (moved : Z)     (* returned FALSE with ERROR_IO_PENDING *)
| WrError (code : Z).       (* returned FALSE with another error *)

(** The choices of the operating system and of the child process. *)
Record Oracle := mkOracle {
  ora_create : World → bool;          (* a creation or attribute call succeeds *)
  ora_write : World → WriteReply;     (* answer to WriteFile *)
  ora_wait : World → Z;               (* answer to a wait call *)
  ora_overlapped : World → bool;      (* GetOverlappedResult succeeds *)
  ora_peek : World → bool;            (* PeekNamedPipe succeeds *)
  ora_read : World → bool;            (* ReadFile succeeds *)
  ora_child_output : World → bytes    (* what the child printed since the last look *)
}.

(** ** State passing *)

Definition M (A : Type) : Type := World → A * World.

Definition ret {A} (a : A) : M A := λ w, (a, w).
Definition bind {A B} (m : M A) (k : A → M B) : M B :=
  λ w, let '(a, w') := m w in k a w'.

Declare Scope prog_scope.
Delimit Scope prog_scope with prog.
Notation "'let*' x ':=' m 'in' k" := (bind m (λ x, k))
  (at level 10, x name, m at level 100, k at level 200) : prog_scope.
Notation "'run' m 'in' k" := (bind m (λ _, k))
  (at level 10, m at level 100, k at level 200) : prog_scope.
Local Open Scope prog_scope.

Definition log (e : Event) : M unit := λ w, (tt, add_event e w).
Definition modify (f : World → World) : M unit := λ w, (tt, f w).
Definition ask {A} (f : World → A) : M A := λ w, (f w, w).

(** The first [n] bytes at [data + offset]. *)
Definition read_buf (data : Z → Byte.byte) (offset n : Z) : bytes :=
  data <$> seqZ offset n.

Definition blen (b : bytes) : Z := Z.of_nat (length b).

(** ** The Win32 calls the program makes *)

(** The fields of the two structures that the program uses. *)
Record PROCESS_INFORMATION := mkProcInfo { hProcess : HANDLE; hThread : HANDLE }.

Record STARTUPINFOW := mkStartupInfo {
  hStdInput : HANDLE; hStdOutput : HANDLE; hStdError : HANDLE
}.

Section Calls.

Variable os : Oracle.

(** A new handle: the next free value, bound to [o]. *)
Definition alloc (o : Obj) : M HANDLE := λ w,
  (w_next w, set_next (w_next w + 4) (set_handles (insert (w_next w) o) w)).

Definition GetCurrentProcessId : M Z := ask w_pid.
Definition GetLastError : M Z := ask w_last_error.
Definition SetLastError (e : Z) : M unit := modify (set_last_error e).

(** Makes the only instance of the pipe [path]; fails when the name is taken. *)
Definition CreateNamedPipeA (path : string) (buffer_size timeout_ms : Z) : M HANDLE :=
  let* ok := ask (λ w, ora_create os w && bool_decide (w_pipes w !! path = None)) in
  let* h := (if ok : bool
             then run modify (set_pipes (insert path [])) in alloc (OPipeServer path)
             else ret INVALID_HANDLE_VALUE) in
  run log (EvCreateNamedPipe path buffer_size timeout_ms h) in
  ret h.

(** Opens the client end of an existing pipe, for overlapped writing. *)
Definition CreateFileA (path : string) : M HANDLE :=
  let* ok := ask (λ w, ora_create os w && bool_decide (is_Some (w_pipes w !! path))) in
  let* h := (if ok : bool then alloc (OPipeClient path) else ret INVALID_HANDLE_VALUE) in
  run log (EvCreateFile path h) in
  ret h.

Definition CreateEventA : M HANDLE :=
  let* ok := ask (ora_create os) in
  let* h := (if ok : bool then alloc OEvent else ret NULL) in
  run log (EvCreateEvent h) in
  ret h.

Definition SetHandleInformation (h : HANDLE) : M bool :=
  let* ok := ask (λ w, ora_create os w && bool_decide (is_Some (w_handles w !! h))) in
  run log (EvSetHandleInformation h ok) in
  ret ok.

(** On success the process and its first thread each get a handle; on
    failure the caller's PROCESS_INFORMATION is left as it was. *)
Definition CreateProcessW (cmdline : string) (si : STARTUPINFOW)
    (pi : PROCESS_INFORMATION) : M (bool * PROCESS_INFORMATION) :=
  let* ok := ask (ora_create os) in
  let* r := (if ok : bool
             then let* hp := alloc OProcess in
                  let* ht := alloc OThread in
                  ret (true, mkProcInfo hp ht)
             else ret (false, pi)) in
  run log (EvCreateProcess cmdline (hStdInput si) (hStdOutput si) (hStdError si) (fst r)) in
  ret r.

(** Closing the server end of a pipe removes the pipe. A value that is not
    an open handle is refused and nothing changes. The handle table is the
    parent's: the ends of a pipe that a child process inherits are not
    recorded, so [w_pipes] tells when the parent has let go of a pipe, not
    when a child that is still running has. *)
Definition CloseHandle (h : HANDLE) : M bool :=
  run log (EvCloseHandle h) in
  let* o := ask (λ w, w_handles w !! h) in
  match o with
  | Some obj =>
      run modify (set_handles (delete h)) in
      run (match obj with
           | OPipeServer path => modify (set_pipes (delete path))
           | _ => ret tt
           end) in
      ret true
  | None => run SetLastError ERROR_INVALID_HANDLE in ret false
  end.

(** Appends [chunk] to the pipe [path]. *)
Definition pipe_push (path : string) (chunk : bytes) : M unit :=
  modify (λ w, set_pipes (insert path (pipe_bytes w path ++ chunk)) w).

(** [WriteFile(h, data + offset, count, nullptr, &overlapped)]. The pipe
    takes a prefix of the request, never more than [count] bytes. *)
Definition WriteFile (h : HANDLE) (data : Z → Byte.byte) (offset count : Z) : M bool :=
  let* o := ask (λ w, w_handles w !! h) in
  let* ok :=
    match o with
    | Some (OPipeClient path) =>
        let* reply := ask (ora_write os) in
        match reply with
        | WrDone n =>
            let moved := Z.max 0 (Z.min n count) in
            run pipe_push path (read_buf data offset moved) in
            run modify (set_transferred moved) in
            ret true
        | WrPending n =>
            let moved := Z.max 0 (Z.min n count) in
            run pipe_push path (read_buf data offset moved) in
            run modify (set_transferred moved) in
            run SetLastError ERROR_IO_PENDING in
            ret false
        | WrError e =>
            run modify (set_transferred 0) in
            run SetLastError e in
            ret false
        end
    | _ => run SetLastError ERROR_INVALID_HANDLE in ret false
    end in
  run log (EvWriteFile h offset count ok) in
  ret ok.

Definition WaitForMultipleObjects (hs : list HANDLE) (wait_all : bool)
    (timeout_ms : Z) : M Z :=
  let* r := ask (ora_wait os) in
  run log (EvWaitForMultipleObjects hs wait_all timeout_ms r) in
  ret r.

Definition WaitForSingleObject (h : HANDLE) (timeout_ms : Z) : M Z :=
  let* r := ask (ora_wait os) in
  run log (EvWaitForSingleObject h timeout_ms r) in
  ret r.

(** The exit code is logged as the caller writes it; the call takes it as
    a UINT, so that -1 reaches the system as 4294967295. *)
Definition TerminateProcess (h : HANDLE) (exit_code : Z) : M unit :=
  log (EvTerminateProcess h exit_code).

(** Reports the byte count of the overlapped write just completed. *)
Definition GetOverlappedResult (h : HANDLE) (wait : bool) : M (option Z) :=
  let* ok := ask (λ w, ora_overlapped os w && bool_decide (is_Some (w_handles w !! h))) in
  let* r := (if ok : bool then let* n := ask w_transferred in ret (Some n)
             else ret None) in
  run log (EvGetOverlappedResult h wait r) in
  ret r.

(** What the child printed since the last look lands in the pipe. *)
Definition child_prints (path : string) : M unit :=
  let* out := ask (ora_child_output os) in
  pipe_push path out.

(** [PeekNamedPipe(h, nullptr, 0, nullptr, &available, nullptr)]: the number
    of buffered bytes; nothing is taken out. *)
Definition PeekNamedPipe (h : HANDLE) : M (option Z) :=
  let* o := ask (λ w, w_handles w !! h) in
  let* r :=
    match o with
    | Some (OPipeServer path) =>
        run child_prints path in
        let* ok := ask (ora_peek os) in
        if ok : bool
        then let* n := ask (λ w, wrap32 (blen (pipe_bytes w path))) in ret (Some n)
        else ret None
    | _ => ret None
    end in
  run log (EvPeekNamedPipe h r) in
  ret r.

(** [ReadFile(h, buffer, count, &read, nullptr)]: takes up to [count] bytes
    from the front of the pipe. (A read from an empty pipe would block; no
    caller in this program asks for more than it has measured.) *)
Definition ReadFile (h : HANDLE) (count : Z) : M (option bytes) :=
  let* o := ask (λ w, w_handles w !! h) in
  let* r :=
    match o with
    | Some (OPipeServer path) =>
        run child_prints path in
        let* ok := ask (ora_read os) in
        if ok : bool
        then let* buf := ask (λ w, pipe_bytes w path) in
             run modify (set_pipes (insert path (drop (Z.to_nat count) buf))) in
             ret (Some (take (Z.to_nat count) buf))
        else ret None
    | _ => ret None
    end in
  run log (EvReadFile h count r) in
  ret r.

End Calls.

(** ** The channel path *)

Definition hex_digit (d : Z) : ascii :=
  match d with
  | 0 => "0" | 1 => "1" | 2 => "2" | 3 => "3" | 4 => "4" | 5 => "5"
  | 6 => "6" | 7 => "7" | 8 => "8" | 9 => "9" | 10 => "A" | 11 => "B"
  | 12 => "C" | 13 => "D" | 14 => "E" | _ => "F"
  end%char.

(** [width] hexadecimal digits of [p], most significant first. *)
Fixpoint hex_fixed (width : nat) (p : Z) : list ascii :=
  match width with
  | O => []
  | S width' => hex_fixed width' (p / 16) ++ [hex_digit (p mod 16)]
  end.

(** [ss << DWORD]: decimal, no padding. *)
Definition show_dword (n : Z) : list ascii :=
  list_ascii_of_string (NilEmpty.string_of_uint (N.to_uint (Z.to_N n))).

(** [ss << pointer]: the C++ runtime this program is built with prints a
    64-bit pointer as sixteen upper-case hexadecimal digits. *)
Definition show_pointer (p : Z) : list ascii := hex_fixed 16 p.

Definition pipe_prefix : string := "\\.\pipe\ffmpipe_".

(** [ss << R"(\\.\pipe\ffmpipe_)" << GetCurrentProcessId() << '_'
       << out_read_pipe << '_' << name] *)
Definition full_name_chars (pid out_read_pipe : Z) (name : string) : list ascii :=
  list_ascii_of_string pipe_prefix ++ show_dword pid ++ ["_"%char]
    ++ show_pointer out_read_pipe ++ ["_"%char] ++ list_ascii_of_string name.

Definition full_name (pid out_read_pipe : Z) (name : string) : string :=
  string_of_list_ascii (full_name_chars pid out_read_pipe name).

(** ** The Session: [class Pipe] *)

(** A print callback turns a chunk of child output into sink text. *)
Definition PrintFunc := bytes → bytes → bytes.

Record Pipe := mkPipe {
  m_procinfo : PROCESS_INFORMATION;
  m_stdin_r : HANDLE;
  m_stdin_w : HANDLE;
  m_stdout_r : HANDLE;
  m_stdout_w : HANDLE;
  m_event : HANDLE;
  m_timeout_ms : Z;
  m_print_fn : option PrintFunc
}.

(** [std::cout << str] *)
Definition DefaultPrintFunc : PrintFunc := λ str out, out ++ str.

(** The member initialisers of the class. *)
Definition Pipe_new : Pipe :=
  mkPipe (mkProcInfo 0 0) INVALID_HANDLE_VALUE INVALID_HANDLE_VALUE
    INVALID_HANDLE_VALUE INVALID_HANDLE_VALUE NULL 10000 (Some DefaultPrintFunc).

Definition set_m_procinfo (pi : PROCESS_INFORMATION) (p : Pipe) : Pipe :=
  mkPipe pi (m_stdin_r p) (m_stdin_w p) (m_stdout_r p) (m_stdout_w p)
    (m_event p) (m_timeout_ms p) (m_print_fn p).
Definition set_m_stdin (r w : HANDLE) (p : Pipe) : Pipe :=
  mkPipe (m_procinfo p) r w (m_stdout_r p) (m_stdout_w p)
    (m_event p) (m_timeout_ms p) (m_print_fn p).
Definition set_m_stdin_w (h : HANDLE) (p : Pipe) : Pipe :=
  set_m_stdin (m_stdin_r p) h p.
Definition set_m_stdout (r w : HANDLE) (p : Pipe) : Pipe :=
  mkPipe (m_procinfo p) (m_stdin_r p) (m_stdin_w p) r w
    (m_event p) (m_timeout_ms p) (m_print_fn p).
Definition set_m_event (h : HANDLE) (p : Pipe) : Pipe :=
  mkPipe (m_procinfo p) (m_stdin_r p) (m_stdin_w p) (m_stdout_r p) (m_stdout_w p)
    h (m_timeout_ms p) (m_print_fn p).
Definition set_m_timeout_ms (t : Z) (p : Pipe) : Pipe :=
  mkPipe (m_procinfo p) (m_stdin_r p) (m_stdin_w p) (m_stdout_r p) (m_stdout_w p)
    (m_event p) t (m_print_fn p).

(** [void SetPrintFunc(PrintFunc fn) { m_print_fn = fn; }]; [None] is [nullptr]. *)
Definition SetPrintFunc (fn : option PrintFunc) (p : Pipe) : Pipe :=
  mkPipe (m_procinfo p) (m_stdin_r p) (m_stdin_w p) (m_stdout_r p) (m_stdout_w p)
    (m_event p) (m_timeout_ms p) fn.

(** Where the fields that receive the read ends live inside a [Pipe] at
    address [self] (64-bit layout: PROCESS_INFORMATION takes 24 bytes, each
    handle 8). *)
Definition addr_m_stdin_r (self : Z) : Z := self + 24.
Definition addr_m_stdout_r (self : Z) : Z := self + 40.
Definition sizeof_Pipe : Z := 136.

Section Program.

Variable os : Oracle.

(** Calls the print callback on one chunk. *)
Definition call_print (fn : PrintFunc) (chunk : bytes) : M unit :=
  run modify (set_sink (fn chunk)) in
  log (EvPrint chunk).

(** [CreatePipePair]. [cur_read] and [cur_write] are what the two output
    cells hold on entry; the result carries what they hold on return. *)
Definition CreatePipePair (name : string) (out_read_pipe : Z)
    (cur_read cur_write : HANDLE) (buffer_size timeout_ms : Z)
    : M (bool * HANDLE * HANDLE) :=
  let* pid := GetCurrentProcessId in
  let path := full_name pid out_read_pipe name in
  let* read_pipe := CreateNamedPipeA os path buffer_size timeout_ms in
  if read_pipe =? INVALID_HANDLE_VALUE then ret (false, cur_read, cur_write)
  else
    let* write_pipe := CreateFileA os path in
    if write_pipe =? INVALID_HANDLE_VALUE then
      run CloseHandle read_pipe in
      ret (false, cur_read, cur_write)
    else
      ret (true, read_pipe, write_pipe).

(** One of the two loops of the destructor: every handle of [hs] that is
    not [sentinel] is closed. *)
Fixpoint close_all (sentinel : HANDLE) (hs : list HANDLE) : M unit :=
  match hs with
  | [] => ret tt
  | handle :: rest =>
      run (if handle =? sentinel then ret tt
           else run CloseHandle handle in ret tt) in
      close_all sentinel rest
  end.

(** [Pipe::~Pipe] *)
Definition Pipe_destructor (p : Pipe) : M unit :=
  let invalid_handles := [m_stdin_r p; m_stdin_w p; m_stdout_r p; m_stdout_w p] in
  let null_handles := [m_event p; hProcess (m_procinfo p); hThread (m_procinfo p)] in
  run close_all NULL null_handles in
  close_all INVALID_HANDLE_VALUE invalid_handles.

(** [Pipe::Create]. [self] is the address [new Pipe] returned. Returning
    [nullptr] drops the only reference to the object, which destroys it. *)
Definition Create (self : Z) (ffmpeg_path ffmpeg_args : string) (timeout_ms : Z)
    : M (option Pipe) :=
  let stream := set_m_timeout_ms timeout_ms Pipe_new in
  let* ev := CreateEventA os in
  let stream := set_m_event ev stream in
  if ev =? NULL then run Pipe_destructor stream in ret None
  else
    let* pair := CreatePipePair "stdout" (addr_m_stdout_r self)
                   (m_stdout_r stream) (m_stdout_w stream)
                   (4096 * 4096) timeout_ms in
    let '(ok, r, w) := pair in
    let stream := set_m_stdout r w stream in
    let* ok := (if ok : bool then SetHandleInformation os (m_stdout_r stream)
                else ret false) in
    if negb ok then run Pipe_destructor stream in ret None
    else
      let* pair := CreatePipePair "stdin" (addr_m_stdin_r self)
                     (m_stdin_r stream) (m_stdin_w stream)
                     (4096 * 4096) timeout_ms in
      let '(ok, r, w) := pair in
      let stream := set_m_stdin r w stream in
      let* ok := (if ok : bool then SetHandleInformation os (m_stdin_w stream)
                  else ret false) in
      if negb ok then run Pipe_destructor stream in ret None
      else
        let startup_info :=
          mkStartupInfo (m_stdin_r stream) (m_stdout_w stream) (m_stdout_w stream) in
        let cmdline := (ffmpeg_path +:+ " " +:+ ffmpeg_args)%string in
        let* started := CreateProcessW os cmdline startup_info (m_procinfo stream) in
        let '(ok, pi) := started in
        let stream := set_m_procinfo pi stream in
        if negb ok then run Pipe_destructor stream in ret None
        else ret (Some stream).

(** The loop of [Pipe::ReadOutput]; [None] when [fuel] iterations were not
    enough. *)
Fixpoint ReadOutput_loop (fuel : nat) (p : Pipe) (available total_read : Z)
    : M (option Z) :=
  if total_read <? available then
    match fuel with
    | O => ret None
    | S fuel' =>
        let read := wrap32 (available - total_read) in
        let read := if read >? 256 then 256 else read in
        let* r := ReadFile os (m_stdout_r p) read in
        match r with
        | None => ret (Some total_read)
        | Some chunk =>
            let read := blen chunk in
            let total_read := wrap32 (total_read + read) in
            run (match m_print_fn p with
                 | Some fn => call_print fn chunk
                 | None => ret tt
                 end) in
            ReadOutput_loop fuel' p available total_read
        end
    end
  else ret (Some total_read).

(** [Pipe::ReadOutput] *)
Definition ReadOutput (fuel : nat) (p : Pipe) : M (option Z) :=
  let* r := PeekNamedPipe os (m_stdout_r p) in
  match r with
  | None => ret (Some 0)
  | Some available => ReadOutput_loop fuel p available 0
  end.

(** The loop of [Pipe::Write]. [total_written] is a DWORD, [length] a
    size_t; the comparison is made at the width of size_t. *)
Fixpoint Write_loop (fuel : nat) (p : Pipe) (data : Z → Byte.byte)
    (length total_written : Z) : M (option bool) :=
  if total_written <? length then
    match fuel with
    | O => ret None
    | S fuel' =>
        let* ok := WriteFile os (m_stdin_w p) data total_written
                     (wrap32 (wrap32 length - total_written)) in
        let* go := (if ok : bool then ret true
                    else let* e := GetLastError in
                         if negb (e =? ERROR_IO_PENDING) then ret false
                         else run SetLastError ERROR_SUCCESS in ret true) in
        if negb go then ret (Some false)
        else
          let wait_objects := [m_event p; hProcess (m_procinfo p)] in
          let* r := WaitForMultipleObjects os wait_objects false (m_timeout_ms p) in
          if negb (r =? STATUS_WAIT_0) then ret (Some false)
          else
            let* res := GetOverlappedResult os (m_stdin_w p) false in
            match res with
            | None => ret (Some false)
            | Some written =>
                let total_written := wrap32 (total_written + written) in
                let* drained := ReadOutput fuel' p in
                match drained with
                | None => ret None
                | Some _ => Write_loop fuel' p data length total_written
                end
            end
    end
  else ret (Some true).

(** [Pipe::Write] *)
Definition Write (fuel : nat) (p : Pipe) (data : Z → Byte.byte) (length : Z)
    : M (option bool) :=
  Write_loop fuel p data length 0.

(** [Pipe::Close]; the result is the object after the call. *)
Definition Close (fuel : nat) (p : Pipe) (timeout_ms : Z) (terminate : bool)
    : M (option Pipe) :=
  run CloseHandle (m_stdin_w p) in
  let p := set_m_stdin_w INVALID_HANDLE_VALUE p in
  let* result := WaitForSingleObject os (hProcess (m_procinfo p)) timeout_ms in
  run (if negb (result =? STATUS_WAIT_0) && terminate
       then TerminateProcess (hProcess (m_procinfo p)) (-1)
       else ret tt) in
  let* drained := ReadOutput fuel p in
  match drained with
  | None => ret None
  | Some _ => ret (Some p)
  end.

End Program.

(** ** Vocabulary: the drain pass *)

(** The pipe [path] after the child's latest output has landed in it. *)
Definition arrive (os : Oracle) (path : string) (w : World) : World :=
  set_pipes (insert path (pipe_bytes w path ++ ora_child_output os w)) w.

(** The calls a drain pass makes for the chunks it reads: each read is
    followed at once by the callback on the same chunk, when there is one. *)
Definition drain_events (h : HANDLE) (fn : option PrintFunc) (chunks : list bytes)
    : list Event :=
  chunks ≫= λ c, EvReadFile h (blen c) (Some c)
                  :: match fn with Some _ => [EvPrint c] | None => [] end.

(** The sink after the callback has seen [chunks] in order. *)
Definition feed (fn : option PrintFunc) (chunks : list bytes) (sink : bytes) : bytes :=
  match fn with
  | Some f => foldl (λ s c, f c s) sink chunks
  | None => sink
  end.

(** The parts of the world a drain pass and a wait leave alone. *)
Definition same_kernel (w w' : World) : Prop :=
  w_handles w' = w_handles w ∧ w_next w' = w_next w ∧
  w_transferred w' = w_transferred w ∧ w_last_error w' = w_last_error w ∧
  w_pid w' = w_pid w.

Definition is_drain_event (e : Event) : bool :=
  match e with
  | EvPeekNamedPipe _ _ | EvReadFile _ _ _ | EvPrint _ => true
  | _ => false
  end.

Definition is_peek (e : Event) : bool :=
  match e with EvPeekNamedPipe _ _ => true | _ => false end.

(** The fuel that is enough for any drain pass: a pass reads at least 256
    bytes per turn, or what is left, and measures less than 2^32 bytes. *)
Definition drain_fuel : Z := 16777216.

(** ** Vocabulary: the loop of Write *)

(** How one turn of the loop of [Pipe::Write] ends, before the drain. *)
Inductive Outcome :=
| Failed                      (* [return false] *)
| Written (total_written : Z). (* the new running total *)

Definition wait_objects (p : Pipe) : list HANDLE := [m_event p; hProcess (m_procinfo p)].

(** The byte count of one request: [(DWORD)length - total_written]. *)
Definition request_count (length total_written : Z) : Z :=
  wrap32 (wrap32 length - total_written).

Section Turn.

Variable os : Oracle.

(** The second half of one turn of the loop of [Pipe::Write]: the wait and
    the retrieval of the result. *)
Definition Write_await (p : Pipe) (total_written : Z) : M Outcome :=
  let* r := WaitForMultipleObjects os (wait_objects p) false (m_timeout_ms p) in
  if negb (r =? STATUS_WAIT_0) then ret Failed
  else
    let* res := GetOverlappedResult os (m_stdin_w p) false in
    match res with
    | None => ret Failed
    | Some written => ret (Written (wrap32 (total_written + written)))
    end.

(** The body of the loop of [Pipe::Write] up to [total_written += written]. *)
Definition Write_iter (p : Pipe) (data : Z → Byte.byte) (length total_written : Z)
    : M Outcome :=
  let* ok := WriteFile os (m_stdin_w p) data total_written
               (request_count length total_written) in
  let* go := (if ok : bool then ret true
              else let* e := GetLastError in
                   if negb (e =? ERROR_IO_PENDING) then ret false
                   else run SetLastError ERROR_SUCCESS in ret true) in
  if negb go then ret Failed else Write_await p total_written.

End Turn.

(** What the calls of [Pipe::Write] look like: every request starts at the
    running total and asks for [(DWORD)length - total_written] bytes. *)
Definition write_event_ok (p : Pipe) (length total : Z) (e : Event) : Prop :=
  match e with
  | EvWriteFile h off cnt _ =>
      h = m_stdin_w p ∧ total ≤ off ≤ wrap32 length ∧ off < length ∧
      cnt = request_count length off
  | EvWaitForMultipleObjects hs wait_all t _ =>
      hs = wait_objects p ∧ wait_all = false ∧ t = m_timeout_ms p
  | EvGetOverlappedResult h wait _ => h = m_stdin_w p ∧ wait = false
  | e => is_drain_event e = true
  end.

(** The three answers that make [Pipe::Write] return false. *)
Definition is_write_failure (e : Event) : bool :=
  match e with
  | EvWriteFile _ _ _ false => true
  | EvWaitForMultipleObjects _ _ _ r => negb (r =? STATUS_WAIT_0)
  | EvGetOverlappedResult _ _ None => true
  | _ => false
  end.

(** A system whose input side works: every write moves at least one byte,
    at once or later, every wait reports the completion and every result can
    be fetched. *)
Definition input_side_works (os : Oracle) : Prop :=
  (∀ w, ∃ n, 1 ≤ n ∧ (ora_write os w = WrDone n ∨ ora_write os w = WrPending n)) ∧
  (∀ w, ora_wait os w = STATUS_WAIT_0) ∧
  (∀ w, ora_overlapped os w = true).


(** ** Vocabulary: channel paths *)

(** The value of a hexadecimal digit (0 for any other character). *)
Definition hex_value (c : ascii) : Z :=
  match c with
  | "0" => 0 | "1" => 1 | "2" => 2 | "3" => 3 | "4" => 4 | "5" => 5
  | "6" => 6 | "7" => 7 | "8" => 8 | "9" => 9 | "A" => 10 | "B" => 11
  | "C" => 12 | "D" => 13 | "E" => 14 | "F" => 15 | _ => 0
  end%char.

(** Reads a string of hexadecimal digits back as a number. *)
Definition hex_decode (l : list ascii) : Z :=
  foldl (λ acc c, acc * 16 + hex_value c) 0 l.

Definition sep : ascii := "_"%char.

(** The channel paths of the Session whose object lives at [self] in the
    process [pid]. *)
Definition session_paths (pid self : Z) : list string :=
  [full_name pid (addr_m_stdout_r self) "stdout";
   full_name pid (addr_m_stdin_r self) "stdin"].

(** A pipe is only ever created under one of the two paths of the Session. *)
Definition creates_within (paths : list string) (e : Event) : Prop :=
  match e with
  | EvCreateNamedPipe path _ _ _ => path ∈ paths
  | _ => True
  end.

(** ** Vocabulary: the resources of a Session *)

(** Handle values are positive and below the next one to be handed out, so
    a new handle is neither a sentinel nor a handle already open. *)
Definition world_ok (w : World) : Prop :=
  0 < w_next w ∧ ∀ h o, w_handles w !! h = Some o → 0 < h < w_next w.

(** The resource fields of a Session, grouped by their sentinel as the
    destructor groups them. *)
Definition null_handles (p : Pipe) : list HANDLE :=
  [m_event p; hProcess (m_procinfo p); hThread (m_procinfo p)].
Definition invalid_handles (p : Pipe) : list HANDLE :=
  [m_stdin_r p; m_stdin_w p; m_stdout_r p; m_stdout_w p].

(** The handles a Session still owns: the fields that do not hold their
    sentinel. *)
Definition owned_handles (p : Pipe) : list HANDLE :=
  filter (λ h, h ≠ NULL) (null_handles p)
  ++ filter (λ h, h ≠ INVALID_HANDLE_VALUE) (invalid_handles p).

(** Every field is its sentinel or an open handle of its own. *)
Definition Pipe_inv (p : Pipe) (w : World) : Prop :=
  NoDup (owned_handles p) ∧
  ∀ h, h ∈ owned_handles p → is_Some (w_handles w !! h).

Definition is_close_of (h : HANDLE) (e : Event) : bool :=
  match e with EvCloseHandle h' => bool_decide (h' = h) | _ => false end.

(** How many times [h] is passed to [CloseHandle] in [evs]. *)
Definition closes (h : HANDLE) (evs : list Event) : nat :=
  length (filter (λ e, is_close_of h e = true) evs).

(** What a caller can do with a Session between creation and destruction. *)
Inductive Op :=
| OpSetPrintFunc (fn : option PrintFunc)
| OpWrite (data : Z → Byte.byte) (length : Z)
| OpClose (timeout_ms : Z) (terminate : bool).

Section Ops.

Variable os : Oracle.

(** The calls [ops] made one after the other on the Session [p]. *)
Fixpoint run_ops (fuel : nat) (ops : list Op) (p : Pipe) : M (option Pipe) :=
  match ops with
  | [] => ret (Some p)
  | OpSetPrintFunc fn :: rest => run_ops fuel rest (SetPrintFunc fn p)
  | OpWrite data length :: rest =>
      let* r := Write os fuel p data length in
      match r with
      | None => ret None
      | Some _ => run_ops fuel rest p
      end
  | OpClose timeout_ms terminate :: rest =>
      let* r := Close os fuel p timeout_ms terminate in
      match r with
      | None => ret None
      | Some p' => run_ops fuel rest p'
      end
  end.

End Ops.

(** From [p] to [p'] no resource field changed, except that the write end
    of the input channel may have gone to its sentinel. *)
Definition fields_kept (p p' : Pipe) : Prop :=
  m_procinfo p' = m_procinfo p ∧ m_event p' = m_event p ∧
  m_stdin_r p' = m_stdin_r p ∧ m_stdout_r p' = m_stdout_r p ∧
  m_stdout_w p' = m_stdout_w p ∧
  (m_stdin_w p' = m_stdin_w p ∨ m_stdin_w p' = INVALID_HANDLE_VALUE).

(** What the code does not do: release, on an explicit close, every
    resource the Session owns. *)
Definition Close_releases_all : Prop :=
  ∀ os fuel p timeout_ms terminate w p' w',
    world_ok w → Pipe_inv p w →
    Close os fuel p timeout_ms terminate w = (Some p', w') →
    ∀ h, h ∈ owned_handles p → w_handles w' !! h = None.


(** ** Sample worlds *)

(** A system where every call succeeds at once, a write moves at most four
    bytes, and the child prints 300 bytes before the first drain pass. *)
Definition os_demo : Oracle :=
  mkOracle (λ _, true) (λ _, WrDone 4) (λ _, STATUS_WAIT_0) (λ _, true)
    (λ _, true) (λ _, true)
    (λ w, if forallb (λ e, negb (is_drain_event e)) (w_trace w)
          then replicate 300 Byte.x41 else []).

(** A system where writes stay pending and the wait times out. *)
Definition os_stall : Oracle :=
  mkOracle (λ _, true) (λ _, WrPending 0) (λ _, WAIT_TIMEOUT) (λ _, true)
    (λ _, true) (λ _, true) (λ _, []).

(** A system where only the first creation succeeds. *)
Definition os_half : Oracle :=
  mkOracle (λ w, bool_decide (w_trace w = [])) (λ _, WrDone 4) (λ _, STATUS_WAIT_0)
    (λ _, true) (λ _, true) (λ _, true) (λ _, []).

(** A process that holds no handle yet. *)
Definition w_init : World := mkWorld ∅ 4 ∅ 0 0 [] 4242 [].

Definition demo_created : option Pipe * World :=
  Create os_demo 4096 "ffmpeg" "-i - out.mp4" 1000 w_init.
Definition demo_p : Pipe := default Pipe_new (fst demo_created).
Definition demo_w : World := snd demo_created.
Definition demo_stdin : string := full_name 4242 (addr_m_stdin_r 4096) "stdin".
Definition demo_stdout : string := full_name 4242 (addr_m_stdout_r 4096) "stdout".
Definition demo_data (i : Z) : Byte.byte :=
  if Z.even i then Byte.x61 else Byte.x62.

Definition demo_ops : list Op :=
  [OpWrite demo_data 10; OpClose 200 true; OpSetPrintFunc None; OpClose 200 true].

(** ** Vocabulary: kinds of calls *)

(** The calls [Pipe::Write] is made of. *)
Definition is_transfer_event (e : Event) : bool :=
  match e with
  | EvWriteFile _ _ _ _ | EvWaitForMultipleObjects _ _ _ _
  | EvGetOverlappedResult _ _ _ => true
  | e => is_drain_event e
  end.

(** A call that fetched the result of a completed write. *)
Definition is_fetched (e : Event) : bool :=
  match e with EvGetOverlappedResult _ _ (Some _) => true | _ => false end.

Definition is_read (e : Event) : bool :=
  match e with EvReadFile _ _ _ => true | _ => false end.

(** The byte count a read of a drain pass asks for fits the 256 bytes of
    its buffer. *)
Definition read_within_buffer (e : Event) : Prop :=
  match e with EvReadFile _ count _ => 1 ≤ count ≤ 256 | _ => True end.

(** A call that started the child. *)
Definition is_child_start (e : Event) : bool :=
  match e with EvCreateProcess _ _ _ _ true => true | _ => false end.

(** How many events of [evs] satisfy [f]. *)
Definition count_events (f : Event → bool) (evs : list Event) : nat :=
  length (filter (λ e, f e = true) evs).

(** A system where no call of [Pipe::Write] fails: every write is taken,
    at once or later, every wait reports the completion and every result can
    be fetched. It need not move a single byte. *)
Definition calls_succeed (os : Oracle) : Prop :=
  (∀ w, ∃ n, ora_write os w = WrDone n ∨ ora_write os w = WrPending n) ∧
  (∀ w, ora_wait os w = STATUS_WAIT_0) ∧
  (∀ w, ora_overlapped os w = true).

(** A system where every creation and attribute call succeeds. *)
Definition creation_works (os : Oracle) : Prop := ∀ w, ora_create os w = true.

(** The world after [CloseHandle] has been called on each handle of [hs]
    in turn. *)
Definition close_each (hs : list HANDLE) (w : World) : World :=
  foldl (λ w h, snd (CloseHandle h w)) w hs.

(** ** The example program (example.cpp) *)

Definition FRAME_WIDTH : Z := 640.
Definition FRAME_HEIGHT : Z := 480.
Definition FRAMERATE : Z := 60.
Definition DURATION_SECONDS : Z := 5.

(** How a call of a function of the example ends. *)
Inductive Ending (A : Type) : Type :=
| Returns (a : A)
| OutOfFuel        (* a loop of the library was cut short *)
| Undefined.       (* a store outside the frame buffer *)
Arguments Returns {A} a.
Arguments OutOfFuel {A}.
Arguments Undefined {A}.

(** A byte array as a function of the offset. A store outside the [size]
    bytes of the array has no defined result. *)
Definition store (size off : Z) (v : Byte.byte) (buffer : Z → Byte.byte)
    : option (Z → Byte.byte) :=
  if (0 <=? off) && (off <? size)
  then Some (λ i, if i =? off then v else buffer i)
  else None.

(** A counted loop over [xs] whose body may leave defined behaviour. *)
Fixpoint for_each {St : Type} (xs : list Z) (body : Z → St → option St) (s : St)
    : option St :=
  match xs with
  | [] => Some s
  | x :: rest =>
      match body x s with
      | Some s' => for_each rest body s'
      | None => None
      end
  end.

(** The three nested loops of [WriteDummyFrames] that paint one frame.
    [colour width height frame x y i] stands for [(uint8_t)(rgb[i] * 255)],
    which the program computes in single precision from [x / width],
    [y / height] and [frame / FRAMERATE]; it is left open, and what is proved
    holds for every such function. The pixel index [y * width + x] is a
    32-bit product and sum, widened before the multiplication by [STRIDE]. *)
Definition fill_frame (colour : Z → Z → Z → Z → Z → Z → Byte.byte)
    (width height frame buffer_size : Z) (buffer : Z → Byte.byte)
    : option (Z → Byte.byte) :=
  for_each (seqZ 0 height) (λ y,
    for_each (seqZ 0 width) (λ x,
      let pixel := wrap32 (wrap32 (y * width) + x) * 3 in
      for_each (seqZ 0 3) (λ i,
        store buffer_size (pixel + i) (colour width height frame x y i))))
    buffer.

(** The byte a painted frame holds at [off]. *)
Definition frame_byte (colour : Z → Z → Z → Z → Z → Z → Byte.byte)
    (width height frame off : Z) : Byte.byte :=
  colour width height frame ((off / 3) mod width) ((off / 3) / width) (off mod 3).

Definition frame_bytes (colour : Z → Z → Z → Z → Z → Z → Byte.byte)
    (width height frame : Z) : bytes :=
  frame_byte colour width height frame <$> seqZ 0 (width * height * 3).

(** The buffer [new] holds the frame in its first [upto] pixels and what
    [old] held elsewhere. *)
Definition painted (colour : Z → Z → Z → Z → Z → Z → Byte.byte)
    (width height frame upto : Z) (old new : Z → Byte.byte) : Prop :=
  ∀ off, new off = if (0 <=? off) && (off <? upto * 3)
                   then frame_byte colour width height frame off else old off.

Definition newline : string := String (ascii_of_nat 10) EmptyString.
Definition quote : string := String (ascii_of_nat 34) EmptyString.

(** [printf] writes to the standard output, where [std::cout] writes too. *)
Definition printf (text : string) : M unit :=
  modify (set_sink (λ out, out ++ list_byte_of_string text)).

(** [ss << int]: decimal digits. *)
Definition show_int (n : Z) : string := string_of_list_ascii (show_dword n).

Fixpoint strip_zeros (digits : list ascii) : list ascii :=
  match digits with
  | d :: (_ :: _) as rest => if Ascii.eqb d "0" then strip_zeros rest else digits
  | _ => digits
  end.

(** [%X] of a DWORD: upper-case hexadecimal digits, no leading zero. *)
Definition show_hex (n : Z) : string :=
  string_of_list_ascii (strip_zeros (hex_fixed 8 (wrap32 n))).

Definition usage : string :=
  "ffmpipe <ffmpeg-path> " +:+ quote +:+ "<output-args>" +:+ quote +:+ newline
  +:+ "This will output an example video." +:+ newline
  +:+ "Output args are appended to the input args, and must include the file name"
  +:+ newline.

Section ExampleProgram.

Variable os : Oracle.
Variable colour : Z → Z → Z → Z → Z → Z → Byte.byte.

(** The loop over the frames of [WriteDummyFrames]. *)
Fixpoint frames_loop (fuel : nat) (pipe : Pipe) (width height buffer_size : Z)
    (frames : list Z) (buffer : Z → Byte.byte) : M (Ending unit) :=
  match frames with
  | [] => ret (Returns tt)
  | frame :: rest =>
      match fill_frame colour width height frame buffer_size buffer with
      | None => ret Undefined
      | Some buffer =>
          let* ok := Write os fuel pipe buffer buffer_size in
          match ok with
          | None => ret OutOfFuel
          | Some false =>
              run printf ("Failed to write frame" +:+ newline) in
              ret (Returns tt)
          | Some true => frames_loop fuel pipe width height buffer_size rest buffer
          end
      end
  end.

(** [WriteDummyFrames]. [fresh] is what [new uint8_t[buffer_size]] holds;
    [width * height] is a 32-bit product, widened before the multiplication
    by [STRIDE]. *)
Definition WriteDummyFrames (fuel : nat) (pipe : Pipe) (width height num_frames : Z)
    (fresh : Z → Byte.byte) : M (Ending unit) :=
  let STRIDE := 3 in
  let buffer_size := wrap32 (width * height) * STRIDE in
  frames_loop fuel pipe width height buffer_size (seqZ 0 num_frames) fresh.

(** The body of [main], for any values of the four macros of the file.
    [argv] holds [argc] strings; [self] is the address of the Session object
    [Pipe::Create] allocates. The last reference to the Session goes when
    [main] returns. Wide strings are written character for character, which
    is what the code does to [argv[2]] when its characters are below 128. *)
Definition example_main (frame_width frame_height framerate duration_seconds : Z)
    (fuel : nat) (self : Z) (fresh : Z → Byte.byte) (argv : list string)
    : M (Ending Z) :=
  match argv with
  | [_; ffmpeg_path; output_args] =>
      let ffmpeg_args :=
        ("-c:v rawvideo -f rawvideo -pix_fmt rgb24 -s:v " +:+ show_int frame_width
         +:+ "x" +:+ show_int frame_height +:+ " -framerate " +:+ show_int framerate
         +:+ " " +:+ "-i - " +:+ output_args)%string in
      let* pipe := Create os self ffmpeg_path ffmpeg_args 10000 in
      match pipe with
      | None =>
          let* e := GetLastError in
          run printf ("Failed to create pipe. Win32 error: 0x" +:+ show_hex e +:+ newline) in
          ret (Returns (-1))
      | Some pipe =>
          let* r := WriteDummyFrames fuel pipe frame_width frame_height
                      (duration_seconds * framerate) fresh in
          match r with
          | Returns _ =>
              let* closed := Close os fuel pipe INFINITE true in
              match closed with
              | None => ret OutOfFuel
              | Some pipe =>
                  let* last_error := GetLastError in
                  run (if negb (last_error =? ERROR_SUCCESS)
                       then printf ("Win32 error: 0x" +:+ show_hex last_error +:+ newline)
                       else ret tt) in
                  run Pipe_destructor pipe in
                  ret (Returns 0)
              end
          | OutOfFuel => ret OutOfFuel
          | Undefined => ret Undefined
          end
      end
  | _ => run printf usage in ret (Returns 0)
  end.

(** [main]: the body at the values the file defines. *)
Definition main : nat → Z → (Z → Byte.byte) → list string → M (Ending Z) :=
  example_main FRAME_WIDTH FRAME_HEIGHT FRAMERATE DURATION_SECONDS.

End ExampleProgram.

(** A colour that depends on the channel only. *)
Definition grey : Z → Z → Z → Z → Z → Z → Byte.byte :=
  λ width height frame x y i, if i =? 0 then Byte.x80 else Byte.x40.

(** * Proofs *)

(** Projections of a world built by the setters. *)
Tactic Notation "pipe_simpl" :=
  unfold pipe_bytes, arrive;
  cbn [w_pipes w_handles w_trace w_sink w_next w_pid w_transferred w_last_error
       add_event set_transferred set_last_error set_pipes set_sink set_handles set_next].
Tactic Notation "pipe_simpl" "in" hyp(H) :=
  unfold pipe_bytes, arrive in H;
  cbn [w_pipes w_handles w_trace w_sink w_next w_pid w_transferred w_last_error
       add_event set_transferred set_last_error set_pipes set_sink set_handles set_next]
    in H.

Section DrainProofs.

Variable os : Oracle.

Lemma same_kernel_refl w : same_kernel w w.
Proof. by repeat split. Qed.

Lemma same_kernel_trans w1 w2 w3 :
  same_kernel w1 w2 → same_kernel w2 w3 → same_kernel w1 w3.
Proof. unfold same_kernel. intros (?&?&?&?&?) (?&?&?&?&?). repeat split; congruence. Qed.

Lemma pipe_bytes_insert path q b w :
  pipe_bytes (set_pipes (insert path b) w) q
  = if decide (path = q) then b else pipe_bytes w q.
Proof.
  unfold pipe_bytes. cbn. rewrite lookup_insert.
  destruct (decide (path = q)); done.
Qed.

Lemma pipe_bytes_add_event e w q : pipe_bytes (add_event e w) q = pipe_bytes w q.
Proof. done. Qed.

Lemma pipe_bytes_set_sink f w q : pipe_bytes (set_sink f w) q = pipe_bytes w q.
Proof. done. Qed.

Lemma pipe_bytes_arrive path w :
  pipe_bytes (arrive os path w) path = pipe_bytes w path ++ ora_child_output os w.
Proof. unfold arrive. rewrite pipe_bytes_insert. by rewrite decide_True. Qed.

Lemma ReadFile_server h count w path :
  w_handles w !! h = Some (OPipeServer path) →
  ReadFile os h count w =
    let w1 := arrive os path w in
    let chunk := take (Z.to_nat count) (pipe_bytes w1 path) in
    if ora_read os w1
    then (Some chunk,
          add_event (EvReadFile h count (Some chunk))
            (set_pipes (insert path (drop (Z.to_nat count) (pipe_bytes w1 path))) w1))
    else (None, add_event (EvReadFile h count None) w1).
Proof.
  intros Hh. unfold ReadFile, bind, ask, child_prints, pipe_push, modify, log, ret.
  rewrite Hh. cbn. fold (arrive os path w). by destruct (ora_read os _).
Qed.

Lemma ReadFile_other h count w :
  (∀ path, w_handles w !! h ≠ Some (OPipeServer path)) →
  ReadFile os h count w = (None, add_event (EvReadFile h count None) w).
Proof.
  intros Hh. unfold ReadFile, bind, ask, ret, log.
  destruct (w_handles w !! h) as [[]|] eqn:E; try reflexivity.
  exfalso. by eapply Hh.
Qed.

Lemma PeekNamedPipe_server h w path :
  w_handles w !! h = Some (OPipeServer path) →
  PeekNamedPipe os h w =
    let w1 := arrive os path w in
    let r := if ora_peek os w1 then Some (wrap32 (blen (pipe_bytes w1 path))) else None in
    (r, add_event (EvPeekNamedPipe h r) w1).
Proof.
  intros Hh. unfold PeekNamedPipe, bind, ask, child_prints, pipe_push, modify, log, ret.
  rewrite Hh. cbn. fold (arrive os path w). by destruct (ora_peek os _).
Qed.

Lemma PeekNamedPipe_other h w :
  (∀ path, w_handles w !! h ≠ Some (OPipeServer path)) →
  PeekNamedPipe os h w = (None, add_event (EvPeekNamedPipe h None) w).
Proof.
  intros Hh. unfold PeekNamedPipe, bind, ask, ret, log.
  destruct (w_handles w !! h) as [[]|] eqn:E; try reflexivity.
  exfalso. by eapply Hh.
Qed.

Lemma wrap32_small z : 0 ≤ z < DWORD_MAX → wrap32 z = z.
Proof. intros. unfold wrap32. by apply Z.mod_small. Qed.

Lemma wrap32_range z : 0 ≤ wrap32 z < DWORD_MAX.
Proof. unfold wrap32, DWORD_MAX. apply Z.mod_pos_bound. lia. Qed.

Lemma wrap32_le z : 0 ≤ z → wrap32 z ≤ z.
Proof. intros. unfold wrap32, DWORD_MAX. apply Z.mod_le; lia. Qed.

Lemma ReadOutput_loop_unfold fuel p available total_read :
  ReadOutput_loop os (S fuel) p available total_read =
  if total_read <? available then
    let read := wrap32 (available - total_read) in
    let read := if read >? 256 then 256 else read in
    bind (ReadFile os (m_stdout_r p) read) (λ r,
      match r with
      | None => ret (Some total_read)
      | Some chunk =>
          bind (match m_print_fn p with
                | Some fn => call_print fn chunk
                | None => ret tt
                end)
            (λ _, ReadOutput_loop os fuel p available (wrap32 (total_read + blen chunk)))
      end)
  else ret (Some total_read).
Proof. reflexivity. Qed.

End DrainProofs.

Section DrainLoop.

Variable os : Oracle.

Lemma blen_app a b : blen (a ++ b) = blen a + blen b.
Proof. unfold blen. rewrite length_app. lia. Qed.

Lemma blen_take n l : 0 ≤ n ≤ blen l → blen (take (Z.to_nat n) l) = n.
Proof. unfold blen. intros. rewrite length_take. lia. Qed.

Lemma blen_nonneg l : 0 ≤ blen l.
Proof. unfold blen. lia. Qed.

Lemma take_take_drop_app (n m : nat) (l a : bytes) :
  (n ≤ length l)%nat →
  take n (l ++ a) ++ take m (drop n l) = take (n + m) l.
Proof.
  intros. rewrite take_app_le by done. apply take_take_drop.
Qed.

Lemma print_opt_run {A} fn chunk (k : unit → M A) w :
  bind (match fn with Some f => call_print f chunk | None => ret tt end) k w
  = k tt (match fn with
          | Some f => add_event (EvPrint chunk) (set_sink (f chunk) w)
          | None => w
          end).
Proof. by destruct fn. Qed.

Lemma drain_events_cons h fn c cs :
  drain_events h fn (c :: cs) = drain_events h fn [c] ++ drain_events h fn cs.
Proof. unfold drain_events. cbn. by rewrite app_nil_r. Qed.

Lemma blen_nil : blen [] = 0.
Proof. reflexivity. Qed.

Ltac loop_stops :=
  change (concat []) with (@nil Byte.byte);
  change (drain_events _ _ []) with (@nil Event);
  rewrite ?drop_0, ?app_nil_r, ?blen_nil;
  split_and!;
  try first [ done | lia | apply same_kernel_refl
            | by match goal with |- context [feed ?f] => destruct f end ].

Lemma ReadOutput_loop_spec fuel : ∀ p available total_read w r w' path,
  w_handles w !! m_stdout_r p = Some (OPipeServer path) →
  0 ≤ total_read ≤ available → available < DWORD_MAX →
  available - total_read ≤ blen (pipe_bytes w path) →
  ReadOutput_loop os fuel p available total_read w = (r, w') →
  ∃ chunks later tail,
    Forall (λ c, 1 ≤ blen c ≤ 256) chunks ∧
    total_read + blen (concat chunks) ≤ available ∧
    concat chunks = take (length (concat chunks)) (pipe_bytes w path) ∧
    pipe_bytes w' path = drop (length (concat chunks)) (pipe_bytes w path) ++ later ∧
    (∀ q, q ≠ path → w_pipes w' !! q = w_pipes w !! q) ∧
    same_kernel w w' ∧
    w_trace w' = w_trace w ++ drain_events (m_stdout_r p) (m_print_fn p) chunks ++ tail ∧
    w_sink w' = feed (m_print_fn p) chunks (w_sink w) ∧
    match r with
    | Some n =>
        n = total_read + blen (concat chunks) ∧
        (tail = [] ∧ n = available ∨
         tail = [EvReadFile (m_stdout_r p) (Z.min (available - n) 256) None] ∧
         n < available ∧ ∃ wf, ora_read os wf = false)
    | None => tail = [] ∧ Z.of_nat fuel * 256 < available - total_read
    end.
Proof.
  induction fuel as [|fuel IH]; intros p available total_read w r w' path Hh Ht Ha Hbuf Hrun.
  - cbn in Hrun. destruct (total_read <? available) eqn:E; inversion Hrun; subst; clear Hrun.
    + apply Z.ltb_lt in E. exists [], [], []. loop_stops.
    + apply Z.ltb_ge in E. exists [], [], []. loop_stops.
      left. split; [done|lia].
  - rewrite ReadOutput_loop_unfold in Hrun.
    destruct (total_read <? available) eqn:E.
    2:{ apply Z.ltb_ge in E. inversion Hrun; subst.
        exists [], [], []. loop_stops. left. split; [done|lia]. }
    apply Z.ltb_lt in E. cbv zeta in Hrun.
    rewrite (wrap32_small (available - total_read)) in Hrun by lia.
    set (read := if available - total_read >? 256 then 256 else available - total_read) in *.
    assert (Hread : read = Z.min (available - total_read) 256 ∧ 1 ≤ read ≤ 256
                    ∧ read ≤ available - total_read).
    { unfold read. destruct (Z.gtb_spec (available - total_read) 256); lia. }
    destruct Hread as (Hmin & Hr1 & Hr2). clearbody read.
    unfold bind at 1 in Hrun. rewrite (ReadFile_server os _ _ _ path Hh) in Hrun.
    cbv zeta in Hrun.
    destruct (ora_read os (arrive os path w)) eqn:Eread.
    + (* the read succeeds *)
      set (B := pipe_bytes w path) in *.
      set (a := ora_child_output os w).
      assert (HB1 : pipe_bytes (arrive os path w) path = B ++ a) by apply pipe_bytes_arrive.
      rewrite HB1 in Hrun.
      set (chunk := take (Z.to_nat read) (B ++ a)) in *.
      assert (Hclen : blen chunk = read).
      { unfold chunk. apply blen_take. rewrite blen_app. pose proof (blen_nonneg a). lia. }
      rewrite Hclen in Hrun.
      rewrite (wrap32_small (total_read + read)) in Hrun by lia.
      rewrite print_opt_run in Hrun.
      match type of Hrun with
      | ReadOutput_loop _ _ _ _ _ ?w1 = _ => remember w1 as w2 eqn:Eprint
      end.
      assert (Hw2 : same_kernel w w2 ∧ w_pipes w2 = <[path := drop (Z.to_nat read) (B ++ a)]> (w_pipes w)
                    ∧ w_trace w2 = w_trace w ++ drain_events (m_stdout_r p) (m_print_fn p) [chunk]
                    ∧ w_sink w2 = feed (m_print_fn p) [chunk] (w_sink w)).
      { unfold drain_events. cbn. rewrite Hclen.
        destruct (m_print_fn p) as [fn|]; subst w2; cbn.
        - rewrite insert_insert_eq, <- app_assoc. by repeat split.
        - rewrite insert_insert_eq. by repeat split. }
      clear Eprint. destruct Hw2 as (Hk & Hp & Htr & Hsk).
      assert (HB2 : pipe_bytes w2 path = drop (Z.to_nat read) B ++ a).
      { unfold pipe_bytes at 1. rewrite Hp, lookup_insert_eq. cbn.
        rewrite drop_app_le; [done|]. unfold blen in *. lia. }
      assert (Hh2 : w_handles w2 !! m_stdout_r p = Some (OPipeServer path)).
      { destruct Hk as (-> & _). done. }
      apply (IH _ _ _ _ _ _ path Hh2) in Hrun; [| lia | lia |].
      2:{ rewrite HB2, blen_app. unfold blen at 1. rewrite length_drop.
          pose proof (blen_nonneg a). unfold blen in *. lia. }
      destruct Hrun as (chunks & later & tail & Hall & Hle & Hcat & Hfin & Hoth & Hk' & Htr' & Hsk' & Hres).
      exists (chunk :: chunks), (a ++ later), tail.
      assert (Hlen : (length (concat chunks) ≤ length (drop (Z.to_nat read) B))%nat).
      { rewrite length_drop. unfold blen in *. lia. }
      assert (Hcz : length chunk = Z.to_nat read) by (unfold blen in Hclen; lia).
      rewrite HB2 in Hcat, Hfin.
      rewrite take_app_le in Hcat by done.
      rewrite drop_app_le in Hfin by done.
      assert (Hcc : concat (chunk :: chunks) = take (length (concat (chunk :: chunks))) B).
      { cbn [concat]. rewrite length_app, Hcz. rewrite Hcat at 1.
        unfold chunk. apply take_take_drop_app. unfold blen in *. lia. }
      split. { constructor; [lia | done]. }
      split. { cbn [concat]. rewrite blen_app. lia. }
      split; [done|].
      split. { rewrite Hfin. cbn [concat]. rewrite length_app, Hcz, drop_drop.
               by rewrite <- app_assoc. }
      split. { intros q Hq. rewrite Hoth by done. rewrite Hp. by rewrite lookup_insert_ne. }
      split. { eapply same_kernel_trans; eauto. }
      split. { rewrite Htr', Htr, (drain_events_cons _ _ chunk chunks). by rewrite <- !app_assoc. }
      split. { rewrite Hsk', Hsk. by destruct (m_print_fn p). }
      destruct r as [n|].
      * destruct Hres as (-> & Hres). cbn [concat]. rewrite blen_app.
        split; [lia|]. destruct Hres as [[-> ->]|(-> & ? & ?)]; [left|right];
          split_and!; try done; lia.
      * destruct Hres as (-> & Hres). split; [done|]. lia.
    + (* the read fails *)
      inversion Hrun; subst; clear Hrun.
      exists [], (ora_child_output os w),
        [EvReadFile (m_stdout_r p) (Z.min (available - total_read) 256) None].
      change (concat []) with (@nil Byte.byte).
      change (drain_events _ _ []) with (@nil Event).
      rewrite drop_0, blen_nil, pipe_bytes_add_event, pipe_bytes_arrive.
      split_and!; try done; try lia.
      * intros q Hq. cbn. by rewrite lookup_insert_ne.
      * by destruct (m_print_fn p).
      * right. split_and!; [|lia|by eexists]. repeat f_equal; lia.
Qed.
End DrainLoop.

Section WriteTurn.

Variable os : Oracle.

Lemma Write_loop_unfold fuel p data length total_written w :
  Write_loop os (S fuel) p data length total_written w =
  if total_written <? length then
    match Write_iter os p data length total_written w with
    | (Failed, w1) => (Some false, w1)
    | (Written total', w1) =>
        match ReadOutput os fuel p w1 with
        | (None, w2) => (None, w2)
        | (Some _, w2) => Write_loop os fuel p data length total' w2
        end
    end
  else (Some true, w).
Proof.
  cbn [Write_loop]. destruct (total_written <? length); [|done].
  unfold Write_iter, Write_await, request_count, wait_objects, bind.
  destruct (WriteFile _ _ _ _ _ _) as [ok w1].
  destruct ok.
  - cbn [ret negb]; cbv beta iota.
    destruct (WaitForMultipleObjects _ _ _ _ _) as [r w2].
    destruct (negb _); [done|].
    destruct (GetOverlappedResult _ _ _ _) as [[written|] w3]; [|done].
    cbn [ret]. destruct (ReadOutput _ _ _ _) as [[n|] w4]; done.
  - unfold GetLastError, SetLastError, modify, ask. cbn [ret negb]; cbv beta iota.
    destruct (negb (w_last_error w1 =? ERROR_IO_PENDING)); cbn [ret negb]; cbv beta iota; [done|].
    destruct (WaitForMultipleObjects _ _ _ _ _) as [r w2].
    destruct (negb _); [done|].
    destruct (GetOverlappedResult _ _ _ _) as [[written|] w3]; [|done].
    cbn [ret]. destruct (ReadOutput _ _ _ _) as [[n|] w4]; done.
Qed.

Lemma WriteFile_client h data off cnt w path :
  w_handles w !! h = Some (OPipeClient path) →
  WriteFile os h data off cnt w =
    let push m := set_transferred m
                    (set_pipes (insert path (pipe_bytes w path ++ read_buf data off m)) w) in
    match ora_write os w with
    | WrDone n =>
        (true, add_event (EvWriteFile h off cnt true) (push (Z.max 0 (Z.min n cnt))))
    | WrPending n =>
        (false, add_event (EvWriteFile h off cnt false)
                  (set_last_error ERROR_IO_PENDING (push (Z.max 0 (Z.min n cnt)))))
    | WrError e =>
        (false, add_event (EvWriteFile h off cnt false)
                  (set_last_error e (set_transferred 0 w)))
    end.
Proof.
  intros Hh. unfold WriteFile, bind, ask, pipe_push, modify, SetLastError, modify, log, ret.
  rewrite Hh. by destruct (ora_write os w).
Qed.

Lemma WriteFile_other h data off cnt w :
  (∀ path, w_handles w !! h ≠ Some (OPipeClient path)) →
  WriteFile os h data off cnt w =
    (false, add_event (EvWriteFile h off cnt false) (set_last_error ERROR_INVALID_HANDLE w)).
Proof.
  intros Hh. unfold WriteFile, bind, ask, SetLastError, modify, log, ret.
  destruct (w_handles w !! h) as [[]|] eqn:E; try reflexivity.
  exfalso. by eapply Hh.
Qed.

Lemma Write_await_eq p total w1 :
  Write_await os p total w1 =
    let r := ora_wait os w1 in
    let w2 := add_event (EvWaitForMultipleObjects (wait_objects p) false
                           (m_timeout_ms p) r) w1 in
    if r =? STATUS_WAIT_0 then
      if ora_overlapped os w2 && bool_decide (is_Some (w_handles w2 !! m_stdin_w p))
      then (Written (wrap32 (total + w_transferred w1)),
            add_event (EvGetOverlappedResult (m_stdin_w p) false
                         (Some (w_transferred w1))) w2)
      else (Failed, add_event (EvGetOverlappedResult (m_stdin_w p) false None) w2)
    else (Failed, w2).
Proof.
  unfold Write_await, WaitForMultipleObjects, GetOverlappedResult, bind, ask, log, ret.
  cbv zeta. destruct (ora_wait os w1 =? STATUS_WAIT_0); [|done].
  cbn [negb]. by destruct (ora_overlapped os _ && _).
Qed.

Lemma read_buf_0 data off : read_buf data off 0 = [].
Proof. reflexivity. Qed.

Lemma request_count_range length total : 0 ≤ request_count length total < DWORD_MAX.
Proof. apply wrap32_range. Qed.

(** What one turn does to the world, whatever the system answers. *)
Lemma Write_iter_spec p data length total w out w' :
  Write_iter os p data length total w = (out, w') →
  ∃ ok moved tail,
    w_trace w' = w_trace w
      ++ EvWriteFile (m_stdin_w p) total (request_count length total) ok :: tail ∧
    0 ≤ moved ≤ request_count length total ∧
    (∀ q, w_handles w !! m_stdin_w p = Some (OPipeClient q) →
          pipe_bytes w' q = pipe_bytes w q ++ read_buf data total moved) ∧
    (∀ q, w_handles w !! m_stdin_w p ≠ Some (OPipeClient q) →
          pipe_bytes w' q = pipe_bytes w q) ∧
    w_handles w' = w_handles w ∧ w_next w' = w_next w ∧
    w_pid w' = w_pid w ∧ w_sink w' = w_sink w ∧
    ((out = Failed ∧ ok = false ∧ tail = []) ∨
     (∃ r, r ≠ STATUS_WAIT_0 ∧ out = Failed ∧
        tail = [EvWaitForMultipleObjects (wait_objects p) false (m_timeout_ms p) r]) ∨
     (out = Failed ∧
        tail = [EvWaitForMultipleObjects (wait_objects p) false (m_timeout_ms p) STATUS_WAIT_0;
                EvGetOverlappedResult (m_stdin_w p) false None]) ∨
     (out = Written (wrap32 (total + moved)) ∧
        tail = [EvWaitForMultipleObjects (wait_objects p) false (m_timeout_ms p) STATUS_WAIT_0;
                EvGetOverlappedResult (m_stdin_w p) false (Some moved)])).
Proof.
  intros Hrun. pose proof (request_count_range length total) as Hc.
  unfold Write_iter in Hrun. unfold bind at 1 in Hrun.
  destruct (w_handles w !! m_stdin_w p) as [o|] eqn:Eh.
  2:{ rewrite WriteFile_other in Hrun by (intros; congruence).
      cbn in Hrun. inversion Hrun; subst; clear Hrun.
      exists false, 0, []. split_and!; try done; try lia.
      by left. }
  assert (Hawait : ∀ w1 ok moved,
    w_trace w1 = w_trace w
      ++ [EvWriteFile (m_stdin_w p) total (request_count length total) ok] →
    w_transferred w1 = moved →
    w_handles w1 = w_handles w →
    Write_await os p total w1 = (out, w') →
    ∃ tail,
      w_trace w' = w_trace w
        ++ EvWriteFile (m_stdin_w p) total (request_count length total) ok :: tail ∧
      (∀ q, pipe_bytes w' q = pipe_bytes w1 q) ∧
      w_handles w' = w_handles w1 ∧ w_next w' = w_next w1 ∧
      w_pid w' = w_pid w1 ∧ w_sink w' = w_sink w1 ∧
      ((∃ r, r ≠ STATUS_WAIT_0 ∧ out = Failed ∧
        tail = [EvWaitForMultipleObjects (wait_objects p) false (m_timeout_ms p) r]) ∨
       (out = Failed ∧
        tail = [EvWaitForMultipleObjects (wait_objects p) false (m_timeout_ms p) STATUS_WAIT_0;
                EvGetOverlappedResult (m_stdin_w p) false None]) ∨
       (out = Written (wrap32 (total + moved)) ∧
        tail = [EvWaitForMultipleObjects (wait_objects p) false (m_timeout_ms p) STATUS_WAIT_0;
                EvGetOverlappedResult (m_stdin_w p) false (Some moved)]))).
  { intros w1 ok moved Htr Hmv Hhd Haw.
    rewrite Write_await_eq in Haw. cbv zeta in Haw.
    destruct (Z.eqb_spec (ora_wait os w1) STATUS_WAIT_0) as [Er|Er].
    - rewrite Er in Haw.
      destruct (ora_overlapped os _ && _); inversion Haw; subst; clear Haw;
        eexists; (split; [cbn; rewrite Htr, <- !app_assoc; reflexivity|]);
        split_and!; try done; [right; right|right; left]; done.
    - inversion Haw; subst; clear Haw.
      eexists; (split; [cbn; rewrite Htr, <- !app_assoc; reflexivity|]).
      split_and!; try done. left. by eexists. }
  assert (Hother : (∀ path, w_handles w !! m_stdin_w p ≠ Some (OPipeClient path)) →
                   out = Failed ∧
                   w' = add_event (EvWriteFile (m_stdin_w p) total
                                     (request_count length total) false)
                          (set_last_error ERROR_INVALID_HANDLE w)).
  { intros Hno. rewrite WriteFile_other in Hrun by done.
    cbn in Hrun. by inversion Hrun. }
  destruct o as [| | |path|path];
    try (destruct Hother as [-> ->]; [intros; congruence|];
         exists false, 0, []; split_and!; try done; try lia; by left).
  clear Hother.
  rewrite (WriteFile_client _ _ _ _ _ path Eh) in Hrun. cbv zeta in Hrun.
  destruct (ora_write os w) as [n|n|e].
  - (* completed at once *)
    cbn [ret negb bind] in Hrun.
    eapply (Hawait _ true (Z.max 0 (Z.min n (request_count length total)))) in Hrun;
      [|done..].
    destruct Hrun as (tail & Htr & Hpb & Hhd & Hnx & Hpid & Hsk & Hout).
    exists true, (Z.max 0 (Z.min n (request_count length total))), tail.
    split; [done|]. split; [lia|].
    split. { intros q Hq. simplify_eq. rewrite Hpb. pipe_simpl. by rewrite lookup_insert_eq. }
    split. { intros q Hq. rewrite Hpb. pipe_simpl. rewrite lookup_insert_ne; [done|congruence]. }
    split_and!; try done. by right.
  - (* pending *)
    unfold GetLastError, SetLastError, ask, modify, bind at 1 2 3 in Hrun.
    cbn [ret negb bind w_last_error add_event set_last_error] in Hrun.
    change (ERROR_IO_PENDING =? ERROR_IO_PENDING) with true in Hrun.
    cbn [negb] in Hrun.
    eapply (Hawait _ false (Z.max 0 (Z.min n (request_count length total)))) in Hrun;
      [|done..].
    destruct Hrun as (tail & Htr & Hpb & Hhd & Hnx & Hpid & Hsk & Hout).
    exists false, (Z.max 0 (Z.min n (request_count length total))), tail.
    split; [done|]. split; [lia|].
    split. { intros q Hq. simplify_eq. rewrite Hpb. pipe_simpl. by rewrite lookup_insert_eq. }
    split. { intros q Hq. rewrite Hpb. pipe_simpl. rewrite lookup_insert_ne; [done|congruence]. }
    split_and!; try done. by right.
  - (* refused *)
    unfold GetLastError, SetLastError, ask, modify, bind at 1 2 3 in Hrun.
    cbn [ret negb bind w_last_error add_event set_last_error] in Hrun.
    destruct (e =? ERROR_IO_PENDING); cbn [negb] in Hrun.
    + eapply (Hawait _ false 0) in Hrun; [|done..].
      destruct Hrun as (tail & Htr & Hpb & Hhd & Hnx & Hpid & Hsk & Hout).
      exists false, 0, tail.
      split; [done|]. split; [lia|].
      split. { intros q Hq. rewrite Hpb, read_buf_0, app_nil_r. done. }
      split. { intros q Hq. by rewrite Hpb. }
      split_and!; try done. by right.
    + inversion Hrun; subst; clear Hrun.
      exists false, 0, []. split; [done|]. split; [lia|].
      split. { intros q Hq. by rewrite read_buf_0, app_nil_r. }
      split_and!; try done. by left.
Qed.
End WriteTurn.

Section DrainPass.

Variable os : Oracle.

(** One whole pass over a pipe whose read end the Session holds. *)
Lemma ReadOutput_server fuel p w r w' path :
  w_handles w !! m_stdout_r p = Some (OPipeServer path) →
  ReadOutput os fuel p w = (r, w') →
  let measured := pipe_bytes w path ++ ora_child_output os w in
  let available := wrap32 (blen measured) in
  if ora_peek os (arrive os path w) then
    ∃ chunks later tail,
      Forall (λ c, 1 ≤ blen c ≤ 256) chunks ∧
      blen (concat chunks) ≤ available ∧
      concat chunks = take (length (concat chunks)) measured ∧
      pipe_bytes w' path = drop (length (concat chunks)) measured ++ later ∧
      (∀ q, q ≠ path → w_pipes w' !! q = w_pipes w !! q) ∧
      same_kernel w w' ∧
      w_trace w' = w_trace w
        ++ EvPeekNamedPipe (m_stdout_r p) (Some available)
           :: drain_events (m_stdout_r p) (m_print_fn p) chunks ++ tail ∧
      w_sink w' = feed (m_print_fn p) chunks (w_sink w) ∧
      match r with
      | Some n =>
          n = blen (concat chunks) ∧
          (tail = [] ∧ n = available ∨
           tail = [EvReadFile (m_stdout_r p) (Z.min (available - n) 256) None]
           ∧ n < available ∧ ∃ wf, ora_read os wf = false)
      | None => tail = [] ∧ Z.of_nat fuel * 256 < available
      end
  else
    r = Some 0 ∧
    w' = add_event (EvPeekNamedPipe (m_stdout_r p) None) (arrive os path w).
Proof.
  intros Hh Hrun measured available.
  unfold ReadOutput, bind in Hrun.
  rewrite (PeekNamedPipe_server os _ _ path Hh) in Hrun. cbv zeta in Hrun.
  rewrite pipe_bytes_arrive in Hrun. fold measured available in Hrun.
  destruct (ora_peek os (arrive os path w)).
  2:{ by inversion Hrun. }
  pose proof (wrap32_range (blen measured)) as Hav.
  pose proof (wrap32_le (blen measured) (blen_nonneg _)) as Hle.
  fold available in Hav, Hle.
  eapply (ReadOutput_loop_spec os _ _ _ _ _ _ _ path) in Hrun; [|done|lia|lia|].
  2:{ rewrite pipe_bytes_add_event, pipe_bytes_arrive. fold measured. lia. }
  destruct Hrun as (chunks & later & tail & Hall & Hsum & Hcat & Hfin & Hoth & Hk & Htr & Hsk & Hres).
  rewrite pipe_bytes_add_event, pipe_bytes_arrive in Hcat, Hfin. fold measured in Hcat, Hfin.
  exists chunks, later, tail. split_and!; try done; try lia.
  - intros q Hq. rewrite Hoth by done. cbn. by rewrite lookup_insert_ne.
  - cbn [w_trace add_event arrive set_pipes] in Htr. rewrite Htr. by rewrite <- app_assoc.
  - destruct r as [n|]; [|destruct Hres; split; [done|lia]].
    destruct Hres as [-> Hres]. split; [lia|].
    rewrite Z.add_0_l in Hres. rewrite Z.add_0_l. done.
Qed.

Lemma ReadOutput_other fuel p w :
  (∀ path, w_handles w !! m_stdout_r p ≠ Some (OPipeServer path)) →
  ReadOutput os fuel p w
  = (Some 0, add_event (EvPeekNamedPipe (m_stdout_r p) None) w).
Proof.
  intros Hh. unfold ReadOutput, bind. by rewrite PeekNamedPipe_other.
Qed.

Lemma drain_events_are_drain h fn chunks :
  Forall (λ e, is_drain_event e = true) (drain_events h fn chunks).
Proof.
  induction chunks as [|c cs IH]; [constructor|].
  rewrite drain_events_cons. apply Forall_app. split; [|done].
  unfold drain_events. cbn. destruct fn; repeat constructor.
Qed.

Lemma drain_events_no_peek h fn chunks :
  filter (λ e, is_peek e = true) (drain_events h fn chunks) = [].
Proof.
  induction chunks as [|c cs IH]; [done|].
  rewrite drain_events_cons, filter_app, IH.
  unfold drain_events. cbn. by destruct fn.
Qed.

(** What a pass leaves alone, whatever handle the Session holds. *)
Lemma ReadOutput_frame fuel p w r w' :
  ReadOutput os fuel p w = (r, w') →
  same_kernel w w' ∧
  (∀ q, w_handles w !! m_stdout_r p ≠ Some (OPipeServer q) →
        pipe_bytes w' q = pipe_bytes w q) ∧
  (r = None → Z.of_nat fuel * 256 < DWORD_MAX) ∧
  ∃ pr evs, w_trace w' = w_trace w ++ EvPeekNamedPipe (m_stdout_r p) pr :: evs ∧
         Forall (λ e, is_drain_event e = true) evs ∧
         filter (λ e, is_peek e = true) evs = [].
Proof.
  intros Hrun.
  destruct (w_handles w !! m_stdout_r p) as [o|] eqn:Eh.
  2:{ rewrite ReadOutput_other in Hrun by (intros; congruence).
      inversion Hrun; subst. split_and!; try done.
      exists None, []. cbn. split_and!; try done. }
  destruct o as [| | |path|path];
    try (rewrite ReadOutput_other in Hrun by (intros; congruence);
         inversion Hrun; subst; split_and!; try done;
         exists None, []; cbn; split_and!; done).
  pose proof (ReadOutput_server _ _ _ _ _ path Eh Hrun) as Hs. cbv zeta in Hs.
  destruct (ora_peek os (arrive os path w)).
  - destruct Hs as (chunks & later & tail & Hall & Hsum & Hcat & Hfin & Hoth & Hk & Htr & Hsk & Hres).
    split; [done|]. split.
    { intros q Hq. unfold pipe_bytes. rewrite Hoth; [done|]. congruence. }
    split.
    { intros ->. destruct Hres as [_ Hres].
      pose proof (wrap32_range (blen (pipe_bytes w path ++ ora_child_output os w))). lia. }
    eexists _, _. split; [exact Htr|].
    split.
    + apply Forall_app. split; [apply drain_events_are_drain|].
      destruct r as [n|]; [destruct Hres as [_ [[-> _]|[-> _]]]|destruct Hres as [-> _]];
        repeat constructor.
    + rewrite filter_app, drain_events_no_peek.
      destruct r as [n|]; [destruct Hres as [_ [[-> _]|[-> _]]]|destruct Hres as [-> _]]; done.
  - destruct Hs as [-> ->]. split; [by repeat split|]. split.
    { intros q Hq. pipe_simpl. rewrite lookup_insert_ne; [done|congruence]. }
    split; [done|].
    exists None, []. by split_and!.
Qed.

End DrainPass.

Section WriteLoop.

Variable os : Oracle.

Lemma write_event_ok_weaken p length total total' e :
  total ≤ total' → write_event_ok p length total' e → write_event_ok p length total e.
Proof. destruct e; cbn; try done. intros ? (?&?&?&?). split_and!; try done; lia. Qed.

Lemma drain_is_write_ok p length total e :
  is_drain_event e = true → write_event_ok p length total e.
Proof. by destruct e. Qed.

Lemma read_buf_app data off a b :
  0 ≤ a → 0 ≤ b →
  read_buf data off (a + b) = read_buf data off a ++ read_buf data (off + a) b.
Proof. intros. unfold read_buf. by rewrite seqZ_app, fmap_app. Qed.

Lemma request_count_exact length total :
  0 ≤ total ≤ wrap32 length → request_count length total = wrap32 length - total.
Proof.
  intros. unfold request_count. apply wrap32_small.
  pose proof (wrap32_range length). lia.
Qed.

Lemma Write_loop_spec fuel : ∀ p data length total w r w',
  0 ≤ length → 0 ≤ total ≤ wrap32 length →
  Write_loop os fuel p data length total w = (r, w') →
  ∃ k evs,
    total ≤ k ≤ wrap32 length ∧
    (∀ q, w_handles w !! m_stdin_w p = Some (OPipeClient q) →
          w_handles w !! m_stdout_r p ≠ Some (OPipeServer q) →
          pipe_bytes w' q = pipe_bytes w q ++ read_buf data total (k - total)) ∧
    w_handles w' = w_handles w ∧ w_next w' = w_next w ∧ w_pid w' = w_pid w ∧
    (r = Some true → k = length) ∧
    w_trace w' = w_trace w ++ evs ∧
    Forall (write_event_ok p length total) evs ∧
    (r = Some false → ∃ evs' e, evs = evs' ++ [e] ∧ is_write_failure e = true).
Proof.
  assert (Hstop : ∀ p data length total w r,
    0 ≤ length → 0 ≤ total ≤ wrap32 length →
    (r = Some true → length ≤ total) → r ≠ Some false →
    ∃ k evs,
    total ≤ k ≤ wrap32 length ∧
    (∀ q, w_handles w !! m_stdin_w p = Some (OPipeClient q) →
          w_handles w !! m_stdout_r p ≠ Some (OPipeServer q) →
          pipe_bytes w q = pipe_bytes w q ++ read_buf data total (k - total)) ∧
    w_handles w = w_handles w ∧ w_next w = w_next w ∧ w_pid w = w_pid w ∧
    (r = Some true → k = length) ∧
    w_trace w = w_trace w ++ evs ∧
    Forall (write_event_ok p length total) evs ∧
    (r = Some false → ∃ evs' e, evs = evs' ++ [e] ∧ is_write_failure e = true)).
  { intros p data length total w r Hl Ht Htrue Hfalse. exists total, [].
    pose proof (wrap32_le length Hl).
    rewrite Z.sub_diag, read_buf_0.
    split_and!; try done; try lia.
    - intros q _ _. by rewrite app_nil_r.
    - intros E. specialize (Htrue E). lia.
    - by rewrite app_nil_r. }
  induction fuel as [|fuel IH]; intros p data length total w r w' Hl Ht Hrun.
  { cbn in Hrun. destruct (Z.ltb_spec total length); inversion Hrun; subst;
      apply Hstop; try done; intros; lia. }
  rewrite Write_loop_unfold in Hrun.
  destruct (Z.ltb_spec total length) as [Hlt|Hge].
  2:{ inversion Hrun; subst. apply Hstop; try done; intros; lia. }
  destruct (Write_iter os p data length total w) as [out w1] eqn:Eiter.
  apply Write_iter_spec in Eiter.
  destruct Eiter as (ok & moved & tail & Htr & Hmv & Hcl & Hncl & Hhd & Hnx & Hpid & Hsk & Hout).
  rewrite request_count_exact in Hmv by done.
  assert (Hfirst : write_event_ok p length total
            (EvWriteFile (m_stdin_w p) total (request_count length total) ok)).
  { cbn. split_and!; try done; lia. }
  assert (Hfail : out = Failed →
    ∃ evs' e, EvWriteFile (m_stdin_w p) total (request_count length total) ok :: tail
              = evs' ++ [e] ∧ is_write_failure e = true ∧
              Forall (write_event_ok p length total) tail).
  { intros ->. destruct Hout as [(_ & -> & ->)|[(r0 & Hr0 & _ & ->)|[(_ & ->)|(? & _)]]];
      [| | |done].
    - exists [], (EvWriteFile (m_stdin_w p) total (request_count length total) false).
      split_and!; try done.
    - eexists [_], _. split; [reflexivity|]. split.
      + cbn. by apply negb_true_iff, Z.eqb_neq.
      + by repeat constructor.
    - eexists [_; _], _. split; [reflexivity|]. split; [done|]. by repeat constructor. }
  destruct out as [|total'].
  - (* this turn fails *)
    inversion Hrun; subst; clear Hrun.
    destruct (Hfail eq_refl) as (evs' & e & Hev & He & Htl).
    exists (total + moved), (EvWriteFile (m_stdin_w p) total (request_count length total) ok :: tail).
    split; [lia|]. split.
    { intros q Hq _. rewrite (Hcl q Hq). do 2 f_equal. lia. }
    split_and!; try done.
    + by constructor.
    + intros _. by exists evs', e.
  - (* this turn moves [moved] bytes *)
    clear Hfail.
    destruct Hout as [(? & _)|[(? & _ & ? & _)|[(? & _)|(Hw & ->)]]]; try done.
    set (tail := [EvWaitForMultipleObjects (wait_objects p) false (m_timeout_ms p)
                    STATUS_WAIT_0;
                  EvGetOverlappedResult (m_stdin_w p) false (Some moved)]) in *.
    inversion Hw; subst total'; clear Hw.
    rewrite (wrap32_small (total + moved)) in Hrun by (pose proof (wrap32_range length); lia).
    destruct (ReadOutput os fuel p w1) as [dr w2] eqn:Edrain.
    apply ReadOutput_frame in Edrain.
    destruct Edrain as ((Hhd2 & Hnx2 & _ & _ & Hpid2) & Hpipes2 & _ & pr & evs2 & Htr2 & Hall2 & _).
    assert (Hpre : Forall (write_event_ok p length total)
              (EvWriteFile (m_stdin_w p) total (request_count length total) ok
                 :: tail ++ EvPeekNamedPipe (m_stdout_r p) pr :: evs2)).
    { constructor; [done|]. apply Forall_app. split.
      - by repeat constructor.
      - constructor; [done|]. eapply Forall_impl; [exact Hall2|].
        intros e. apply drain_is_write_ok. }
    destruct dr as [n|].
    + apply IH in Hrun; [|done|lia].
      destruct Hrun as (k & evs3 & Hk & Hpb & Hhd3 & Hnx3 & Hpid3 & Htrue & Htr3 & Hall3 & Hfalse).
      exists k, ((EvWriteFile (m_stdin_w p) total (request_count length total) ok
                   :: tail ++ EvPeekNamedPipe (m_stdout_r p) pr :: evs2) ++ evs3).
      split; [lia|]. split.
      { intros q Hq Hnq. rewrite Hpb by congruence.
        rewrite Hpipes2 by congruence. rewrite (Hcl q Hq), <- app_assoc. f_equal.
        replace (k - total) with (moved + (k - (total + moved))) by lia.
        apply eq_sym, read_buf_app; lia. }
      split; [congruence|]. split; [congruence|]. split; [congruence|].
      split; [done|]. split_and!.
      * rewrite Htr3, Htr2, Htr. cbn. by rewrite <- !app_assoc.
      * apply Forall_app. split; [done|].
        eapply Forall_impl; [exact Hall3|]. intros e. apply write_event_ok_weaken. lia.
      * intros E. destruct (Hfalse E) as (evs' & e & -> & He).
        eexists (_ ++ evs'), e. split; [|done]. by rewrite app_assoc.
    + inversion Hrun; subst; clear Hrun.
      exists (total + moved), (EvWriteFile (m_stdin_w p) total (request_count length total) ok
                   :: tail ++ EvPeekNamedPipe (m_stdout_r p) pr :: evs2).
      split; [lia|]. split.
      { intros q Hq Hnq. rewrite Hpipes2 by congruence. rewrite (Hcl q Hq).
        do 2 f_equal. lia. }
      split; [congruence|]. split; [congruence|]. split; [congruence|].
      split; [done|]. split_and!; [|done|done].
      rewrite Htr2, Htr. cbn. by rewrite <- !app_assoc.
Qed.

End WriteLoop.

Section CloseProofs.

Variable os : Oracle.

Lemma CloseHandle_eq h w :
  CloseHandle h w =
    let w1 := add_event (EvCloseHandle h) w in
    match w_handles w !! h with
    | Some obj =>
        (true, match obj with
               | OPipeServer path => set_pipes (delete path) (set_handles (delete h) w1)
               | _ => set_handles (delete h) w1
               end)
    | None => (false, set_last_error ERROR_INVALID_HANDLE w1)
    end.
Proof.
  unfold CloseHandle, bind, log, ask, modify, SetLastError, modify, ret. cbn.
  destruct (w_handles w !! h) as [[]|]; reflexivity.
Qed.

Lemma CloseHandle_effect h w :
  let w1 := snd (CloseHandle h w) in
  w_trace w1 = w_trace w ++ [EvCloseHandle h] ∧
  w_handles w1 = delete h (w_handles w) ∧
  w_next w1 = w_next w ∧ w_pid w1 = w_pid w ∧ w_sink w1 = w_sink w.
Proof.
  rewrite CloseHandle_eq. cbv zeta.
  destruct (w_handles w !! h) as [[]|] eqn:E; cbn; split_and!; try done.
  by rewrite delete_id.
Qed.

Lemma ReadOutput_returns fuel p w :
  drain_fuel ≤ Z.of_nat fuel → ∃ n, fst (ReadOutput os fuel p w) = Some n.
Proof.
  intros Hf. destruct (ReadOutput os fuel p w) as [r w'] eqn:E.
  apply ReadOutput_frame in E. destruct E as (_ & _ & Hnone & _).
  destruct r as [n|]; [by exists n|].
  specialize (Hnone eq_refl). unfold drain_fuel, DWORD_MAX in *. lia.
Qed.

Lemma Close_spec fuel p timeout_ms terminate w r w' :
  Close os fuel p timeout_ms terminate w = (r, w') →
  let child := hProcess (m_procinfo p) in
  let p' := set_m_stdin_w INVALID_HANDLE_VALUE p in
  let w1 := snd (CloseHandle (m_stdin_w p) w) in
  let result := ora_wait os w1 in
  let forced := negb (result =? STATUS_WAIT_0) && terminate in
  ∃ w2 dr,
    w_trace w2 = w_trace w
      ++ [EvCloseHandle (m_stdin_w p); EvWaitForSingleObject child timeout_ms result]
      ++ (if forced then [EvTerminateProcess child (-1)] else []) ∧
    w_handles w2 = delete (m_stdin_w p) (w_handles w) ∧
    w_next w2 = w_next w ∧
    ReadOutput os fuel p' w2 = (dr, w') ∧
    r = match dr with Some _ => Some p' | None => None end.
Proof.
  intros Hrun child p' w1 result forced.
  destruct (CloseHandle_effect (m_stdin_w p) w) as (Htr & Hhd & Hnx & _).
  fold w1 in Htr, Hhd, Hnx.
  unfold Close in Hrun. unfold bind at 1 in Hrun.
  rewrite (surjective_pairing (CloseHandle (m_stdin_w p) w)) in Hrun.
  fold w1 in Hrun.
  unfold bind at 1, WaitForSingleObject, bind, ask, log, ret in Hrun.
  fold result in Hrun. change (hProcess (m_procinfo (set_m_stdin_w _ p))) with child in Hrun.
  fold forced in Hrun. fold p' in Hrun.
  destruct forced.
  - unfold TerminateProcess, log in Hrun.
    match type of Hrun with
    | (let '(_, _) := ReadOutput _ _ _ ?w2 in _) = _ =>
        destruct (ReadOutput os fuel p' w2) as [dr w3] eqn:Ed; exists w2, dr
    end.
    destruct dr; inversion Hrun; subst;
      (split_and!; [pipe_simpl; rewrite Htr, <- !app_assoc; reflexivity|done..]).
  - match type of Hrun with
    | (let '(_, _) := ReadOutput _ _ _ ?w2 in _) = _ =>
        destruct (ReadOutput os fuel p' w2) as [dr w3] eqn:Ed; exists w2, dr
    end.
    destruct dr; inversion Hrun; subst;
      (split_and!; [pipe_simpl; rewrite Htr, <- !app_assoc; reflexivity|done..]).
Qed.

End CloseProofs.

(** ** The channel path is read back uniquely *)

Lemma hex_value_digit d : 0 ≤ d < 16 → hex_value (hex_digit d) = d.
Proof.
  intros Hd.
  assert (d = 0 ∨ d = 1 ∨ d = 2 ∨ d = 3 ∨ d = 4 ∨ d = 5 ∨ d = 6 ∨ d = 7 ∨ d = 8
          ∨ d = 9 ∨ d = 10 ∨ d = 11 ∨ d = 12 ∨ d = 13 ∨ d = 14 ∨ d = 15) as Hc by lia.
  repeat (destruct Hc as [->|Hc]; [reflexivity|]). by subst.
Qed.

Lemma hex_fixed_length width p : length (hex_fixed width p) = width.
Proof.
  revert p. induction width as [|n IH]; intros p; [done|].
  cbn [hex_fixed]. rewrite length_app, IH. cbn. lia.
Qed.

Lemma hex_decode_fixed width p :
  hex_decode (hex_fixed width p) = p mod 16 ^ Z.of_nat width.
Proof.
  revert p. induction width as [|n IH]; intros p.
  - cbn. by rewrite Z.mod_1_r.
  - cbn [hex_fixed]. unfold hex_decode in *. rewrite foldl_app. cbn [foldl].
    rewrite IH, hex_value_digit by (apply Z.mod_pos_bound; lia).
    rewrite Nat2Z.inj_succ, Z.pow_succ_r by lia.
    rewrite Z.rem_mul_r by lia. lia.
Qed.

Lemma show_pointer_inj a b :
  0 ≤ a < 2 ^ 64 → 0 ≤ b < 2 ^ 64 → show_pointer a = show_pointer b → a = b.
Proof.
  intros Ha Hb E. apply (f_equal hex_decode) in E.
  unfold show_pointer in E. rewrite !hex_decode_fixed in E.
  change (16 ^ Z.of_nat 16) with (2 ^ 64) in E.
  by rewrite !Z.mod_small in E.
Qed.

Lemma uint_digits_no_sep d :
  sep ∉ list_ascii_of_string (NilEmpty.string_of_uint d).
Proof.
  induction d; cbn; [apply not_elem_of_nil|..];
    (apply not_elem_of_cons; split; [done|assumption]).
Qed.

Lemma show_dword_no_sep n : sep ∉ show_dword n.
Proof. apply uint_digits_no_sep. Qed.

Lemma list_ascii_of_string_inj s1 s2 :
  list_ascii_of_string s1 = list_ascii_of_string s2 → s1 = s2.
Proof.
  intros E. apply (f_equal string_of_list_ascii) in E.
  by rewrite !string_of_list_ascii_of_string in E.
Qed.

Lemma show_dword_inj a b : 0 ≤ a → 0 ≤ b → show_dword a = show_dword b → a = b.
Proof.
  intros Ha Hb E. unfold show_dword in E.
  apply list_ascii_of_string_inj in E.
  assert (Some (N.to_uint (Z.to_N a)) = Some (N.to_uint (Z.to_N b))) as Hs.
  { rewrite <- !NilEmpty.usu. by rewrite E. }
  inversion Hs as [Hu]. apply Unsigned.to_uint_inj in Hu. lia.
Qed.

(** Two texts that agree up to their first separator agree on both sides of it. *)
Lemma split_at_sep (a1 a2 r1 r2 : list ascii) :
  sep ∉ a1 → sep ∉ a2 → a1 ++ sep :: r1 = a2 ++ sep :: r2 → a1 = a2 ∧ r1 = r2.
Proof.
  revert a2. induction a1 as [|c a1 IH]; intros [|c2 a2] H1 H2 E; cbn in E.
  - by inversion E.
  - inversion E; subst. exfalso. apply H2. by left.
  - inversion E; subst. exfalso. apply H1. by left.
  - inversion E; subst.
    destruct (IH a2) as [-> ->]; try done.
    + intros ?. apply H1. by right.
    + intros ?. apply H2. by right.
Qed.

Lemma full_name_inj pid1 a1 name1 pid2 a2 name2 :
  0 ≤ pid1 → 0 ≤ pid2 → 0 ≤ a1 < 2 ^ 64 → 0 ≤ a2 < 2 ^ 64 →
  full_name pid1 a1 name1 = full_name pid2 a2 name2 →
  pid1 = pid2 ∧ a1 = a2 ∧ name1 = name2.
Proof.
  intros Hp1 Hp2 Ha1 Ha2 E. unfold full_name in E.
  apply (f_equal list_ascii_of_string) in E.
  rewrite !list_ascii_of_string_of_list_ascii in E.
  unfold full_name_chars in E. apply app_inv_head in E.
  change (show_dword pid1 ++ sep :: (show_pointer a1 ++ [sep] ++ list_ascii_of_string name1)
          = show_dword pid2 ++ sep :: (show_pointer a2 ++ [sep] ++ list_ascii_of_string name2)) in E.
  apply split_at_sep in E; [|apply show_dword_no_sep..].
  destruct E as [Ed E]. apply show_dword_inj in Ed; [|done..].
  apply app_inj_1 in E; [|unfold show_pointer; by rewrite !hex_fixed_length].
  destruct E as [Eh E]. apply show_pointer_inj in Eh; [|done..].
  inversion E as [En]. apply list_ascii_of_string_inj in En. done.
Qed.

Section PairProofs.

Variable os : Oracle.

Lemma world_ok_fresh w : world_ok w → w_handles w !! w_next w = None.
Proof.
  intros [_ Hw]. destruct (w_handles w !! w_next w) eqn:E; [|done].
  apply Hw in E. lia.
Qed.

Lemma CreateNamedPipeA_eq path bs t w :
  CreateNamedPipeA os path bs t w =
    if ora_create os w && bool_decide (w_pipes w !! path = None)
    then (w_next w,
          add_event (EvCreateNamedPipe path bs t (w_next w))
            (set_next (w_next w + 4)
               (set_handles (insert (w_next w) (OPipeServer path))
                  (set_pipes (insert path []) w))))
    else (INVALID_HANDLE_VALUE,
          add_event (EvCreateNamedPipe path bs t INVALID_HANDLE_VALUE) w).
Proof.
  unfold CreateNamedPipeA, bind, ask, modify, alloc, log, ret.
  by destruct (ora_create os w && _).
Qed.

Lemma CreateFileA_eq path w :
  CreateFileA os path w =
    if ora_create os w && bool_decide (is_Some (w_pipes w !! path))
    then (w_next w,
          add_event (EvCreateFile path (w_next w))
            (set_next (w_next w + 4)
               (set_handles (insert (w_next w) (OPipeClient path)) w)))
    else (INVALID_HANDLE_VALUE, add_event (EvCreateFile path INVALID_HANDLE_VALUE) w).
Proof.
  unfold CreateFileA, bind, ask, modify, alloc, log, ret.
  by destruct (ora_create os w && _).
Qed.

Lemma CreatePipePair_spec name out_read_pipe cur_read cur_write bs t w ok r wr w' :
  world_ok w →
  CreatePipePair os name out_read_pipe cur_read cur_write bs t w = (ok, r, wr, w') →
  let path := full_name (w_pid w) out_read_pipe name in
  w_pid w' = w_pid w ∧ w_sink w' = w_sink w ∧
  if ok then
    r = w_next w ∧ wr = w_next w + 4 ∧ w_next w' = w_next w + 8 ∧
    w_handles w' = <[wr := OPipeClient path]> (<[r := OPipeServer path]> (w_handles w)) ∧
    w_pipes w' = <[path := []]> (w_pipes w) ∧
    w_trace w' = w_trace w ++ [EvCreateNamedPipe path bs t r; EvCreateFile path wr]
  else
    r = cur_read ∧ wr = cur_write ∧
    w_handles w' = w_handles w ∧ w_pipes w' = w_pipes w ∧
    (w_next w' = w_next w ∧
     w_trace w' = w_trace w ++ [EvCreateNamedPipe path bs t INVALID_HANDLE_VALUE]
     ∨
     w_next w' = w_next w + 4 ∧
     w_trace w' = w_trace w ++ [EvCreateNamedPipe path bs t (w_next w);
                                EvCreateFile path INVALID_HANDLE_VALUE;
                                EvCloseHandle (w_next w)]).
Proof.
  intros Hok Hrun path. pose proof (world_ok_fresh w Hok) as Hfresh.
  destruct Hok as [Hpos Hok].
  unfold CreatePipePair, GetCurrentProcessId in Hrun.
  unfold bind at 1, ask at 1 in Hrun. fold path in Hrun.
  unfold bind at 1 in Hrun. rewrite CreateNamedPipeA_eq in Hrun.
  destruct (ora_create os w && bool_decide (w_pipes w !! path = None)) eqn:E1.
  2:{ cbn in Hrun. inversion Hrun; subst. split_and!; try done. by left. }
  apply andb_true_iff in E1. destruct E1 as [_ Hnone]. apply bool_decide_eq_true in Hnone.
  destruct (Z.eqb_spec (w_next w) INVALID_HANDLE_VALUE) as [Ebad|_].
  { unfold INVALID_HANDLE_VALUE in Ebad. lia. }
  unfold bind at 1 in Hrun. rewrite CreateFileA_eq in Hrun.
  match type of Hrun with
  | context [ora_create os ?w1 && ?b] => destruct (ora_create os w1 && b) eqn:E2
  end.
  - pipe_simpl in Hrun.
    destruct (Z.eqb_spec (w_next w + 4) INVALID_HANDLE_VALUE) as [Ebad|_].
    { unfold INVALID_HANDLE_VALUE in Ebad. lia. }
    inversion Hrun; subst; clear Hrun. pipe_simpl.
    split_and!; try done; try lia.
    + by rewrite <- app_assoc.
  - pipe_simpl in Hrun.
    change (INVALID_HANDLE_VALUE =? INVALID_HANDLE_VALUE) with true in Hrun.
    cbv iota in Hrun. unfold bind in Hrun.
    rewrite CloseHandle_eq in Hrun. pipe_simpl in Hrun.
    rewrite lookup_insert_eq in Hrun.
    inversion Hrun; subst; clear Hrun. pipe_simpl.
    split_and!; try done.
    + by rewrite delete_insert_id.
    + by rewrite delete_insert_id.
    + right. split; [done|]. by rewrite <- !app_assoc.
Qed.
End PairProofs.

(** ** Closing handles *)

Lemma closes_app h a b : closes h (a ++ b) = (closes h a + closes h b)%nat.
Proof. unfold closes. by rewrite filter_app, length_app. Qed.

Lemma closes_nil h : closes h [] = 0%nat.
Proof. done. Qed.

Lemma closes_cons h e evs :
  closes h (e :: evs) = ((if is_close_of h e then 1 else 0) + closes h evs)%nat.
Proof.
  unfold closes. rewrite filter_cons.
  destruct (is_close_of h e); by case_decide.
Qed.

Lemma closes_drain h evs :
  Forall (λ e, is_drain_event e = true) evs → closes h evs = 0%nat.
Proof.
  induction 1 as [|e evs He _ IH]; [done|].
  rewrite closes_cons, IH. by destruct e.
Qed.

Lemma closes_write h p length total evs :
  Forall (write_event_ok p length total) evs → closes h evs = 0%nat.
Proof.
  induction 1 as [|e evs He _ IH]; [done|].
  rewrite closes_cons, IH. by destruct e.
Qed.

Lemma closes_map h (l : list HANDLE) :
  closes h (EvCloseHandle <$> l) = length (filter (λ h', h' = h) l).
Proof.
  induction l as [|a l IH]; [done|].
  rewrite fmap_cons, closes_cons, filter_cons. cbn [is_close_of].
  case_bool_decide; case_decide; try done; cbn; by rewrite IH.
Qed.

Lemma count_NoDup (h : HANDLE) l :
  NoDup l → length (filter (λ h', h' = h) l) = if decide (h ∈ l) then 1%nat else 0%nat.
Proof.
  induction 1 as [|a l Ha _ IH]; [done|].
  rewrite filter_cons. destruct (decide (a = h)) as [->|Hne].
  - cbn. rewrite IH. rewrite decide_False by done.
    rewrite decide_True; [done|]. by left.
  - rewrite IH. destruct (decide (h ∈ l)).
    + rewrite decide_True; [done|]. by right.
    + rewrite decide_False; [done|]. intros [?|?]%elem_of_cons; congruence.
Qed.

(** One loop of the destructor. *)
Lemma close_all_spec sentinel hs : ∀ w w',
  close_all sentinel hs w = (tt, w') →
  let closed := filter (λ h, h ≠ sentinel) hs in
  w_trace w' = w_trace w ++ (EvCloseHandle <$> closed) ∧
  w_handles w' = foldl (λ m h, delete h m) (w_handles w) closed ∧
  w_next w' = w_next w.
Proof.
  induction hs as [|h hs IH]; intros w w' Hrun; cbn in Hrun.
  - inversion Hrun; subst. cbn. by rewrite app_nil_r.
  - unfold bind at 1 in Hrun. cbv zeta. rewrite filter_cons.
    destruct (Z.eqb_spec h sentinel) as [->|Hne].
    + cbn in Hrun. apply IH in Hrun. by rewrite decide_False by (intros ?; done).
    + unfold bind at 1 in Hrun.
      rewrite (surjective_pairing (CloseHandle h w)) in Hrun. cbn [ret] in Hrun.
      apply IH in Hrun. cbv zeta in Hrun.
      destruct (CloseHandle_effect h w) as (Htr & Hhd & Hnx & _).
      destruct Hrun as (Htr' & Hhd' & Hnx').
      rewrite decide_True by done. cbn [fmap list_fmap foldl].
      rewrite Htr', Hhd', Hnx', Htr, Hhd, Hnx, <- app_assoc. done.
Qed.

Lemma lookup_foldl_delete (m : gmap Z Obj) (l : list Z) k :
  foldl (λ m h, delete h m) m l !! k = if decide (k ∈ l) then None else m !! k.
Proof.
  revert m. induction l as [|a l IH]; intros m; cbn [foldl].
  - rewrite decide_False; [done|]. apply not_elem_of_nil.
  - rewrite IH. destruct (decide (k ∈ l)).
    + rewrite decide_True; [done|]. by right.
    + destruct (decide (a = k)) as [->|Hne].
      * rewrite lookup_delete_eq. rewrite decide_True; [done|]. by left.
      * rewrite lookup_delete_ne by done.
        rewrite decide_False; [done|]. intros [?|?]%elem_of_cons; congruence.
Qed.

(** [Pipe::~Pipe] closes the handles the Session owns, each once, in the
    order of the two loops. *)
Lemma Pipe_destructor_spec p w w' :
  Pipe_destructor p w = (tt, w') →
  w_trace w' = w_trace w ++ (EvCloseHandle <$> owned_handles p) ∧
  w_handles w' = foldl (λ m h, delete h m) (w_handles w) (owned_handles p) ∧
  w_next w' = w_next w.
Proof.
  unfold Pipe_destructor. unfold bind. intros Hrun.
  destruct (close_all NULL _ w) as [[] w1] eqn:E1.
  apply close_all_spec in E1. apply close_all_spec in Hrun. cbv zeta in *.
  destruct E1 as (Htr1 & Hhd1 & Hnx1). destruct Hrun as (Htr2 & Hhd2 & Hnx2).
  unfold owned_handles, null_handles, invalid_handles.
  rewrite fmap_app, foldl_app, Htr2, Hhd2, Hnx2, Htr1, Hhd1, Hnx1, <- app_assoc. done.
Qed.

Section LifetimeProofs.

Variable os : Oracle.

Lemma fields_kept_refl p : fields_kept p p.
Proof. unfold fields_kept. split_and!; try done. by left. Qed.

Lemma fields_kept_trans p1 p2 p3 :
  fields_kept p1 p2 → fields_kept p2 p3 → fields_kept p1 p3.
Proof.
  unfold fields_kept. intros (?&?&?&?&?&Ha) (?&?&?&?&?&Hb).
  split_and!; try congruence. destruct Ha, Hb; [left|right|right|right]; congruence.
Qed.

Lemma Write_frame fuel p data length w r w' :
  Write os fuel p data length w = (r, w') →
  w_handles w' = w_handles w ∧ w_next w' = w_next w ∧
  ∃ evs, w_trace w' = w_trace w ++ evs ∧ ∀ h, closes h evs = 0%nat.
Proof.
  intros Hrun. destruct (Z.le_gt_cases 0 length) as [Hl|Hl].
  - unfold Write in Hrun. apply Write_loop_spec in Hrun; [|done|].
    2:{ pose proof (wrap32_range length). lia. }
    destruct Hrun as (k & evs & _ & _ & Hhd & Hnx & _ & _ & Htr & Hall & _).
    split_and!; try done. exists evs. split; [done|].
    intros h. by eapply closes_write.
  - assert (Write os fuel p data length w = (Some true, w)) as E.
    { unfold Write. destruct fuel; cbn; by destruct (Z.ltb_spec 0 length); [lia|]. }
    rewrite E in Hrun. inversion Hrun; subst. split_and!; try done.
    exists []. by rewrite app_nil_r.
Qed.

Lemma owned_after_close p :
  owned_handles p ≡ₚ
    (if decide (m_stdin_w p ≠ INVALID_HANDLE_VALUE) then [m_stdin_w p] else [])
    ++ owned_handles (set_m_stdin_w INVALID_HANDLE_VALUE p).
Proof.
  unfold owned_handles, invalid_handles, null_handles. cbn [set_m_stdin_w set_m_stdin
    m_procinfo m_event m_stdin_r m_stdin_w m_stdout_r m_stdout_w].
  set (N := filter _ [m_event p; _; _]).
  rewrite !filter_cons, filter_nil.
  rewrite (decide_False (P := INVALID_HANDLE_VALUE ≠ INVALID_HANDLE_VALUE)) by (intros ?; done).
  destruct (decide (m_stdin_w p ≠ INVALID_HANDLE_VALUE)); [|done].
  destruct (decide (m_stdin_r p ≠ INVALID_HANDLE_VALUE)); cbn [app].
  - rewrite (Permutation_middle N _ (m_stdin_w p)).
    apply Permutation_app_head, perm_swap.
  - symmetry. apply Permutation_middle.
Qed.

Lemma Close_frame fuel p timeout_ms terminate w p' w' :
  world_ok w → Pipe_inv p w →
  Close os fuel p timeout_ms terminate w = (Some p', w') →
  p' = set_m_stdin_w INVALID_HANDLE_VALUE p ∧
  world_ok w' ∧ Pipe_inv p' w' ∧
  w_handles w' = delete (m_stdin_w p) (w_handles w) ∧
  ∃ evs, w_trace w' = w_trace w ++ evs ∧
    ∀ h, closes h evs = if decide (m_stdin_w p = h) then 1%nat else 0%nat.
Proof.
  intros Hok [Hnd Hopen] Hrun. apply Close_spec in Hrun. cbv zeta in Hrun.
  destruct Hrun as (w2 & dr & Htr & Hhd & Hnx & Hdrain & Hr).
  destruct dr as [n|]; [|done]. inversion Hr; subst p'; clear Hr.
  apply ReadOutput_frame in Hdrain.
  destruct Hdrain as ((Hhd' & Hnx' & _) & _ & _ & pr & evs & Htr' & Hall & _).
  assert (Hh : w_handles w' = delete (m_stdin_w p) (w_handles w)) by congruence.
  pose proof (owned_after_close p) as Hperm.
  split; [done|]. split.
  { destruct Hok as [Hpos Hok]. split; [congruence|].
    intros h o. rewrite Hh, Hnx', Hnx. intros [_ E]%lookup_delete_Some. eauto. }
  split.
  { rewrite Hperm in Hnd. split.
    - by apply NoDup_app in Hnd as (_ & _ & ?).
    - intros h Hin. rewrite Hh.
      assert (h ∈ owned_handles p) as Hp by (rewrite Hperm; apply elem_of_app; by right).
      destruct (Hopen h Hp) as [o Ho]. exists o.
      apply lookup_delete_Some. split; [|done].
      intros <-. destruct (decide (m_stdin_w p ≠ INVALID_HANDLE_VALUE)) as [Hne|He].
      + apply NoDup_app in Hnd as (_ & Hnd & _). apply (Hnd (m_stdin_w p)); [by left|done].
      + apply dec_stable in He. apply Hok in Ho. rewrite He in Ho.
        unfold INVALID_HANDLE_VALUE in Ho. lia. }
  split; [done|].
  eexists. split.
  { rewrite Htr', Htr, <- !app_assoc. reflexivity. }
  intros h. rewrite !closes_app, !closes_cons, closes_nil. cbn [is_close_of].
  rewrite (closes_drain h evs Hall).
  assert (closes h (if negb (ora_wait os (CloseHandle (m_stdin_w p) w).2 =? STATUS_WAIT_0)
                       && terminate
                    then [EvTerminateProcess (hProcess (m_procinfo p)) (-1)] else []) = 0%nat)
    as ->.
  { by destruct (_ && _). }
  destruct (decide (m_stdin_w p = h)); case_bool_decide; done.
Qed.

Lemma world_ok_owned_valid p w h :
  world_ok w → Pipe_inv p w → h ∈ owned_handles p → h ≠ INVALID_HANDLE_VALUE.
Proof.
  intros [_ Hok] [_ Hopen] Hin. destruct (Hopen h Hin) as [o Ho].
  apply Hok in Ho. unfold INVALID_HANDLE_VALUE. lia.
Qed.

(** The whole life of a Session. *)
Lemma run_ops_lifetime fuel ops : ∀ p w p' w1 w2,
  world_ok w → Pipe_inv p w →
  run_ops os fuel ops p w = (Some p', w1) →
  Pipe_destructor p' w1 = (tt, w2) →
  fields_kept p p' ∧ world_ok w1 ∧ Pipe_inv p' w1 ∧
  (∀ h, w_handles w !! h = None → w_handles w2 !! h = None) ∧
  ∃ evs, w_trace w2 = w_trace w ++ evs ∧
    ∀ h, (h ∈ owned_handles p → closes h evs = 1%nat ∧ w_handles w2 !! h = None) ∧
         (h ∉ owned_handles p → h ≠ INVALID_HANDLE_VALUE → closes h evs = 0%nat).
Proof.
  induction ops as [|op ops IH]; intros p w p' w1 w2 Hok Hinv Hrun Hd.
  - cbn in Hrun. inversion Hrun; subst; clear Hrun.
    apply Pipe_destructor_spec in Hd. destruct Hd as (Htr & Hhd & _).
    split; [apply fields_kept_refl|]. split; [done|]. split; [done|]. split.
    { intros h Hn. rewrite Hhd, lookup_foldl_delete. by case_decide. }
    eexists. split; [exact Htr|]. intros h.
    rewrite closes_map, count_NoDup by apply Hinv.
    rewrite Hhd, lookup_foldl_delete. split.
    + intros Hin. by rewrite !decide_True.
    + intros Hnin _. by rewrite decide_False.
  - destruct op as [fn|data length|timeout_ms terminate]; cbn [run_ops] in Hrun.
    + (* SetPrintFunc *)
      eapply (IH (SetPrintFunc fn p)) in Hrun; [|done|done|done].
      destruct Hrun as (Hf & ? & ? & ? & ?). split_and!; try done.
    + (* Write *)
      unfold bind in Hrun.
      destruct (Write os fuel p data length w) as [r wa] eqn:Ew.
      destruct r as [b|]; [|done].
      apply Write_frame in Ew. destruct Ew as (Hhd & Hnx & evs & Htr & Hcl).
      assert (Hoka : world_ok wa).
      { destruct Hok as [? Hok]. split; [congruence|]. rewrite Hhd, Hnx. done. }
      assert (Hinva : Pipe_inv p wa).
      { destruct Hinv as [? Hopen]. split; [done|]. by rewrite Hhd. }
      destruct (IH _ _ _ _ _ Hoka Hinva Hrun Hd) as (Hf & Hok1 & Hinv1 & Hmono & evs' & Htr' & Hcl').
      split_and!; try done.
      { intros h. rewrite <- Hhd. apply Hmono. }
      exists (evs ++ evs'). split; [by rewrite Htr', Htr, <- app_assoc|].
      intros h. rewrite closes_app, Hcl. apply Hcl'.
    + (* Close *)
      unfold bind in Hrun.
      destruct (Close os fuel p timeout_ms terminate w) as [r wa] eqn:Ec.
      destruct r as [pa|]; [|done].
      apply Close_frame in Ec; [|done..].
      destruct Ec as (-> & Hoka & Hinva & Hhd & evs & Htr & Hcl).
      destruct (IH _ _ _ _ _ Hoka Hinva Hrun Hd) as (Hf & Hok1 & Hinv1 & Hmono & evs' & Htr' & Hcl').
      pose proof (owned_after_close p) as Hperm.
      split.
      { eapply fields_kept_trans; [|exact Hf]. unfold fields_kept. cbn.
        split_and!; try done. by right. }
      split; [done|]. split; [done|]. split.
      { intros h Hn. apply Hmono. rewrite Hhd.
        destruct (decide (m_stdin_w p = h)) as [->|?];
          [apply lookup_delete_eq|by rewrite lookup_delete_ne]. }
      exists (evs ++ evs'). split; [by rewrite Htr', Htr, <- app_assoc|].
      intros h. rewrite closes_app, Hcl. destruct (Hcl' h) as [Hin' Hout']. split.
      * intros Hin. rewrite Hperm in Hin. apply elem_of_app in Hin as [Hb|Hin].
        -- destruct (decide (m_stdin_w p ≠ INVALID_HANDLE_VALUE)) as [Hne|?];
             [|by apply elem_of_nil in Hb].
           apply list_elem_of_singleton in Hb as ->.
           rewrite decide_True by done.
           assert (m_stdin_w p ∉ owned_handles (set_m_stdin_w INVALID_HANDLE_VALUE p)) as Hnin.
           { destruct Hinv as [Hnd _]. rewrite Hperm in Hnd.
             rewrite ?decide_True in Hnd by done.
             apply NoDup_cons in Hnd as [? _]. done. }
           rewrite (Hout' Hnin Hne). split; [done|].
           apply Hmono. rewrite Hhd. apply lookup_delete_eq.
        -- destruct (Hin' Hin) as [-> ?]. split; [|done].
           rewrite decide_False; [done|]. intros <-.
           destruct Hinv as [Hnd _]. rewrite Hperm in Hnd.
           destruct (decide (m_stdin_w p ≠ INVALID_HANDLE_VALUE)) as [Hne|He].
           ++ apply NoDup_cons in Hnd as [? _]. done.
           ++ apply dec_stable in He.
              apply (world_ok_owned_valid _ _ _ Hoka Hinva) in Hin. done.
      * intros Hnin Hne.
        assert (h ∉ owned_handles (set_m_stdin_w INVALID_HANDLE_VALUE p)) as Hnin'.
        { intros ?. apply Hnin. rewrite Hperm. apply elem_of_app. by right. }
        rewrite (Hout' Hnin' Hne).
        rewrite decide_False; [done|]. intros <-.
        apply Hnin. rewrite Hperm, decide_True by done. by left.
Qed.
End LifetimeProofs.

(** ** Creation *)

Ltac owned_simpl :=
  unfold owned_handles, null_handles, invalid_handles;
  cbn [m_event m_procinfo hProcess hThread m_stdin_r m_stdin_w m_stdout_r m_stdout_w
       set_m_procinfo set_m_stdin set_m_stdin_w set_m_stdout set_m_event
       set_m_timeout_ms Pipe_new];
  rewrite !filter_cons, !filter_nil;
  repeat (case_decide; try (exfalso; unfold NULL, INVALID_HANDLE_VALUE in *; lia));
  cbn [app].

Section CreateProofs.

Variable os : Oracle.

Lemma CreateEventA_spec w h w' :
  CreateEventA os w = (h, w') →
  w_pid w' = w_pid w ∧ w_trace w' = w_trace w ++ [EvCreateEvent h] ∧
  (h = NULL ∧ w_handles w' = w_handles w ∧ w_next w' = w_next w ∨
   h = w_next w ∧ w_handles w' = <[h := OEvent]> (w_handles w) ∧
   w_next w' = w_next w + 4).
Proof.
  unfold CreateEventA, bind, ask, alloc, log, ret.
  destruct (ora_create os w); intros [= <- <-]; pipe_simpl; split_and!; try done.
  - by right.
  - by left.
Qed.

Lemma SetHandleInformation_spec h w ok w' :
  SetHandleInformation os h w = (ok, w') →
  w_pid w' = w_pid w ∧ w_handles w' = w_handles w ∧ w_next w' = w_next w ∧
  w_trace w' = w_trace w ++ [EvSetHandleInformation h ok].
Proof.
  unfold SetHandleInformation, bind, ask, log, ret. by intros [= <- <-].
Qed.

Lemma CreateProcessW_spec cmdline si pi w ok pi' w' :
  CreateProcessW os cmdline si pi w = (ok, pi', w') →
  w_pid w' = w_pid w ∧
  w_trace w' = w_trace w
    ++ [EvCreateProcess cmdline (hStdInput si) (hStdOutput si) (hStdError si) ok] ∧
  if ok then
    pi' = mkProcInfo (w_next w) (w_next w + 4) ∧
    w_handles w' = <[w_next w + 4 := OThread]> (<[w_next w := OProcess]> (w_handles w)) ∧
    w_next w' = w_next w + 8
  else pi' = pi ∧ w_handles w' = w_handles w ∧ w_next w' = w_next w.
Proof.
  unfold CreateProcessW, bind, ask, alloc, log, ret.
  destruct (ora_create os w); intros [= <- <- <-]; pipe_simpl; split_and!;
    try done; lia.
Qed.

Lemma destructor_restores p w wi w' :
  (∀ h, h ∈ owned_handles p → w_handles w !! h = None) →
  (∀ h, h ∉ owned_handles p → w_handles wi !! h = w_handles w !! h) →
  Pipe_destructor p wi = (tt, w') →
  w_handles w' = w_handles w ∧ w_next w' = w_next wi ∧
  w_trace w' = w_trace wi ++ (EvCloseHandle <$> owned_handles p).
Proof.
  intros Hfresh Hsame Hd. apply Pipe_destructor_spec in Hd.
  destruct Hd as (Htr & Hhd & Hnx). split_and!; try done.
  apply map_eq. intros h. rewrite Hhd, lookup_foldl_delete.
  case_decide; [by rewrite Hfresh|by apply Hsame].
Qed.

Lemma closes_create_within paths (l : list HANDLE) :
  Forall (creates_within paths) (EvCloseHandle <$> l).
Proof. induction l; cbn; by constructor. Qed.

Lemma world_ok_above w h : world_ok w → w_next w ≤ h → w_handles w !! h = None.
Proof.
  intros [_ Hok] Hh. destruct (w_handles w !! h) eqn:E; [|done].
  apply Hok in E. lia.
Qed.

Lemma Create_spec self ffmpeg_path ffmpeg_args timeout_ms w r w' :
  world_ok w →
  Create os self ffmpeg_path ffmpeg_args timeout_ms w = (r, w') →
  (∃ evs, w_trace w' = w_trace w ++ evs ∧
          Forall (creates_within (session_paths (w_pid w) self)) evs) ∧
  match r with
  | None => w_handles w' = w_handles w
  | Some p =>
      world_ok w' ∧ Pipe_inv p w' ∧
      m_timeout_ms p = timeout_ms ∧ m_print_fn p = Some DefaultPrintFunc ∧
      w_handles w' !! m_stdin_w p
        = Some (OPipeClient (full_name (w_pid w) (addr_m_stdin_r self) "stdin")) ∧
      w_handles w' !! m_stdout_r p
        = Some (OPipeServer (full_name (w_pid w) (addr_m_stdout_r self) "stdout")) ∧
      (∀ h, h ∉ owned_handles p → w_handles w' !! h = w_handles w !! h) ∧
      (∀ h, h ∈ owned_handles p → w_handles w !! h = None)
  end.
Proof.
  intros Hok Hrun. pose proof Hok as [Hpos Hrange].
  set (n := w_next w) in *.
  assert (Hfresh : ∀ h, n ≤ h → w_handles w !! h = None)
    by (intros; by apply world_ok_above).
  assert (Hfail : ∀ p wi evs wd,
    w_trace wi = w_trace w ++ evs →
    Forall (creates_within (session_paths (w_pid w) self)) evs →
    (∀ h, h ∈ owned_handles p → n ≤ h) →
    (∀ h, h ∉ owned_handles p → w_handles wi !! h = w_handles w !! h) →
    Pipe_destructor p wi = (tt, wd) →
    (∃ evs', w_trace wd = w_trace w ++ evs' ∧
             Forall (creates_within (session_paths (w_pid w) self)) evs') ∧
    w_handles wd = w_handles w).
  { intros p wi evs wd Htr Hall Hown Hsame Hd.
    apply destructor_restores with (w := w) in Hd; [|by intros; apply Hfresh, Hown|done].
    destruct Hd as (Hh & _ & Htrd). split; [|done].
    eexists. rewrite Htrd, Htr, <- app_assoc. split; [reflexivity|].
    apply Forall_app. split; [done|apply closes_create_within]. }
  unfold Create in Hrun. unfold bind, ret in Hrun.
  destruct (CreateEventA os w) as [ev w1] eqn:E1.
  apply CreateEventA_spec in E1.
  destruct E1 as (Hpid1 & Htr1 & [(-> & Hhd1 & Hnx1)|(-> & Hhd1 & Hnx1)]).
  { (* no event *)
    change (NULL =? NULL) with true in Hrun. cbv beta iota in Hrun.
    destruct (Pipe_destructor _ w1) as [[] wd] eqn:Ed. inversion Hrun; subst; clear Hrun.
    eapply Hfail in Ed; [exact Ed|exact Htr1|by repeat constructor| |].
    - intros h. owned_simpl. by intros ?%elem_of_nil.
    - intros h _. by rewrite Hhd1. }
  fold n in Hhd1, Hnx1, Htr1, Hrun.
  destruct (Z.eqb_spec n NULL) as [Hbad|_]; [unfold NULL in Hbad; lia|].
  assert (Hok1 : world_ok w1).
  { split; [lia|]. intros h o. rewrite Hhd1, Hnx1.
    intros [[<- _]|[_ E]]%lookup_insert_Some; [lia|]. apply Hrange in E. lia. }
  destruct (CreatePipePair os "stdout" _ _ _ _ _ w1) as [[[ok1 r1] wr1] w2] eqn:E2.
  apply (CreatePipePair_spec os _ _ _ _ _ _ _ _ _ _ _ Hok1) in E2. cbv zeta in E2.
  rewrite Hpid1 in E2. destruct E2 as (Hpid2 & _ & E2).
  set (pout := full_name (w_pid w) (addr_m_stdout_r self) "stdout") in *.
  set (pin := full_name (w_pid w) (addr_m_stdin_r self) "stdin") in *.
  assert (Hpout : pout ∈ session_paths (w_pid w) self) by apply list_elem_of_here.
  assert (Hpin : pin ∈ session_paths (w_pid w) self)
    by apply list_elem_of_further, list_elem_of_here.
  destruct ok1.
  2:{ (* no output channel *)
    destruct E2 as (-> & -> & Hhd2 & _ & Htr2).
    cbn [negb] in Hrun; cbv beta iota in Hrun.
    destruct (Pipe_destructor _ w2) as [[] wd] eqn:Ed. inversion Hrun; subst; clear Hrun.
    assert (∃ evs, w_trace w2 = w_trace w ++ evs ∧
                   Forall (creates_within (session_paths (w_pid w) self)) evs)
      as (evs & Htr & Hall).
    { destruct Htr2 as [[_ ->]|[_ ->]]; rewrite Htr1, <- app_assoc;
        eexists; (split; [reflexivity|]); by repeat constructor. }
    eapply Hfail in Ed; [exact Ed|exact Htr|exact Hall| |].
    - intros h. owned_simpl. intros ->%list_elem_of_singleton. lia.
    - intros h. owned_simpl. rewrite !not_elem_of_cons. intros (? & _).
      rewrite Hhd2, Hhd1. by rewrite lookup_insert_ne. }
  destruct E2 as (-> & -> & Hnx2 & Hhd2 & _ & Htr2).
  rewrite Hnx1 in *. rewrite Hhd1 in Hhd2. rewrite Htr1, <- app_assoc in Htr2. cbn [app] in Htr2.
  clear Hhd1 Htr1 Hok1 Hpid1.
  destruct (SetHandleInformation os _ w2) as [ok2 w3] eqn:E3.
  apply SetHandleInformation_spec in E3.
  destruct E3 as (Hpid3 & Hhd3 & Hnx3 & Htr3).
  rewrite Hpid2 in Hpid3. rewrite Hhd2 in Hhd3. rewrite Hnx2 in Hnx3.
  rewrite Htr2, <- app_assoc in Htr3. cbn [app] in Htr3.
  clear Hpid2 Hhd2 Hnx2 Htr2.
  destruct ok2; cbn [negb] in Hrun; cbv beta iota in Hrun.
  2:{ (* the read end of the output channel cannot be made private *)
    destruct (Pipe_destructor _ w3) as [[] wd] eqn:Ed. inversion Hrun; subst; clear Hrun.
    eapply Hfail in Ed; [exact Ed|exact Htr3|by repeat constructor| |].
    - intros h. owned_simpl. rewrite !elem_of_cons. intros [->|[->|[->|?%elem_of_nil]]]; [lia..|done].
    - intros h. owned_simpl. rewrite !not_elem_of_cons. intros (? & ? & ? & _).
      rewrite Hhd3. by rewrite !lookup_insert_ne by lia. }
  assert (Hok3 : world_ok w3).
  { split; [lia|]. intros h o. rewrite Hhd3, Hnx3.
    rewrite !lookup_insert_Some. intros [[<- _]|[_ [[<- _]|[_ [[<- _]|[_ E]]]]]]; try lia.
    apply Hrange in E. lia. }
  destruct (CreatePipePair os "stdin" _ _ _ _ _ w3) as [[[ok4 r4] wr4] w4] eqn:E4.
  apply (CreatePipePair_spec os _ _ _ _ _ _ _ _ _ _ _ Hok3) in E4. cbv zeta in E4.
  rewrite Hpid3 in E4. fold pin in E4. destruct E4 as (Hpid4 & _ & E4).
  destruct ok4; cbn [negb] in Hrun; cbv beta iota in Hrun.
  2:{ (* no input channel *)
    destruct E4 as (-> & -> & Hhd4 & _ & Htr4).
    destruct (Pipe_destructor _ w4) as [[] wd] eqn:Ed. inversion Hrun; subst; clear Hrun.
    assert (∃ evs, w_trace w4 = w_trace w ++ evs ∧
                   Forall (creates_within (session_paths (w_pid w) self)) evs)
      as (evs & Htr & Hall).
    { destruct Htr4 as [[_ ->]|[_ ->]]; rewrite Htr3, <- app_assoc;
        eexists; (split; [reflexivity|]); by repeat constructor. }
    eapply Hfail in Ed; [exact Ed|exact Htr|exact Hall| |].
    - intros h. owned_simpl. rewrite !elem_of_cons. intros [->|[->|[->|?%elem_of_nil]]]; [lia..|done].
    - intros h. owned_simpl. rewrite !not_elem_of_cons. intros (? & ? & ? & _).
      rewrite Hhd4, Hhd3. by rewrite !lookup_insert_ne by lia. }
  destruct E4 as (-> & -> & Hnx4 & Hhd4 & _ & Htr4).
  rewrite Hnx3 in *. rewrite Hhd3 in Hhd4. rewrite Htr3, <- app_assoc in Htr4. cbn [app] in Htr4.
  clear Hhd3 Htr3 Hok3 Hpid3 Hnx3.
  destruct (SetHandleInformation os _ w4) as [ok5 w5] eqn:E5.
  apply SetHandleInformation_spec in E5.
  destruct E5 as (Hpid5 & Hhd5 & Hnx5 & Htr5).
  rewrite Hpid4 in Hpid5. rewrite Hhd4 in Hhd5. rewrite Hnx4 in Hnx5.
  rewrite Htr4, <- app_assoc in Htr5. cbn [app] in Htr5.
  clear Hpid4 Hhd4 Hnx4 Htr4.
  destruct ok5; cbn [negb] in Hrun; cbv beta iota in Hrun.
  2:{ (* the write end of the input channel cannot be made private *)
    destruct (Pipe_destructor _ w5) as [[] wd] eqn:Ed. inversion Hrun; subst; clear Hrun.
    eapply Hfail in Ed; [exact Ed|exact Htr5|by repeat constructor| |].
    - intros h. owned_simpl. rewrite !elem_of_cons.
      intros [->|[->|[->|[->|[->|?%elem_of_nil]]]]]; [lia..|done].
    - intros h. owned_simpl. rewrite !not_elem_of_cons. intros (? & ? & ? & ? & ? & _).
      rewrite Hhd5. by rewrite !lookup_insert_ne by lia. }
  destruct (CreateProcessW os _ _ _ w5) as [[ok6 pi6] w6] eqn:E6.
  apply CreateProcessW_spec in E6. destruct E6 as (Hpid6 & Htr6 & E6).
  rewrite Htr5, <- app_assoc in Htr6. cbn [app] in Htr6.
  destruct ok6; cbn [negb] in Hrun; cbv beta iota in Hrun.
  2:{ (* the child cannot be started *)
    destruct E6 as (-> & Hhd6 & _).
    destruct (Pipe_destructor _ w6) as [[] wd] eqn:Ed. inversion Hrun; subst; clear Hrun.
    eapply Hfail in Ed; [exact Ed|exact Htr6|by repeat constructor| |].
    - intros h. owned_simpl. rewrite !elem_of_cons.
      intros [->|[->|[->|[->|[->|?%elem_of_nil]]]]]; [lia..|done].
    - intros h. owned_simpl. rewrite !not_elem_of_cons. intros (? & ? & ? & ? & ? & _).
      rewrite Hhd6, Hhd5. by rewrite !lookup_insert_ne by lia. }
  (* the Session is made *)
  destruct E6 as (-> & Hhd6 & Hnx6). rewrite Hhd5 in Hhd6. rewrite Hnx5 in *.
  inversion Hrun; subst r w'; clear Hrun.
  split. { eexists. split; [exact Htr6|]. by repeat constructor. }
  split.
  { split; [lia|]. intros h o. rewrite Hhd6, Hnx6. rewrite !lookup_insert_Some.
    intros [[<- _]|[_ [[<- _]|[_ [[<- _]|[_ [[<- _]|[_ [[<- _]|[_ [[<- _]|[_ [[<- _]|[_ E]]]]]]]]]]]]]];
      try lia. apply Hrange in E. lia. }
  split.
  { split.
    - owned_simpl.
      repeat (apply NoDup_cons; split;
              [rewrite ?not_elem_of_cons; split_and?; try lia; apply not_elem_of_nil|]).
      apply NoDup_nil_2.
    - intros h. owned_simpl. rewrite Hhd6, !elem_of_cons.
      intros [->|[->|[->|[->|[->|[->|[->|?%elem_of_nil]]]]]]]; [..|done];
        rewrite ?lookup_insert_ne by lia; by rewrite lookup_insert_eq. }
  split; [done|]. split; [done|]. split.
  { cbn. rewrite Hhd6. rewrite !lookup_insert_ne by lia. apply lookup_insert_eq. }
  split.
  { cbn. rewrite Hhd6. rewrite !lookup_insert_ne by lia. apply lookup_insert_eq. }
  split.
  { intros h. owned_simpl. rewrite !not_elem_of_cons. intros (? & ? & ? & ? & ? & ? & ? & _).
    rewrite Hhd6. by rewrite !lookup_insert_ne by lia. }
  intros h. owned_simpl. rewrite !elem_of_cons.
  intros [->|[->|[->|[->|[->|[->|[->|?%elem_of_nil]]]]]]]; [..|done]; apply Hfresh; lia.
Qed.

End CreateProofs.

Section MoreWrite.
Variable os : Oracle.

Lemma Write_iter_pending p data length total w path n :
  w_handles w !! m_stdin_w p = Some (OPipeClient path) →
  ora_write os w = WrPending n →
  Write_iter os p data length total w
  = Write_await os p total
      (set_last_error ERROR_SUCCESS
         (snd (WriteFile os (m_stdin_w p) data total (request_count length total) w))).
Proof.
  intros Hh Hp. unfold Write_iter. unfold bind at 1.
  rewrite (WriteFile_client os _ _ _ _ _ path Hh). cbv zeta. rewrite Hp.
  unfold GetLastError, SetLastError, ask, modify, bind. cbn [ret snd].
  pipe_simpl. reflexivity.
Qed.

Lemma Write_loop_trace_grows fuel : ∀ p data length total w r w',
  Write_loop os fuel p data length total w = (r, w') →
  ∃ evs, w_trace w' = w_trace w ++ evs.
Proof.
  induction fuel as [|fuel IH]; intros p data length total w r w' Hrun.
  { cbn in Hrun. exists []. rewrite app_nil_r.
    destruct (total <? length); by inversion Hrun. }
  rewrite Write_loop_unfold in Hrun.
  destruct (total <? length).
  2:{ exists []. rewrite app_nil_r. by inversion Hrun. }
  destruct (Write_iter os p data length total w) as [out w1] eqn:Eiter.
  apply Write_iter_spec in Eiter.
  destruct Eiter as (ok & moved & tail & Htr & _).
  destruct out as [|total'].
  { inversion Hrun; subst. eexists. exact Htr. }
  destruct (ReadOutput os fuel p w1) as [dr w2] eqn:Edrain.
  apply ReadOutput_frame in Edrain.
  destruct Edrain as (_ & _ & _ & pr & evs2 & Htr2 & _).
  destruct dr as [m|].
  - apply IH in Hrun. destruct Hrun as (evs3 & Htr3).
    eexists. rewrite Htr3, Htr2, Htr, <- !app_assoc. reflexivity.
  - inversion Hrun; subst. eexists. rewrite Htr2, Htr, <- !app_assoc. reflexivity.
Qed.

Lemma Write_false_cause fuel p data length w w' :
  Write os fuel p data length w = (Some false, w') →
  ∃ evs e, w_trace w' = w_trace w ++ evs ++ [e] ∧ is_write_failure e = true.
Proof.
  intros Hrun. destruct (Z.le_gt_cases 0 length) as [Hl|Hl].
  - unfold Write in Hrun. apply Write_loop_spec in Hrun; [|done|].
    2:{ pose proof (wrap32_range length). lia. }
    destruct Hrun as (k & evs & _ & _ & _ & _ & _ & _ & Htr & _ & Hfalse).
    destruct (Hfalse eq_refl) as (evs' & e & -> & He). by exists evs', e.
  - exfalso. unfold Write in Hrun.
    destruct fuel; cbn in Hrun; destruct (Z.ltb_spec 0 length); try lia; done.
Qed.

Lemma Close_returns fuel p timeout_ms terminate w :
  drain_fuel ≤ Z.of_nat fuel →
  ∃ w', Close os fuel p timeout_ms terminate w
        = (Some (set_m_stdin_w INVALID_HANDLE_VALUE p), w').
Proof.
  intros Hf. destruct (Close os fuel p timeout_ms terminate w) as [r w'] eqn:E.
  exists w'. pose proof (Close_spec os _ _ _ _ _ _ _ E) as Hs. cbv zeta in Hs.
  destruct Hs as (w2 & dr & _ & _ & _ & Hdrain & ->).
  destruct (ReadOutput_returns os fuel (set_m_stdin_w INVALID_HANDLE_VALUE p) w2 Hf) as [n Hn].
  rewrite Hdrain in Hn. cbn in Hn. by subst.
Qed.
End MoreWrite.

Lemma session_paths_NoDup pid1 self1 pid2 self2 :
  0 ≤ pid1 → 0 ≤ pid2 →
  0 ≤ self1 → self1 + sizeof_Pipe ≤ 2 ^ 64 →
  0 ≤ self2 → self2 + sizeof_Pipe ≤ 2 ^ 64 →
  (pid1 = pid2 → self1 + sizeof_Pipe ≤ self2 ∨ self2 + sizeof_Pipe ≤ self1) →
  NoDup (session_paths pid1 self1 ++ session_paths pid2 self2).
Proof.
  intros Hp1 Hp2 Hs1 Hs1' Hs2 Hs2' Halive.
  unfold session_paths, addr_m_stdout_r, addr_m_stdin_r, sizeof_Pipe in *.
  assert (Hne : ∀ pa a na pb b nb,
            0 ≤ pa → 0 ≤ pb → 0 ≤ a < 2 ^ 64 → 0 ≤ b < 2 ^ 64 →
            (pa = pb → a ≠ b) → full_name pa a na ≠ full_name pb b nb).
  { intros pa a na pb b nb ? ? ? ? Hd E.
    apply full_name_inj in E as (? & ? & _); [|done..]. by apply Hd. }
  cbn [app]. repeat apply NoDup_cons_2; try apply NoDup_nil_2;
    rewrite ?not_elem_of_cons; split_and?; try apply not_elem_of_nil;
    apply Hne; try lia; intros E; specialize (Halive E); lia.
Qed.

Section Termination.

Variable os : Oracle.

Lemma Write_loop_done fuel p data length total w :
  length ≤ total → Write_loop os fuel p data length total w = (Some true, w).
Proof. intros. destruct fuel; cbn; by destruct (Z.ltb_spec total length); [lia|]. Qed.

Lemma Write_iter_works p data length total w path :
  input_side_works os →
  w_handles w !! m_stdin_w p = Some (OPipeClient path) →
  0 ≤ total < wrap32 length →
  ∃ moved w1, 1 ≤ moved ≤ wrap32 length - total ∧
    Write_iter os p data length total w = (Written (total + moved), w1) ∧
    w_handles w1 = w_handles w.
Proof.
  intros (Hwrite & Hwait & Hres) Hh Ht.
  pose proof (wrap32_range length) as Hr.
  assert (Hc : request_count length total = wrap32 length - total)
    by (apply request_count_exact; lia).
  destruct (Hwrite w) as (n & Hn & Hrep).
  set (moved := Z.max 0 (Z.min n (request_count length total))).
  assert (Hm : 1 ≤ moved ≤ wrap32 length - total) by (unfold moved; rewrite Hc; lia).
  exists moved. destruct Hrep as [Hrep|Hrep].
  - unfold Write_iter. unfold bind at 1.
    rewrite (WriteFile_client os _ _ _ _ _ path Hh). cbv zeta. rewrite Hrep.
    fold moved. clearbody moved.
    unfold bind at 1. cbn [ret negb]. cbv beta iota.
    rewrite Write_await_eq. cbv zeta. rewrite Hwait, Hres. pipe_simpl.
    rewrite Hh. change (STATUS_WAIT_0 =? STATUS_WAIT_0) with true.
    rewrite bool_decide_true by done. cbn [andb].
    rewrite (wrap32_small (total + moved)) by lia.
    eexists. split_and!; [lia|lia|reflexivity|done].
  - rewrite (Write_iter_pending os p data length total w path n Hh Hrep).
    rewrite (WriteFile_client os _ _ _ _ _ path Hh). cbv zeta. rewrite Hrep.
    fold moved. clearbody moved. cbn [snd].
    rewrite Write_await_eq. cbv zeta. rewrite Hwait, Hres. pipe_simpl.
    rewrite Hh. change (STATUS_WAIT_0 =? STATUS_WAIT_0) with true.
    rewrite bool_decide_true by done. cbn [andb].
    rewrite (wrap32_small (total + moved)) by lia.
    eexists. split_and!; [lia|lia|reflexivity|done].
Qed.

(** When the input side works, a Write of fewer than 2^32 bytes returns
    success, given enough fuel. *)
Lemma Write_loop_completes p data length path (rem : nat) : ∀ fuel total w,
  input_side_works os →
  w_handles w !! m_stdin_w p = Some (OPipeClient path) →
  0 ≤ length < DWORD_MAX → 0 ≤ total ≤ length →
  length - total ≤ Z.of_nat rem →
  Z.of_nat rem + drain_fuel ≤ Z.of_nat fuel →
  ∃ w', Write_loop os fuel p data length total w = (Some true, w').
Proof.
  induction rem as [|rem IH]; intros fuel total w Hos Hh Hl Ht Hrem Hfuel.
  { exists w. apply Write_loop_done. lia. }
  destruct (Z.le_gt_cases length total) as [Hdone|Hmore].
  { exists w. by apply Write_loop_done. }
  destruct fuel as [|fuel]; [unfold drain_fuel in Hfuel; lia|].
  rewrite Write_loop_unfold. destruct (Z.ltb_spec total length); [|lia].
  assert (Hw : wrap32 length = length) by (apply wrap32_small; lia).
  destruct (Write_iter_works p data length total w path Hos Hh) as (moved & w1 & Hm & -> & Hhd1);
    [lia|].
  destruct (ReadOutput_returns os fuel p w1) as [m Hm']; [lia|].
  destruct (ReadOutput os fuel p w1) as [dr w2] eqn:Ed. cbn in Hm'. subst dr.
  apply ReadOutput_frame in Ed. destruct Ed as ((Hhd2 & _) & _).
  apply IH; try done; try lia. congruence.
Qed.

Lemma Write_completes fuel p data length w path :
  input_side_works os →
  w_handles w !! m_stdin_w p = Some (OPipeClient path) →
  0 ≤ length < DWORD_MAX →
  length + drain_fuel ≤ Z.of_nat fuel →
  ∃ w', Write os fuel p data length w = (Some true, w').
Proof.
  intros Hos Hh Hl Hf. unfold Write.
  apply (Write_loop_completes p data length path (Z.to_nat length)); try done; lia.
Qed.

(** A Write of 2^32 bytes or more never returns success. *)
Lemma Write_large_never_succeeds fuel p data length w r w' :
  DWORD_MAX ≤ length →
  Write os fuel p data length w = (r, w') → r ≠ Some true.
Proof.
  intros Hl Hrun. unfold Write in Hrun.
  pose proof (wrap32_range length) as Hr.
  apply Write_loop_spec in Hrun; [|unfold DWORD_MAX in *; lia|lia].
  destruct Hrun as (k & evs & Hk & _ & _ & _ & _ & Htrue & _).
  intros ->. specialize (Htrue eq_refl). lia.
Qed.

Lemma run_ops_others_untouched fuel ops : ∀ p w p' w1 w2,
  world_ok w → Pipe_inv p w →
  run_ops os fuel ops p w = (Some p', w1) →
  Pipe_destructor p' w1 = (tt, w2) →
  ∀ h, h ∉ owned_handles p → w_handles w2 !! h = w_handles w !! h.
Proof.
  induction ops as [|op ops IH]; intros p w p' w1 w2 Hok Hinv Hrun Hd h Hnin.
  - cbn in Hrun. inversion Hrun; subst; clear Hrun.
    apply Pipe_destructor_spec in Hd. destruct Hd as (_ & Hhd & _).
    rewrite Hhd, lookup_foldl_delete. by rewrite decide_False.
  - destruct op as [fn|data length|timeout_ms terminate]; cbn [run_ops] in Hrun.
    + by eapply (IH (SetPrintFunc fn p)).
    + unfold bind in Hrun.
      destruct (Write os fuel p data length w) as [r wa] eqn:Ew.
      destruct r as [b|]; [|done].
      apply Write_frame in Ew. destruct Ew as (Hhd & Hnx & _).
      rewrite <- Hhd. eapply IH; try done.
      * destruct Hok as [? Hok]. split; [congruence|]. by rewrite Hhd, Hnx.
      * destruct Hinv as [? Hopen]. split; [done|]. by rewrite Hhd.
    + unfold bind in Hrun.
      destruct (Close os fuel p timeout_ms terminate w) as [r wa] eqn:Ec.
      destruct r as [pa|]; [|done].
      apply Close_frame in Ec; [|done..].
      destruct Ec as (-> & Hoka & Hinva & Hhd & _).
      pose proof (owned_after_close p) as Hperm.
      assert (h ∉ owned_handles (set_m_stdin_w INVALID_HANDLE_VALUE p)) as Hnin'.
      { intros ?. apply Hnin. rewrite Hperm. apply elem_of_app. by right. }
      rewrite (IH _ _ _ _ _ Hoka Hinva Hrun Hd h Hnin'). rewrite Hhd.
      destruct (decide (m_stdin_w p = h)) as [<-|?]; [|by rewrite lookup_delete_ne].
      rewrite lookup_delete_eq.
      destruct (decide (m_stdin_w p ≠ INVALID_HANDLE_VALUE)) as [Hne|He].
      * exfalso. apply Hnin. rewrite Hperm. by left.
      * apply dec_stable in He. rewrite He. symmetry.
        destruct (w_handles w !! INVALID_HANDLE_VALUE) eqn:E; [|done].
        apply Hok in E. unfold INVALID_HANDLE_VALUE in E. lia.
Qed.

(** A Session that was made reads from one channel and writes to another. *)
Lemma session_paths_differ pid self :
  0 ≤ pid → 0 ≤ self → self + sizeof_Pipe ≤ 2 ^ 64 →
  full_name pid (addr_m_stdin_r self) "stdin"
  ≠ full_name pid (addr_m_stdout_r self) "stdout".
Proof.
  intros Hp Hs Hs' E. unfold addr_m_stdin_r, addr_m_stdout_r, sizeof_Pipe in *.
  apply full_name_inj in E as (_ & ? & _); lia.
Qed.

Lemma Create_failure_releases_all self ffmpeg_path ffmpeg_args timeout_ms w w' :
  world_ok w →
  Create os self ffmpeg_path ffmpeg_args timeout_ms w = (None, w') →
  w_handles w' = w_handles w.
Proof. intros Hok Hrun. by destruct (Create_spec os _ _ _ _ _ _ _ Hok Hrun) as [_ ?]. Qed.

(** A Session that was made satisfies what the statements about Write ask
    of its handles. *)
Lemma Create_channels self ffmpeg_path ffmpeg_args timeout_ms w p w' :
  world_ok w → 0 ≤ w_pid w → 0 ≤ self → self + sizeof_Pipe ≤ 2 ^ 64 →
  Create os self ffmpeg_path ffmpeg_args timeout_ms w = (Some p, w') →
  let pin := full_name (w_pid w) (addr_m_stdin_r self) "stdin" in
  w_handles w' !! m_stdin_w p = Some (OPipeClient pin) ∧
  w_handles w' !! m_stdout_r p ≠ Some (OPipeServer pin).
Proof.
  intros Hok Hpid Hs Hs' Hrun pin.
  destruct (Create_spec os _ _ _ _ _ _ _ Hok Hrun) as (_ & _ & _ & _ & _ & Hin & Hout & _).
  split; [done|]. rewrite Hout. intros E.
  apply (session_paths_differ (w_pid w) self); [done..|].
  fold pin. clearbody pin.
  set (pout := full_name _ _ "stdout") in *. clearbody pout. congruence.
Qed.
End Termination.

(** ** How the loop of Write goes on *)

Section Returns.
Variable os : Oracle.




(** The first call of a Write of one byte or more is a request for
    [(DWORD)length] bytes at the start of the buffer. *)
Lemma Write_first_request fuel p data length w :
  0 < length →
  ∃ ok rest,
    w_trace (snd (Write os (S fuel) p data length w))
    = w_trace w ++ EvWriteFile (m_stdin_w p) 0 (wrap32 length) ok :: rest.
Proof.
  intros Hl. unfold Write. rewrite Write_loop_unfold.
  destruct (Z.ltb_spec 0 length); [|lia].
  destruct (Write_iter os p data length 0 w) as [out w1] eqn:Eiter.
  apply Write_iter_spec in Eiter.
  destruct Eiter as (ok & moved & tail & Htr & _).
  assert (Hc : request_count length 0 = wrap32 length).
  { unfold request_count. rewrite Z.sub_0_r. apply wrap32_small, wrap32_range. }
  rewrite Hc in Htr. exists ok.
  destruct out as [|total'].
  { exists tail. done. }
  destruct (ReadOutput os fuel p w1) as [dr w2] eqn:Ed.
  apply ReadOutput_frame in Ed.
  destruct Ed as (_ & _ & _ & pr & evs2 & Htr2 & _).
  destruct dr as [m|].
  - destruct (Write_loop os fuel p data length total' w2) as [r w3] eqn:Eloop.
    apply Write_loop_trace_grows in Eloop. destruct Eloop as (evs3 & Htr3).
    eexists. cbn [snd]. rewrite Htr3, Htr2, Htr. rewrite <- ?app_assoc. cbn.
    rewrite <- ?app_assoc. reflexivity.
  - eexists. cbn [snd]. rewrite Htr2, Htr. rewrite <- ?app_assoc. cbn. reflexivity.
Qed.

End Returns.


Section Hang.
Variable os : Oracle.

Lemma Write_iter_goes_on p data length total w path :
  calls_succeed os →
  w_handles w !! m_stdin_w p = Some (OPipeClient path) →
  ∃ total' w1,
    Write_iter os p data length total w = (Written total', w1) ∧
    0 ≤ total' < DWORD_MAX ∧ w_handles w1 = w_handles w.
Proof.
  intros (Hwrite & Hwait & Hres) Hh.
  destruct (Hwrite w) as (n & [Hrep|Hrep]).
  - unfold Write_iter. unfold bind at 1.
    rewrite (WriteFile_client os _ _ _ _ _ path Hh). cbv zeta. rewrite Hrep.
    unfold bind at 1. cbn [ret negb]. cbv beta iota.
    rewrite Write_await_eq. cbv zeta. rewrite Hwait, Hres. pipe_simpl.
    rewrite Hh. change (STATUS_WAIT_0 =? STATUS_WAIT_0) with true.
    rewrite bool_decide_true by done. cbn [andb].
    eexists _, _. split_and!; [reflexivity|apply wrap32_range..|done].
  - rewrite (Write_iter_pending os p data length total w path n Hh Hrep).
    rewrite (WriteFile_client os _ _ _ _ _ path Hh). cbv zeta. rewrite Hrep. cbn [snd].
    rewrite Write_await_eq. cbv zeta. rewrite Hwait, Hres. pipe_simpl.
    rewrite Hh. change (STATUS_WAIT_0 =? STATUS_WAIT_0) with true.
    rewrite bool_decide_true by done. cbn [andb].
    eexists _, _. split_and!; [reflexivity|apply wrap32_range..|done].
Qed.

Lemma Write_loop_spins p data length path fuel : ∀ total w,
  calls_succeed os →
  w_handles w !! m_stdin_w p = Some (OPipeClient path) →
  DWORD_MAX ≤ length → 0 ≤ total < DWORD_MAX →
  fst (Write_loop os fuel p data length total w) = None.
Proof.
  induction fuel as [|fuel IH]; intros total w Hos Hh Hl Ht.
  { cbn. by destruct (Z.ltb_spec total length); [|lia]. }
  rewrite Write_loop_unfold. destruct (Z.ltb_spec total length); [|lia].
  destruct (Write_iter_goes_on p data length total w path Hos Hh)
    as (total' & w1 & -> & Ht' & Hhd1).
  destruct (ReadOutput os fuel p w1) as [dr w2] eqn:Ed.
  apply ReadOutput_frame in Ed. destruct Ed as ((Hhd2 & _) & _).
  destruct dr; [|done]. apply IH; try done. congruence.
Qed.

End Hang.

Lemma calls_succeed_demo : calls_succeed os_demo.
Proof. split_and!; try done. intros w. exists 4. by left. Qed.

(** ** The sample Session *)

Lemma init_world_ok : world_ok w_init.
Proof.
  split; [by vm_compute|]. intros h o Hl.
  change (w_handles w_init) with (∅ : gmap Z Obj) in Hl. by rewrite lookup_empty in Hl.
Qed.

Lemma demo_created_eq :
  Create os_demo 4096 "ffmpeg" "-i - out.mp4" 1000 w_init = (Some demo_p, demo_w).
Proof. vm_compute. reflexivity. Qed.

Lemma demo_world_ok : world_ok demo_w.
Proof.
  by destruct (Create_spec _ _ _ _ _ _ _ _ init_world_ok demo_created_eq) as (_ & ? & _).
Qed.

Lemma demo_Pipe_inv : Pipe_inv demo_p demo_w.
Proof.
  by destruct (Create_spec _ _ _ _ _ _ _ _ init_world_ok demo_created_eq) as (_ & _ & ? & _).
Qed.

(** * The claims *)




Example demo_write_succeeds :
  fst (Write os_demo 5 demo_p demo_data 10 demo_w) = Some true ∧
  pipe_bytes (snd (Write os_demo 5 demo_p demo_data 10 demo_w)) demo_stdin
  = read_buf demo_data 0 10.
Proof. split; vm_compute; reflexivity. Qed.

(** C2: in any turn of the loop of Write where the write is left pending,
    the next call is a wait for either of the completion event and the child
    process, bounded by the Session's timeout; when that wait returns anything
    but the completion (a timeout, the child's end, an error), or when the
    result of the write cannot be fetched, Write returns failure and makes no
    further call. *)
Theorem Write_waits_then_fails os fuel p data length total w path n :
  total < length →
  w_handles w !! m_stdin_w p = Some (OPipeClient path) →
  ora_write os w = WrPending n →
  let request := EvWriteFile (m_stdin_w p) total (request_count length total) false in
  let issued := set_last_error ERROR_SUCCESS
      (snd (WriteFile os (m_stdin_w p) data total (request_count length total) w)) in
  let answer := ora_wait os issued in
  let waited := add_event
      (EvWaitForMultipleObjects [m_event p; hProcess (m_procinfo p)] false
         (m_timeout_ms p) answer) issued in
  w_trace issued = w_trace w ++ [request] ∧
  (∀ r w', Write_loop os (S fuel) p data length total w = (r, w') →
           ∃ evs, w_trace w' = w_trace waited ++ evs) ∧
  (answer ≠ STATUS_WAIT_0 →
   Write_loop os (S fuel) p data length total w = (Some false, waited)) ∧
  (answer = STATUS_WAIT_0 → ora_overlapped os waited = false →
   Write_loop os (S fuel) p data length total w
   = (Some false, add_event (EvGetOverlappedResult (m_stdin_w p) false None) waited)).
Proof.
  intros Hlt Hh Hp request issued answer waited.
  assert (Hiter : Write_iter os p data length total w = Write_await os p total issued)
    by (by eapply Write_iter_pending).
  assert (Hloop : Write_loop os (S fuel) p data length total w =
    match Write_await os p total issued with
    | (Failed, w1) => (Some false, w1)
    | (Written total', w1) =>
        match ReadOutput os fuel p w1 with
        | (None, w2) => (None, w2)
        | (Some _, w2) => Write_loop os fuel p data length total' w2
        end
    end).
  { rewrite Write_loop_unfold, Hiter. by destruct (Z.ltb_spec total length); [|lia]. }
  rewrite Write_await_eq in Hloop. cbv zeta in Hloop.
  fold answer in Hloop. change (wait_objects p) with [m_event p; hProcess (m_procinfo p)] in Hloop.
  fold waited in Hloop.
  split.
  { unfold issued. rewrite (WriteFile_client os _ _ _ _ _ path Hh). cbv zeta. by rewrite Hp. }
  split.
  { intros r w' Hrun. rewrite Hloop in Hrun.
    destruct (answer =? STATUS_WAIT_0).
    - destruct (ora_overlapped os waited && _).
      + destruct (ReadOutput os fuel p _) as [dr w2] eqn:Edrain.
        apply ReadOutput_frame in Edrain.
        destruct Edrain as (_ & _ & _ & pr & evs2 & Htr2 & _).
        destruct dr as [m|].
        * apply Write_loop_trace_grows in Hrun. destruct Hrun as (evs3 & Htr3).
          eexists. rewrite Htr3, Htr2. cbn. rewrite <- !app_assoc. reflexivity.
        * inversion Hrun; subst. eexists. rewrite Htr2. cbn.
          rewrite <- !app_assoc. reflexivity.
      + inversion Hrun; subst. by eexists.
    - inversion Hrun; subst. exists []. by rewrite app_nil_r. }
  split.
  { intros Hne. rewrite Hloop. by destruct (Z.eqb_spec answer STATUS_WAIT_0). }
  { intros He Hov. rewrite Hloop. destruct (Z.eqb_spec answer STATUS_WAIT_0); [|done].
    by rewrite Hov. }
Qed.

Lemma Write_waits_then_fails_witness :
  let issued := set_last_error ERROR_SUCCESS
      (snd (WriteFile os_stall (m_stdin_w demo_p) demo_data 0 (request_count 10 0) demo_w)) in
  let waited := add_event
      (EvWaitForMultipleObjects [m_event demo_p; hProcess (m_procinfo demo_p)] false
         (m_timeout_ms demo_p) WAIT_TIMEOUT) issued in
  Write_loop os_stall 1 demo_p demo_data 10 0 demo_w = (Some false, waited).
Proof.
  apply (Write_waits_then_fails os_stall 0 demo_p demo_data 10 0 demo_w demo_stdin 0).
  - lia.
  - vm_compute. reflexivity.
  - reflexivity.
  - vm_compute. discriminate.
Defined.



(** C4, as stated, fails: [Close] leaves every resource but the write end
    of the input channel open. *)
Lemma Close_leaves_resources_open : ¬ Close_releases_all.
Proof.
  intros Hall.
  specialize (Hall os_demo 2%nat demo_p INFINITE true demo_w
                (set_m_stdin_w INVALID_HANDLE_VALUE demo_p)
                (snd (Close os_demo 2 demo_p INFINITE true demo_w))
                demo_world_ok demo_Pipe_inv).
  specialize (Hall ltac:(vm_compute; reflexivity) (m_stdout_r demo_p)).
  assert (m_stdout_r demo_p ∈ owned_handles demo_p) as Hin.
  { vm_compute. do 5 apply list_elem_of_further. apply list_elem_of_here. }
  specialize (Hall Hin). vm_compute in Hall. discriminate.
Qed.

(** C4 (amended): every resource field of a Session is at all times an open
    handle of its own or its sentinel; Close releases the write end of the
    input channel, and nothing else, and sets its sentinel at once, so no
    field goes back to valid and nothing is released twice; the destructor
    releases every resource still owned exactly once. From creation to
    destruction each resource of a Session is closed exactly once, no other
    handle is touched, and the handle table ends as it began. *)
Theorem Session_resources_released_once os self exe args timeout fuel ops
    w p w0 p' w1 w2 :
  world_ok w →
  Create os self exe args timeout w = (Some p, w0) →
  run_ops os fuel ops p w0 = (Some p', w1) →
  Pipe_destructor p' w1 = (tt, w2) →
  Pipe_inv p w0 ∧ fields_kept p p' ∧ Pipe_inv p' w1 ∧
  (∀ timeout_ms terminate pc wc,
     Close os fuel p' timeout_ms terminate w1 = (Some pc, wc) →
     pc = set_m_stdin_w INVALID_HANDLE_VALUE p' ∧ Pipe_inv pc wc ∧
     w_handles wc = delete (m_stdin_w p') (w_handles w1)) ∧
  (∃ evs, w_trace w2 = w_trace w0 ++ evs ∧
     ∀ h, (h ∈ owned_handles p → closes h evs = 1%nat ∧ w_handles w2 !! h = None) ∧
          (h ∉ owned_handles p → h ≠ INVALID_HANDLE_VALUE → closes h evs = 0%nat)) ∧
  w_handles w2 = w_handles w.
Proof.
  intros Hok Hc Hrun Hd.
  destruct (Create_spec os _ _ _ _ _ _ _ Hok Hc)
    as (_ & Hok0 & Hinv & _ & _ & _ & _ & Hsame & Hfresh).
  destruct (run_ops_lifetime os fuel ops p w0 p' w1 w2 Hok0 Hinv Hrun Hd)
    as (Hf & Hok1 & Hinv1 & _ & Hevs).
  split_and!; try done.
  - intros timeout_ms terminate pc wc Hcl.
    destruct (Close_frame os _ _ _ _ _ _ _ Hok1 Hinv1 Hcl) as (? & _ & ? & ? & _). done.
  - apply map_eq. intros h. destruct (decide (h ∈ owned_handles p)) as [Hin|Hnin].
    + destruct Hevs as (evs & _ & Hall). destruct (Hall h) as [Hcl _].
      destruct (Hcl Hin) as [_ Hgone].
      transitivity (@None Obj); [exact Hgone|]. symmetry. by apply Hfresh.
    + transitivity (w_handles w0 !! h); [|by apply Hsame].
      exact (run_ops_others_untouched os fuel ops p w0 p' w1 w2 Hok0 Hinv Hrun Hd h Hnin).
Qed.

Lemma Session_resources_released_once_witness :
  let life := run_ops os_demo 5 demo_ops demo_p demo_w in
  let p' := default Pipe_new (fst life) in
  let w2 := snd (Pipe_destructor p' (snd life)) in
  (∃ evs, w_trace w2 = w_trace demo_w ++ evs ∧
     ∀ h, (h ∈ owned_handles demo_p →
           closes h evs = 1%nat ∧ w_handles w2 !! h = None) ∧
          (h ∉ owned_handles demo_p → h ≠ INVALID_HANDLE_VALUE →
           closes h evs = 0%nat)) ∧
  w_handles w2 = w_handles w_init.
Proof.
  intros life p' w2.
  apply (Session_resources_released_once os_demo 4096 "ffmpeg" "-i - out.mp4" 1000
           5 demo_ops w_init demo_p demo_w p' (snd life) w2).
  - exact init_world_ok.
  - vm_compute. reflexivity.
  - vm_compute. reflexivity.
  - vm_compute. reflexivity.
Defined.

(** C5: a drain pass first measures the bytes buffered in the output
    channel and takes none out; it then reads that many bytes in chunks of at
    most 256, handing each chunk to the sink right after reading it, until the
    measured amount is read or a read fails; it returns the number of bytes
    read. A failed read only shortens the pass: Write fails only on a failed
    write, wait or result retrieval, and Close returns normally. *)
Theorem ReadOutput_drain_pass os fuel p w r w' path :
  w_handles w !! m_stdout_r p = Some (OPipeServer path) →
  ReadOutput os fuel p w = (r, w') →
  let measured := pipe_bytes w path ++ ora_child_output os w in
  let available := wrap32 (blen measured) in
  (if ora_peek os (arrive os path w) then
     ∃ chunks later tail,
       Forall (λ c, 1 ≤ blen c ≤ 256) chunks ∧
       blen (concat chunks) ≤ available ∧
       concat chunks = take (length (concat chunks)) measured ∧
       pipe_bytes w' path = drop (length (concat chunks)) measured ++ later ∧
       w_trace w' = w_trace w
         ++ EvPeekNamedPipe (m_stdout_r p) (Some available)
            :: drain_events (m_stdout_r p) (m_print_fn p) chunks ++ tail ∧
       w_sink w' = feed (m_print_fn p) chunks (w_sink w) ∧
       match r with
       | Some n =>
           n = blen (concat chunks) ∧
           (tail = [] ∧ n = available ∨
            tail = [EvReadFile (m_stdout_r p) (Z.min (available - n) 256) None]
            ∧ n < available ∧ ∃ wf, ora_read os wf = false)
       | None => tail = [] ∧ Z.of_nat fuel * 256 < available
       end
   else
     r = Some 0 ∧
     w' = add_event (EvPeekNamedPipe (m_stdout_r p) None) (arrive os path w)) ∧
  (∀ data length wa wa',
     Write os fuel p data length wa = (Some false, wa') →
     ∃ evs e, w_trace wa' = w_trace wa ++ evs ++ [e] ∧ is_write_failure e = true) ∧
  (∀ timeout_ms terminate wa,
     drain_fuel ≤ Z.of_nat fuel →
     ∃ wa', Close os fuel p timeout_ms terminate wa
            = (Some (set_m_stdin_w INVALID_HANDLE_VALUE p), wa')).
Proof.
  intros Hh Hrun measured available. split_and!.
  - pose proof (ReadOutput_server os _ _ _ _ _ path Hh Hrun) as Hs. cbv zeta in Hs.
    fold measured available in Hs.
    destruct (ora_peek os (arrive os path w)); [|done].
    destruct Hs as (chunks & later & tail & ? & ? & ? & ? & _ & _ & ? & ? & ?).
    by exists chunks, later, tail.
  - intros data length wa wa'. apply Write_false_cause.
  - intros timeout_ms terminate wa. apply Close_returns.
Qed.

Lemma ReadOutput_drain_pass_witness :
  let res := ReadOutput os_demo 2 demo_p demo_w in
  let measured := pipe_bytes demo_w demo_stdout ++ ora_child_output os_demo demo_w in
  let available := wrap32 (blen measured) in
  (if ora_peek os_demo (arrive os_demo demo_stdout demo_w) then
     ∃ chunks later tail,
       Forall (λ c, 1 ≤ blen c ≤ 256) chunks ∧
       blen (concat chunks) ≤ available ∧
       concat chunks = take (length (concat chunks)) measured ∧
       pipe_bytes (snd res) demo_stdout = drop (length (concat chunks)) measured ++ later ∧
       w_trace (snd res) = w_trace demo_w
         ++ EvPeekNamedPipe (m_stdout_r demo_p) (Some available)
            :: drain_events (m_stdout_r demo_p) (m_print_fn demo_p) chunks ++ tail ∧
       w_sink (snd res) = feed (m_print_fn demo_p) chunks (w_sink demo_w) ∧
       match fst res with
       | Some n =>
           n = blen (concat chunks) ∧
           (tail = [] ∧ n = available ∨
            tail = [EvReadFile (m_stdout_r demo_p) (Z.min (available - n) 256) None]
            ∧ n < available ∧ ∃ wf, ora_read os_demo wf = false)
       | None => tail = [] ∧ Z.of_nat 2 * 256 < available
       end
   else
     fst res = Some 0 ∧
     snd res = add_event (EvPeekNamedPipe (m_stdout_r demo_p) None)
                 (arrive os_demo demo_stdout demo_w)) ∧
  (∀ data length wa wa',
     Write os_demo 2 demo_p data length wa = (Some false, wa') →
     ∃ evs e, w_trace wa' = w_trace wa ++ evs ++ [e] ∧ is_write_failure e = true) ∧
  (∀ timeout_ms terminate wa,
     drain_fuel ≤ Z.of_nat 2 →
     ∃ wa', Close os_demo 2 demo_p timeout_ms terminate wa
            = (Some (set_m_stdin_w INVALID_HANDLE_VALUE demo_p), wa')).
Proof.
  apply (ReadOutput_drain_pass os_demo 2 demo_p demo_w).
  - vm_compute. reflexivity.
  - vm_compute. reflexivity.
Defined.

Example demo_drain_chunks :
  w_trace (snd (ReadOutput os_demo 2 demo_p demo_w)) = w_trace demo_w
    ++ EvPeekNamedPipe (m_stdout_r demo_p) (Some 300)
       :: drain_events (m_stdout_r demo_p) (m_print_fn demo_p)
            [replicate 256 Byte.x41; replicate 44 Byte.x41] ∧
  fst (ReadOutput os_demo 2 demo_p demo_w) = Some 300.
Proof. split; vm_compute; reflexivity. Qed.

(** C6: the channel paths made for two Sessions alive at the same time
    never collide: a path spells out the identifier of the creating process,
    the address of a field of the Session object and the channel name, and can
    be read back into them; two live objects of one process do not overlap. *)
Theorem channel_paths_never_collide os1 os2 self1 self2 exe1 args1 t1 exe2 args2 t2
    w1 w2 r1 r2 w1' w2' :
  world_ok w1 → world_ok w2 →
  0 ≤ w_pid w1 → 0 ≤ w_pid w2 →
  0 ≤ self1 → self1 + sizeof_Pipe ≤ 2 ^ 64 →
  0 ≤ self2 → self2 + sizeof_Pipe ≤ 2 ^ 64 →
  (w_pid w1 = w_pid w2 → self1 + sizeof_Pipe ≤ self2 ∨ self2 + sizeof_Pipe ≤ self1) →
  Create os1 self1 exe1 args1 t1 w1 = (r1, w1') →
  Create os2 self2 exe2 args2 t2 w2 = (r2, w2') →
  ∃ evs1 evs2,
    w_trace w1' = w_trace w1 ++ evs1 ∧ w_trace w2' = w_trace w2 ++ evs2 ∧
    ∀ q1 b1 m1 h1 q2 b2 m2 h2,
      EvCreateNamedPipe q1 b1 m1 h1 ∈ evs1 →
      EvCreateNamedPipe q2 b2 m2 h2 ∈ evs2 →
      q1 ≠ q2.
Proof.
  intros Hok1 Hok2 Hp1 Hp2 Hs1 Hs1' Hs2 Hs2' Halive Hc1 Hc2.
  destruct (Create_spec os1 _ _ _ _ _ _ _ Hok1 Hc1) as [(evs1 & Htr1 & Hall1) _].
  destruct (Create_spec os2 _ _ _ _ _ _ _ Hok2 Hc2) as [(evs2 & Htr2 & Hall2) _].
  exists evs1, evs2. split; [done|]. split; [done|].
  intros q1 b1 m1 h1 q2 b2 m2 h2 Hin1 Hin2 <-.
  rewrite Forall_forall in Hall1, Hall2.
  specialize (Hall1 _ Hin1). specialize (Hall2 _ Hin2). cbn in Hall1, Hall2.
  pose proof (session_paths_NoDup _ _ _ _ Hp1 Hp2 Hs1 Hs1' Hs2 Hs2' Halive) as Hnd.
  apply NoDup_app in Hnd as (_ & Hdis & _). by apply (Hdis q1).
Qed.

Lemma channel_paths_never_collide_witness :
  ∃ evs1 evs2,
    w_trace demo_w = w_trace w_init ++ evs1 ∧
    w_trace (snd (Create os_demo 8192 "ffmpeg" "-i - two.mp4" 1000 demo_w))
    = w_trace demo_w ++ evs2 ∧
    ∀ q1 b1 m1 h1 q2 b2 m2 h2,
      EvCreateNamedPipe q1 b1 m1 h1 ∈ evs1 →
      EvCreateNamedPipe q2 b2 m2 h2 ∈ evs2 →
      q1 ≠ q2.
Proof.
  apply (channel_paths_never_collide os_demo os_demo 4096 8192
           "ffmpeg" "-i - out.mp4" 1000 "ffmpeg" "-i - two.mp4" 1000
           w_init demo_w (fst demo_created)
           (fst (Create os_demo 8192 "ffmpeg" "-i - two.mp4" 1000 demo_w))).
  - exact init_world_ok.
  - exact demo_world_ok.
  - vm_compute. discriminate.
  - vm_compute. discriminate.
  - lia.
  - unfold sizeof_Pipe. lia.
  - lia.
  - unfold sizeof_Pipe. lia.
  - intros _. unfold sizeof_Pipe. lia.
  - vm_compute. reflexivity.
  - vm_compute. reflexivity.
Defined.

(** C7: when either end cannot be made, CreatePipePair returns failure,
    leaves both output cells as they were and leaves no handle or pipe
    behind: the read end it had made is closed first. Both cells are assigned
    only when both ends exist. *)
Theorem CreatePipePair_all_or_nothing os name out_read_pipe cur_read cur_write
    buffer_size timeout_ms w ok r wr w' :
  world_ok w →
  CreatePipePair os name out_read_pipe cur_read cur_write buffer_size timeout_ms w
  = (ok, r, wr, w') →
  let path := full_name (w_pid w) out_read_pipe name in
  if ok then
    w_handles w' !! r = Some (OPipeServer path) ∧
    w_handles w' !! wr = Some (OPipeClient path) ∧
    r ≠ INVALID_HANDLE_VALUE ∧ wr ≠ INVALID_HANDLE_VALUE ∧ r ≠ wr
  else
    r = cur_read ∧ wr = cur_write ∧
    w_handles w' = w_handles w ∧ w_pipes w' = w_pipes w ∧
    ∃ evs, w_trace w' = w_trace w ++ evs ∧
      (evs = [EvCreateNamedPipe path buffer_size timeout_ms INVALID_HANDLE_VALUE] ∨
       ∃ h, h ≠ INVALID_HANDLE_VALUE ∧
            evs = [EvCreateNamedPipe path buffer_size timeout_ms h;
                   EvCreateFile path INVALID_HANDLE_VALUE;
                   EvCloseHandle h]).
Proof.
  intros Hok Hrun path.
  pose proof (CreatePipePair_spec os _ _ _ _ _ _ _ _ _ _ _ Hok Hrun) as Hs.
  cbv zeta in Hs. fold path in Hs. destruct Hs as (_ & _ & Hs).
  destruct Hok as [Hpos _]. unfold INVALID_HANDLE_VALUE.
  destruct ok.
  - destruct Hs as (-> & -> & _ & Hhd & _). rewrite Hhd.
    split_and!; try lia.
    + rewrite lookup_insert_ne by lia. apply lookup_insert_eq.
    + apply lookup_insert_eq.
  - destruct Hs as (-> & -> & Hhd & Hp & [[_ Htr]|[_ Htr]]); split_and!; try done.
    + eexists. split; [exact Htr|]. by left.
    + eexists. split; [exact Htr|]. right. exists (w_next w). split; [lia|done].
Qed.

Lemma CreatePipePair_all_or_nothing_witness :
  let res := CreatePipePair os_half "stdout" (addr_m_stdout_r 4096)
               INVALID_HANDLE_VALUE INVALID_HANDLE_VALUE 16777216 1000 w_init in
  let path := full_name (w_pid w_init) (addr_m_stdout_r 4096) "stdout" in
  INVALID_HANDLE_VALUE = INVALID_HANDLE_VALUE ∧ INVALID_HANDLE_VALUE = INVALID_HANDLE_VALUE ∧
  w_handles (snd res) = w_handles w_init ∧ w_pipes (snd res) = w_pipes w_init ∧
  ∃ evs, w_trace (snd res) = w_trace w_init ++ evs ∧
    (evs = [EvCreateNamedPipe path 16777216 1000 INVALID_HANDLE_VALUE] ∨
     ∃ h, h ≠ INVALID_HANDLE_VALUE ∧
          evs = [EvCreateNamedPipe path 16777216 1000 h;
                 EvCreateFile path INVALID_HANDLE_VALUE;
                 EvCloseHandle h]).
Proof.
  intros res path.
  apply (CreatePipePair_all_or_nothing os_half "stdout" (addr_m_stdout_r 4096)
           INVALID_HANDLE_VALUE INVALID_HANDLE_VALUE 16777216 1000 w_init
           false INVALID_HANDLE_VALUE INVALID_HANDLE_VALUE (snd res)).
  - exact init_world_ok.
  - vm_compute. reflexivity.
Defined.

Example demo_pair_released :
  w_trace (snd (CreatePipePair os_half "stdout" (addr_m_stdout_r 4096)
                  INVALID_HANDLE_VALUE INVALID_HANDLE_VALUE 16777216 1000 w_init))
  = [EvCreateNamedPipe demo_stdout 16777216 1000 4;
     EvCreateFile demo_stdout INVALID_HANDLE_VALUE;
     EvCloseHandle 4].
Proof. vm_compute. reflexivity. Qed.

(** C8: Write(buffer, 0) returns success at once and the world is
    untouched: no call is made, so no write is submitted and no drain pass
    runs. *)
Theorem Write_zero_length os fuel p data w :
  Write os fuel p data 0 w = (Some true, w).
Proof. unfold Write. by destruct fuel. Qed.

(** C9: every request of Write asks for (DWORD)length - total_written
    bytes, and that count is the length of the unsent suffix exactly when
    [length] is below 2^32. A Write of one byte or more issues at least one
    request, the first for (DWORD)length bytes at the start of the buffer;
    so for every [length] of 2^32 or more a request is issued whose count
    differs from the length of the unsent suffix. *)
Theorem Write_request_truncated os fuel p data length w r w' :
  0 ≤ length →
  Write os fuel p data length w = (r, w') →
  ∃ evs, w_trace w' = w_trace w ++ evs ∧
    (∀ h off cnt ok, EvWriteFile h off cnt ok ∈ evs →
      0 ≤ off < length ∧
      cnt = wrap32 (wrap32 length - off) ∧
      (cnt = length - off ↔ length < DWORD_MAX)) ∧
    (0 < length → (0 < fuel)%nat →
     ∃ ok rest, evs = EvWriteFile (m_stdin_w p) 0 (wrap32 length) ok :: rest ∧
                (DWORD_MAX ≤ length → wrap32 length ≠ length - 0)).
Proof.
  intros Hl Hrun. pose proof Hrun as Hrun0. unfold Write in Hrun.
  apply Write_loop_spec in Hrun; [|done|pose proof (wrap32_range length); lia].
  destruct Hrun as (k & evs & _ & _ & _ & _ & _ & _ & Htr & Hall & _).
  exists evs. split; [done|]. split.
  - intros h off cnt ok Hin.
    rewrite Forall_forall in Hall. specialize (Hall _ Hin). cbn in Hall.
    destruct Hall as (_ & Hoff & Hlt & ->).
    split; [lia|]. split; [done|].
    rewrite request_count_exact by lia.
    pose proof (wrap32_range length) as Hr.
    split.
    + intros E. assert (wrap32 length = length) as <- by lia. lia.
    + intros Hsmall. rewrite wrap32_small by lia. done.
  - intros Hpos Hfuel. destruct fuel as [|fuel]; [lia|].
    destruct (Write_first_request os fuel p data length w Hpos) as (ok & rest & Hfirst).
    rewrite Hrun0 in Hfirst. cbn [snd] in Hfirst. rewrite Htr in Hfirst.
    apply app_inv_head in Hfirst. exists ok, rest. split; [done|].
    pose proof (wrap32_range length). lia.
Qed.

Lemma Write_request_truncated_witness :
  ∃ evs, w_trace (snd (Write os_demo 1 demo_p demo_data (2 ^ 32 + 5) demo_w))
         = w_trace demo_w ++ evs ∧
    (∀ h off cnt ok, EvWriteFile h off cnt ok ∈ evs →
      0 ≤ off < 2 ^ 32 + 5 ∧
      cnt = wrap32 (wrap32 (2 ^ 32 + 5) - off) ∧
      (cnt = 2 ^ 32 + 5 - off ↔ 2 ^ 32 + 5 < DWORD_MAX)) ∧
    (∃ ok rest, evs = EvWriteFile (m_stdin_w demo_p) 0 (wrap32 (2 ^ 32 + 5)) ok :: rest ∧
                wrap32 (2 ^ 32 + 5) ≠ 2 ^ 32 + 5 - 0).
Proof.
  destruct (Write_request_truncated os_demo 1 demo_p demo_data (2 ^ 32 + 5) demo_w
              (fst (Write os_demo 1 demo_p demo_data (2 ^ 32 + 5) demo_w))
              (snd (Write os_demo 1 demo_p demo_data (2 ^ 32 + 5) demo_w)))
    as (evs & Htr & Hall & Hfirst).
  - lia.
  - vm_compute. reflexivity.
  - exists evs. split; [exact Htr|]. split; [exact Hall|].
    destruct Hfirst as (ok & rest & Hevs & Hne); [lia|lia|].
    exists ok, rest. split; [exact Hevs|]. apply Hne. unfold DWORD_MAX. lia.
Defined.

(** With a length of 2^32 + 5 the first request asks for 5 bytes. *)
Example demo_request_wraps :
  EvWriteFile (m_stdin_w demo_p) 0 5 true
  ∈ w_trace (snd (Write os_demo 1 demo_p demo_data (2 ^ 32 + 5) demo_w)).
Proof. vm_compute. do 8 apply list_elem_of_further. apply list_elem_of_here. Qed.



Example demo_drain_discards :
  let res := ReadOutput os_demo 2 (SetPrintFunc None demo_p) demo_w in
  fst res = Some 300 ∧ pipe_bytes (snd res) demo_stdout = [] ∧
  w_sink (snd res) = w_sink demo_w.
Proof. split_and!; vm_compute; reflexivity. Qed.

(** * Beyond the claims *)

(** ** Writing to a closed Session *)

Section UseAfterClose.
Variable os : Oracle.

(** A write through a value that is not the client end of a pipe is one
    refused call. *)
Lemma Write_refused fuel p data length w :
  (∀ path, w_handles w !! m_stdin_w p ≠ Some (OPipeClient path)) →
  0 < length →
  Write os (S fuel) p data length w
  = (Some false,
     add_event (EvWriteFile (m_stdin_w p) 0 (request_count length 0) false)
       (set_last_error ERROR_INVALID_HANDLE w)).
Proof.
  intros Hh Hl. unfold Write. rewrite Write_loop_unfold.
  destruct (Z.ltb_spec 0 length); [|lia].
  unfold Write_iter, bind. rewrite (WriteFile_other os _ _ _ _ _ Hh).
  reflexivity.
Qed.

Lemma world_ok_no_sentinel w o : world_ok w → w_handles w !! INVALID_HANDLE_VALUE ≠ Some o.
Proof. intros [_ Hok] E. apply Hok in E. unfold INVALID_HANDLE_VALUE in E. lia. Qed.

Lemma Close_result fuel p timeout_ms terminate w p' w' :
  Close os fuel p timeout_ms terminate w = (Some p', w') →
  p' = set_m_stdin_w INVALID_HANDLE_VALUE p ∧
  w_handles w' = delete (m_stdin_w p) (w_handles w).
Proof.
  intros Hrun. apply Close_spec in Hrun. cbv zeta in Hrun.
  destruct Hrun as (w2 & dr & _ & Hhd & _ & Hdrain & Hr).
  apply ReadOutput_frame in Hdrain. destruct Hdrain as ((Hhd' & _) & _).
  split; [destruct dr; by inversion Hr|congruence].
Qed.

End UseAfterClose.

(** X1: after Close, a Write of one byte or more returns failure after a
    single WriteFile call, refused because the write end now holds the
    sentinel: nothing is sent, no wait and no drain pass follow, and the last
    error is ERROR_INVALID_HANDLE. *)
Theorem Write_after_Close_fails os fuel fuel' p timeout_ms terminate w p' w1
    data length :
  world_ok w →
  Close os fuel p timeout_ms terminate w = (Some p', w1) →
  0 < length →
  Write os (S fuel') p' data length w1
  = (Some false,
     add_event (EvWriteFile INVALID_HANDLE_VALUE 0 (request_count length 0) false)
       (set_last_error ERROR_INVALID_HANDLE w1)).
Proof.
  intros Hok Hcl Hl. apply Close_result in Hcl as [-> Hhd].
  apply (Write_refused os fuel' (set_m_stdin_w INVALID_HANDLE_VALUE p)); [|done].
  intros path. cbn [m_stdin_w set_m_stdin_w set_m_stdin]. rewrite Hhd.
  rewrite lookup_delete_Some. intros [_ E]. by eapply world_ok_no_sentinel.
Qed.

Lemma Write_after_Close_fails_witness :
  let closed := Close os_stall 3 demo_p 200 true demo_w in
  Write os_stall 1 (set_m_stdin_w INVALID_HANDLE_VALUE demo_p) demo_data 10 (snd closed)
  = (Some false,
     add_event (EvWriteFile INVALID_HANDLE_VALUE 0 (request_count 10 0) false)
       (set_last_error ERROR_INVALID_HANDLE (snd closed))).
Proof.
  intros closed.
  apply (Write_after_Close_fails os_stall 3 0 demo_p 200 true demo_w).
  - exact demo_world_ok.
  - vm_compute. reflexivity.
  - lia.
Defined.

(** ** How a Write ends *)

(** X2: on a system whose input side works, a Write of fewer than 2^32
    bytes returns success, given fuel for its turns, and the child's input
    stream has then received exactly the [length] bytes of the buffer, in
    their order. *)
Theorem Write_succeeds_when_input_works os fuel p data length w path :
  input_side_works os →
  w_handles w !! m_stdin_w p = Some (OPipeClient path) →
  w_handles w !! m_stdout_r p ≠ Some (OPipeServer path) →
  0 ≤ length < DWORD_MAX →
  length + drain_fuel ≤ Z.of_nat fuel →
  ∃ w', Write os fuel p data length w = (Some true, w') ∧
        pipe_bytes w' path = pipe_bytes w path ++ read_buf data 0 length.
Proof.
  intros Hos Hin Hout Hl Hf.
  destruct (Write_completes os fuel p data length w path Hos Hin Hl Hf) as [w' Hrun].
  exists w'. split; [done|].
  unfold Write in Hrun.
  apply Write_loop_spec in Hrun; [|lia|pose proof (wrap32_range length); lia].
  destruct Hrun as (k & evs & _ & Hpb & _ & _ & _ & Htrue & _).
  rewrite (Hpb path Hin Hout), (Htrue eq_refl). by rewrite Z.sub_0_r.
Qed.

Lemma input_side_works_demo : input_side_works os_demo.
Proof.
  split_and!; try done. intros w. exists 4. split; [lia|]. by left.
Qed.

Lemma Write_succeeds_when_input_works_witness :
  ∃ w', Write os_demo (Z.to_nat 16777300) demo_p demo_data 10 demo_w = (Some true, w') ∧
        pipe_bytes w' demo_stdin = pipe_bytes demo_w demo_stdin ++ read_buf demo_data 0 10.
Proof.
  apply (Write_succeeds_when_input_works os_demo (Z.to_nat 16777300) demo_p demo_data 10
           demo_w demo_stdin).
  - exact input_side_works_demo.
  - vm_compute. reflexivity.
  - vm_compute. discriminate.
  - unfold DWORD_MAX. lia.
  - unfold drain_fuel. lia.
Defined.

(** X3: a Write of 2^32 bytes or more never returns success, whatever
    the system does, and the child's input stream receives at most
    [length mod 2^32] bytes of the buffer. *)
Theorem Write_oversize_never_succeeds os fuel p data length w r w' path :
  DWORD_MAX ≤ length →
  w_handles w !! m_stdin_w p = Some (OPipeClient path) →
  w_handles w !! m_stdout_r p ≠ Some (OPipeServer path) →
  Write os fuel p data length w = (r, w') →
  r ≠ Some true ∧
  ∃ k, 0 ≤ k ≤ length mod DWORD_MAX ∧
       pipe_bytes w' path = pipe_bytes w path ++ read_buf data 0 k.
Proof.
  intros Hl Hin Hout Hrun.
  split; [by eapply Write_large_never_succeeds|].
  unfold Write in Hrun. unfold DWORD_MAX in Hl.
  apply Write_loop_spec in Hrun; [|lia|pose proof (wrap32_range length); lia].
  destruct Hrun as (k & evs & Hk & Hpb & _).
  exists k. split; [done|]. rewrite (Hpb path Hin Hout). by rewrite Z.sub_0_r.
Qed.

Lemma Write_oversize_never_succeeds_witness :
  let res := Write os_demo 2 demo_p demo_data (2 ^ 32 + 5) demo_w in
  fst res ≠ Some true ∧
  ∃ k, 0 ≤ k ≤ (2 ^ 32 + 5) mod DWORD_MAX ∧
       pipe_bytes (snd res) demo_stdin = pipe_bytes demo_w demo_stdin ++ read_buf demo_data 0 k.
Proof.
  intros res.
  apply (Write_oversize_never_succeeds os_demo 2 demo_p demo_data (2 ^ 32 + 5) demo_w).
  - unfold DWORD_MAX. lia.
  - vm_compute. reflexivity.
  - vm_compute. discriminate.
  - vm_compute. reflexivity.
Defined.

(** X4: on a system where no call fails, a Write of 2^32 bytes or more
    never returns: whatever the fuel, the loop is still running when it is
    used up. *)
Theorem Write_oversize_never_returns os fuel p data length w path :
  calls_succeed os →
  w_handles w !! m_stdin_w p = Some (OPipeClient path) →
  DWORD_MAX ≤ length →
  fst (Write os fuel p data length w) = None.
Proof.
  intros Hos Hh Hl. unfold Write.
  by apply (Write_loop_spins os p data length path).
Qed.

Lemma Write_oversize_never_returns_witness :
  fst (Write os_demo 3 demo_p demo_data (2 ^ 32) demo_w) = None.
Proof.
  apply (Write_oversize_never_returns os_demo 3 demo_p demo_data (2 ^ 32) demo_w demo_stdin).
  - exact calls_succeed_demo.
  - vm_compute. reflexivity.
  - unfold DWORD_MAX. lia.
Defined.

(** ** What the calls do to the named pipes *)

Section PipesFrame.
Variable os : Oracle.

Lemma CloseHandle_pipes h w :
  w_pipes (snd (CloseHandle h w))
  = match w_handles w !! h with
    | Some (OPipeServer q) => delete q (w_pipes w)
    | _ => w_pipes w
    end.
Proof.
  rewrite CloseHandle_eq. cbv zeta. by destruct (w_handles w !! h) as [[]|].
Qed.

Lemma Close_eq fuel p timeout_ms terminate w :
  Close os fuel p timeout_ms terminate w =
    let p' := set_m_stdin_w INVALID_HANDLE_VALUE p in
    let w1 := snd (CloseHandle (m_stdin_w p) w) in
    let result := ora_wait os w1 in
    let w2 := add_event (EvWaitForSingleObject (hProcess (m_procinfo p)) timeout_ms result) w1 in
    let w3 := if negb (result =? STATUS_WAIT_0) && terminate
              then add_event (EvTerminateProcess (hProcess (m_procinfo p)) (-1)) w2
              else w2 in
    match ReadOutput os fuel p' w3 with
    | (Some _, w4) => (Some p', w4)
    | (None, w4) => (None, w4)
    end.
Proof.
  cbv zeta. unfold Close. unfold bind at 1.
  rewrite (surjective_pairing (CloseHandle (m_stdin_w p) w)).
  unfold bind at 1, WaitForSingleObject, bind, ask, log, ret.
  cbn [fst snd].
  change (hProcess (m_procinfo (set_m_stdin_w INVALID_HANDLE_VALUE p)))
    with (hProcess (m_procinfo p)).
  destruct (negb _ && terminate); unfold TerminateProcess, log;
    by destruct (ReadOutput _ _ _ _) as [[n|] w4].
Qed.

Lemma ReadOutput_pipes fuel p w r w' q :
  ReadOutput os fuel p w = (r, w') →
  w_handles w !! m_stdout_r p ≠ Some (OPipeServer q) →
  w_pipes w' !! q = w_pipes w !! q.
Proof.
  intros Hrun Hq.
  destruct (w_handles w !! m_stdout_r p) as [o|] eqn:Eh.
  2:{ rewrite ReadOutput_other in Hrun by (intros; congruence). by inversion Hrun. }
  destruct o as [| | |path|path];
    try (rewrite ReadOutput_other in Hrun by (intros; congruence); by inversion Hrun).
  assert (q ≠ path) as Hne by congruence.
  pose proof (ReadOutput_server os _ _ _ _ _ path Eh Hrun) as Hs. cbv zeta in Hs.
  destruct (ora_peek os (arrive os path w)).
  - destruct Hs as (chunks & later & tail & _ & _ & _ & _ & Hoth & _). by apply Hoth.
  - destruct Hs as [_ ->]. pipe_simpl. by rewrite lookup_insert_ne.
Qed.

Lemma WriteFile_pipes h data off cnt w q :
  w_handles w !! h ≠ Some (OPipeClient q) →
  w_pipes (snd (WriteFile os h data off cnt w)) !! q = w_pipes w !! q.
Proof.
  intros Hq.
  destruct (w_handles w !! h) as [o|] eqn:Eh.
  2:{ rewrite WriteFile_other by (intros; congruence). done. }
  destruct o as [| | |path|path];
    try (rewrite WriteFile_other by (intros; congruence); done).
  rewrite (WriteFile_client os _ _ _ _ _ path Eh). cbv zeta.
  assert (path ≠ q) by congruence.
  destruct (ora_write os w); cbn [snd]; pipe_simpl; by rewrite ?lookup_insert_ne.
Qed.

Lemma Write_await_pipes p total w1 out w' :
  Write_await os p total w1 = (out, w') → w_pipes w' = w_pipes w1.
Proof.
  rewrite Write_await_eq. cbv zeta.
  destruct (_ =? _); [destruct (_ && _)|]; by intros [= _ <-].
Qed.

Lemma Write_iter_pipes p data length total w out w' q :
  Write_iter os p data length total w = (out, w') →
  w_handles w !! m_stdin_w p ≠ Some (OPipeClient q) →
  w_pipes w' !! q = w_pipes w !! q.
Proof.
  intros Hrun Hq. unfold Write_iter in Hrun. unfold bind at 1 in Hrun.
  pose proof (WriteFile_pipes (m_stdin_w p) data total (request_count length total) w q Hq)
    as Hw.
  destruct (WriteFile _ _ _ _ _ _) as [ok w1]. cbn [snd] in Hw.
  destruct ok.
  - cbn [ret bind negb] in Hrun. apply Write_await_pipes in Hrun. by rewrite Hrun.
  - unfold GetLastError, SetLastError, ask, modify, bind at 1 2 in Hrun.
    destruct (negb (w_last_error w1 =? ERROR_IO_PENDING)).
    + cbn in Hrun. by inversion Hrun; subst.
    + unfold bind, ret in Hrun. cbn [negb] in Hrun.
      apply Write_await_pipes in Hrun. by rewrite Hrun.
Qed.

Lemma Write_loop_pipes fuel : ∀ p data length total w r w' q,
  Write_loop os fuel p data length total w = (r, w') →
  w_handles w !! m_stdin_w p ≠ Some (OPipeClient q) →
  w_handles w !! m_stdout_r p ≠ Some (OPipeServer q) →
  w_pipes w' !! q = w_pipes w !! q.
Proof.
  induction fuel as [|fuel IH]; intros p data length total w r w' q Hrun Hin Hout.
  { cbn in Hrun. destruct (total <? length); by inversion Hrun. }
  rewrite Write_loop_unfold in Hrun.
  destruct (total <? length); [|by inversion Hrun].
  destruct (Write_iter os p data length total w) as [out w1] eqn:Eiter.
  pose proof (Write_iter_pipes _ _ _ _ _ _ _ q Eiter Hin) as Hp1.
  apply Write_iter_spec in Eiter.
  destruct Eiter as (_ & _ & _ & _ & _ & _ & _ & Hhd & _).
  destruct out as [|total']; [by inversion Hrun; subst|].
  destruct (ReadOutput os fuel p w1) as [dr w2] eqn:Edrain.
  pose proof (ReadOutput_pipes _ _ _ _ _ q Edrain) as Hp2.
  rewrite Hhd in Hp2. specialize (Hp2 Hout).
  apply ReadOutput_frame in Edrain. destruct Edrain as ((Hhd2 & _) & _).
  destruct dr as [n|].
  - apply (IH _ _ _ _ _ _ _ q) in Hrun; [congruence|congruence..].
  - inversion Hrun; subst. congruence.
Qed.

End PipesFrame.

Section SinkAndInput.
Variable os : Oracle.


Lemma write_event_is_transfer p length total e :
  write_event_ok p length total e → is_transfer_event e = true.
Proof. destruct e; cbn; try done. Qed.

Lemma Close_keeps_input fuel p timeout_ms terminate w r w' path :
  w_handles w !! m_stdin_w p = Some (OPipeClient path) →
  w_handles w !! m_stdout_r p ≠ Some (OPipeServer path) →
  Close os fuel p timeout_ms terminate w = (r, w') →
  w_pipes w' !! path = w_pipes w !! path.
Proof.
  intros Hin Hout Hrun. rewrite Close_eq in Hrun. cbv zeta in Hrun.
  pose proof (CloseHandle_pipes (m_stdin_w p) w) as Hp. rewrite Hin in Hp.
  destruct (CloseHandle_effect (m_stdin_w p) w) as (_ & Hhd & _).
  set (w1 := snd (CloseHandle (m_stdin_w p) w)) in *.
  match type of Hrun with
  | match ReadOutput _ _ _ ?w3 with _ => _ end = _ =>
      assert (w_pipes w3 = w_pipes w ∧ w_handles w3 = delete (m_stdin_w p) (w_handles w))
        as [Hp3 Hh3] by (by destruct (negb _ && terminate));
      destruct (ReadOutput os fuel (set_m_stdin_w INVALID_HANDLE_VALUE p) w3)
        as [dr w4] eqn:Edrain
  end.
  apply (ReadOutput_pipes os _ _ _ _ _ path) in Edrain.
  - destruct dr; inversion Hrun; subst; congruence.
  - cbn [m_stdout_r set_m_stdin_w set_m_stdin]. rewrite Hh3.
    rewrite lookup_delete_Some. intros [_ E]. done.
Qed.

End SinkAndInput.

(** X5: a second Close passes the sentinel to CloseHandle and releases
    nothing: the handle table and the Session object are as the first Close
    left them, and no other CloseHandle call is made. *)
Theorem Close_again_releases_nothing os fuel p t1 term1 t2 term2 w p1 w1 r w2 :
  world_ok w →
  Close os fuel p t1 term1 w = (Some p1, w1) →
  Close os fuel p1 t2 term2 w1 = (r, w2) →
  w_handles w2 = w_handles w1 ∧
  (∀ p2, r = Some p2 → p2 = p1) ∧
  ∃ evs, w_trace w2 = w_trace w1 ++ EvCloseHandle INVALID_HANDLE_VALUE :: evs ∧
         ∀ h, closes h evs = 0%nat.
Proof.
  intros Hok Hc1 Hc2. apply Close_result in Hc1 as [-> Hhd1].
  apply Close_spec in Hc2. cbv zeta in Hc2.
  destruct Hc2 as (w3 & dr & Htr & Hhd & _ & Hdrain & ->).
  apply ReadOutput_frame in Hdrain.
  destruct Hdrain as ((Hhd' & _) & _ & _ & pr & evs & Htr' & Hall & _).
  cbn [m_stdin_w set_m_stdin_w set_m_stdin] in *.
  split_and!.
  - rewrite Hhd', Hhd. apply delete_id. rewrite Hhd1.
    apply lookup_delete_None. right.
    destruct (w_handles w !! INVALID_HANDLE_VALUE) eqn:E; [|done].
    by apply world_ok_no_sentinel in E.
  - intros p2 E. destruct dr; by inversion E.
  - eexists. split.
    { rewrite Htr', Htr. cbn [app]. rewrite <- !app_assoc. cbn [app]. reflexivity. }
    intros h. rewrite closes_cons. cbn [is_close_of]. rewrite closes_app.
    rewrite closes_cons. cbn [is_close_of]. rewrite (closes_drain h evs Hall).
    by destruct (negb _ && term2).
Qed.

Lemma Close_again_releases_nothing_witness :
  let first := Close os_stall 3 demo_p 200 true demo_w in
  let p1 := set_m_stdin_w INVALID_HANDLE_VALUE demo_p in
  let second := Close os_stall 3 p1 50 false (snd first) in
  w_handles (snd second) = w_handles (snd first) ∧
  (∀ p2, fst second = Some p2 → p2 = p1) ∧
  ∃ evs, w_trace (snd second)
         = w_trace (snd first) ++ EvCloseHandle INVALID_HANDLE_VALUE :: evs ∧
         ∀ h, closes h evs = 0%nat.
Proof.
  intros first p1 second.
  apply (Close_again_releases_nothing os_stall 3 demo_p 200 true 50 false demo_w).
  - exact demo_world_ok.
  - vm_compute. reflexivity.
  - vm_compute. reflexivity.
Defined.



(** X7: Write makes only the calls of a transfer: WriteFile, the wait on
    the completion event and the child, GetOverlappedResult, and the calls of
    its drain passes. It opens and closes no handle, whatever its result. *)
Theorem Write_only_transfers os fuel p data length w r w' :
  0 ≤ length →
  Write os fuel p data length w = (r, w') →
  w_handles w' = w_handles w ∧
  ∃ evs, w_trace w' = w_trace w ++ evs ∧
         Forall (λ e, is_transfer_event e = true) evs.
Proof.
  intros Hl Hrun. unfold Write in Hrun.
  apply Write_loop_spec in Hrun; [|done|pose proof (wrap32_range length); lia].
  destruct Hrun as (k & evs & _ & _ & Hhd & _ & _ & _ & Htr & Hall & _).
  split; [done|]. exists evs. split; [done|].
  eapply Forall_impl; [exact Hall|]. intros e. apply write_event_is_transfer.
Qed.

Lemma Write_only_transfers_witness :
  let res := Write os_stall 4 demo_p demo_data 10 demo_w in
  w_handles (snd res) = w_handles demo_w ∧
  ∃ evs, w_trace (snd res) = w_trace demo_w ++ evs ∧
         Forall (λ e, is_transfer_event e = true) evs.
Proof.
  intros res.
  apply (Write_only_transfers os_stall 4 demo_p demo_data 10 demo_w (fst res)).
  - lia.
  - vm_compute. reflexivity.
Defined.



(** X9: two successful Writes followed by Close leave in the child's input
    stream the two buffers, whole and in the order of the calls; Close takes
    nothing back from that stream and closes its write end. *)
Theorem Writes_then_Close_deliver os fuel p d1 n1 d2 n2 timeout_ms terminate
    w w1 w2 r w3 path :
  0 ≤ n1 → 0 ≤ n2 →
  w_handles w !! m_stdin_w p = Some (OPipeClient path) →
  w_handles w !! m_stdout_r p ≠ Some (OPipeServer path) →
  Write os fuel p d1 n1 w = (Some true, w1) →
  Write os fuel p d2 n2 w1 = (Some true, w2) →
  Close os fuel p timeout_ms terminate w2 = (r, w3) →
  pipe_bytes w3 path = pipe_bytes w path ++ read_buf d1 0 n1 ++ read_buf d2 0 n2 ∧
  w_handles w3 !! m_stdin_w p = None.
Proof.
  intros Hn1 Hn2 Hin Hout Hw1 Hw2 Hc.
  unfold Write in Hw1, Hw2.
  apply Write_loop_spec in Hw1; [|done|pose proof (wrap32_range n1); lia].
  destruct Hw1 as (k1 & _ & _ & Hpb1 & Hhd1 & _ & _ & Ht1 & _).
  apply Write_loop_spec in Hw2; [|done|pose proof (wrap32_range n2); lia].
  destruct Hw2 as (k2 & _ & _ & Hpb2 & Hhd2 & _ & _ & Ht2 & _).
  rewrite (Ht1 eq_refl), Z.sub_0_r in Hpb1. rewrite (Ht2 eq_refl), Z.sub_0_r in Hpb2.
  rewrite Hhd1 in Hpb2.
  split.
  - assert (pipe_bytes w3 path = pipe_bytes w2 path) as ->.
    { unfold pipe_bytes. f_equal.
      apply (Close_keeps_input os fuel p timeout_ms terminate w2 r w3 path);
        [congruence|congruence|done]. }
    rewrite (Hpb2 path Hin Hout), (Hpb1 path Hin Hout).
    by rewrite <- app_assoc.
  - apply Close_spec in Hc. cbv zeta in Hc.
    destruct Hc as (w4 & dr & _ & Hhd & _ & Hdrain & _).
    apply ReadOutput_frame in Hdrain. destruct Hdrain as ((Hhd' & _) & _).
    rewrite Hhd', Hhd. apply lookup_delete_eq.
Qed.

Lemma Writes_then_Close_deliver_witness :
  let w1 := snd (Write os_demo 5 demo_p demo_data 10 demo_w) in
  let w2 := snd (Write os_demo 5 demo_p demo_data 6 w1) in
  let w3 := snd (Close os_demo 5 demo_p 200 true w2) in
  pipe_bytes w3 demo_stdin
  = pipe_bytes demo_w demo_stdin ++ read_buf demo_data 0 10 ++ read_buf demo_data 0 6 ∧
  w_handles w3 !! m_stdin_w demo_p = None.
Proof.
  intros w1 w2 w3.
  apply (Writes_then_Close_deliver os_demo 5 demo_p demo_data 10 demo_data 6 200 true
           demo_w w1 w2 (fst (Close os_demo 5 demo_p 200 true w2)) w3 demo_stdin).
  - lia.
  - lia.
  - vm_compute. reflexivity.
  - vm_compute. discriminate.
  - vm_compute. reflexivity.
  - vm_compute. reflexivity.
  - vm_compute. reflexivity.
Defined.

(** ** Drain passes during a Write *)

Lemma count_events_app f a b :
  count_events f (a ++ b) = (count_events f a + count_events f b)%nat.
Proof. unfold count_events. by rewrite filter_app, length_app. Qed.

Lemma count_events_cons f e evs :
  count_events f (e :: evs) = ((if f e then 1 else 0) + count_events f evs)%nat.
Proof.
  unfold count_events. rewrite filter_cons.
  destruct (f e); [by rewrite decide_True|by rewrite decide_False].
Qed.

Lemma count_events_none f evs :
  Forall (λ e, f e = false) evs → count_events f evs = 0%nat.
Proof.
  induction 1 as [|e evs He _ IH]; [done|]. by rewrite count_events_cons, He, IH.
Qed.

Section DrainCount.
Variable os : Oracle.

Lemma Write_loop_drains fuel : ∀ p data length total w r w',
  Write_loop os fuel p data length total w = (r, w') →
  ∃ evs, w_trace w' = w_trace w ++ evs ∧
         count_events is_peek evs = count_events is_fetched evs.
Proof.
  induction fuel as [|fuel IH]; intros p data length total w r w' Hrun.
  { cbn in Hrun. exists []. rewrite app_nil_r.
    destruct (total <? length); by inversion Hrun. }
  rewrite Write_loop_unfold in Hrun.
  destruct (total <? length).
  2:{ inversion Hrun; subst. exists []. by rewrite app_nil_r. }
  destruct (Write_iter os p data length total w) as [out w1] eqn:Eiter.
  apply Write_iter_spec in Eiter.
  destruct Eiter as (ok & moved & tail & Htr & _ & _ & _ & _ & _ & _ & _ & Hout).
  destruct out as [|total'].
  - inversion Hrun; subst; clear Hrun. eexists. split; [exact Htr|].
    destruct Hout as [(_ & _ & ->)|[(r0 & _ & _ & ->)|[(_ & ->)|(? & _)]]]; done.
  - destruct Hout as [(? & _)|[(? & _ & ? & _)|[(? & _)|(_ & ->)]]]; try done.
    destruct (ReadOutput os fuel p w1) as [dr w2] eqn:Edrain.
    apply ReadOutput_frame in Edrain.
    destruct Edrain as (_ & _ & _ & pr & evs2 & Htr2 & Hall2 & Hpk2).
    assert (Hturn : ∀ rest,
      count_events is_peek rest = count_events is_fetched rest →
      count_events is_peek
        ((EvWriteFile (m_stdin_w p) total (request_count length total) ok
          :: [EvWaitForMultipleObjects (wait_objects p) false (m_timeout_ms p) STATUS_WAIT_0;
              EvGetOverlappedResult (m_stdin_w p) false (Some moved)])
         ++ (EvPeekNamedPipe (m_stdout_r p) pr :: evs2) ++ rest)
      = count_events is_fetched
        ((EvWriteFile (m_stdin_w p) total (request_count length total) ok
          :: [EvWaitForMultipleObjects (wait_objects p) false (m_timeout_ms p) STATUS_WAIT_0;
              EvGetOverlappedResult (m_stdin_w p) false (Some moved)])
         ++ (EvPeekNamedPipe (m_stdout_r p) pr :: evs2) ++ rest)).
    { intros rest Hrest.
      rewrite !count_events_app, !count_events_cons. cbn [is_peek is_fetched].
      assert (count_events is_peek evs2 = 0%nat) as ->.
      { unfold count_events. by rewrite Hpk2. }
      assert (count_events is_fetched evs2 = 0%nat) as ->.
      { apply count_events_none. eapply Forall_impl; [exact Hall2|].
        intros e. by destruct e. }
      unfold count_events at 1 3. cbn. lia. }
    destruct dr as [n|].
    + apply IH in Hrun. destruct Hrun as (evs3 & Htr3 & Hc3).
      eexists. split; [|exact (Hturn evs3 Hc3)].
      rewrite Htr3, Htr2, Htr. cbn [app]. by rewrite <- !app_assoc.
    + inversion Hrun; subst; clear Hrun.
      eexists. split; [|exact (Hturn [] eq_refl)].
      rewrite Htr2, Htr. cbn [app]. rewrite <- !app_assoc. cbn [app].
      by rewrite app_nil_r.
Qed.

End DrainCount.

(** X10: Write runs one drain pass after each write whose result it has
    fetched, and none otherwise: its trace holds as many PeekNamedPipe calls
    as successful GetOverlappedResult calls. *)
Theorem Write_drains_after_each_transfer os fuel p data length w r w' :
  Write os fuel p data length w = (r, w') →
  ∃ evs, w_trace w' = w_trace w ++ evs ∧
         count_events is_peek evs = count_events is_fetched evs.
Proof.
  intros Hrun. unfold Write in Hrun. by eapply Write_loop_drains.
Qed.

Lemma Write_drains_after_each_transfer_witness :
  let res := Write os_demo 5 demo_p demo_data 10 demo_w in
  ∃ evs, w_trace (snd res) = w_trace demo_w ++ evs ∧
         count_events is_peek evs = count_events is_fetched evs.
Proof.
  intros res.
  apply (Write_drains_after_each_transfer os_demo 5 demo_p demo_data 10 demo_w (fst res)).
  vm_compute. reflexivity.
Defined.

Example demo_three_drains :
  count_events is_peek
    (drop (length (w_trace demo_w))
       (w_trace (snd (Write os_demo 5 demo_p demo_data 10 demo_w)))) = 3%nat.
Proof. vm_compute. reflexivity. Qed.

(** ** The reads of a drain pass *)

Section Reads.
Variable os : Oracle.

Lemma ReadOutput_loop_reads fuel : ∀ p available total w n w' path,
  (∀ wf, ora_read os wf = true) →
  w_handles w !! m_stdout_r p = Some (OPipeServer path) →
  0 ≤ total ≤ available → available < DWORD_MAX →
  available - total ≤ blen (pipe_bytes w path) →
  ReadOutput_loop os fuel p available total w = (Some n, w') →
  ∃ evs, w_trace w' = w_trace w ++ evs ∧
         Z.of_nat (count_events is_read evs) = (available - total + 255) / 256 ∧
         Forall read_within_buffer evs.
Proof.
  induction fuel as [|fuel IH]; intros p available total w n w' path Hok Hh Ht Ha Hbuf Hrun.
  - cbn in Hrun. destruct (Z.ltb_spec total available); inversion Hrun; subst; clear Hrun.
    exists []. rewrite app_nil_r. split; [done|]. split; [|done].
    replace (available - n) with 0 by lia. done.
  - rewrite ReadOutput_loop_unfold in Hrun.
    destruct (Z.ltb_spec total available) as [E|E].
    2:{ inversion Hrun; subst. exists []. rewrite app_nil_r. split; [done|].
        split; [|done]. replace (available - n) with 0 by lia. done. }
    cbv zeta in Hrun.
    rewrite (wrap32_small (available - total)) in Hrun by lia.
    set (read := if available - total >? 256 then 256 else available - total) in *.
    assert (Hread : read = Z.min (available - total) 256 ∧ 1 ≤ read ≤ 256
                    ∧ read ≤ available - total).
    { unfold read. destruct (Z.gtb_spec (available - total) 256); lia. }
    destruct Hread as (Hmin & Hr1 & Hr2). clearbody read.
    unfold bind at 1 in Hrun. rewrite (ReadFile_server os _ _ _ path Hh) in Hrun.
    cbv zeta in Hrun. rewrite Hok in Hrun.
    set (B := pipe_bytes w path) in *.
    set (a := ora_child_output os w).
    assert (HB1 : pipe_bytes (arrive os path w) path = B ++ a) by apply pipe_bytes_arrive.
    rewrite HB1 in Hrun.
    set (chunk := take (Z.to_nat read) (B ++ a)) in *.
    assert (Hclen : blen chunk = read).
    { unfold chunk. apply blen_take. rewrite blen_app. pose proof (blen_nonneg a). lia. }
    rewrite Hclen in Hrun.
    rewrite (wrap32_small (total + read)) in Hrun by lia.
    rewrite print_opt_run in Hrun.
    match type of Hrun with
    | ReadOutput_loop _ _ _ _ _ ?w1 = _ => remember w1 as w2 eqn:Eprint
    end.
    assert (Hw2 : w_handles w2 = w_handles w ∧
                  w_pipes w2 = <[path := drop (Z.to_nat read) (B ++ a)]> (w_pipes w) ∧
                  ∃ pr, w_trace w2 = w_trace w ++ EvReadFile (m_stdout_r p) read (Some chunk) :: pr ∧
                        count_events is_read pr = 0%nat ∧ Forall read_within_buffer pr).
    { destruct (m_print_fn p) as [fn|]; subst w2; cbn.
      - rewrite insert_insert_eq, <- app_assoc. split_and!; try done.
        exists [EvPrint chunk]. split_and!; try done. by repeat constructor.
      - rewrite insert_insert_eq. split_and!; try done. by exists []. }
    clear Eprint. destruct Hw2 as (Hhd & Hp & pr & Htr & Hc0 & Hall0).
    assert (HB2 : pipe_bytes w2 path = drop (Z.to_nat read) B ++ a).
    { unfold pipe_bytes at 1. rewrite Hp, lookup_insert_eq. cbn.
      rewrite drop_app_le; [done|]. unfold blen in *. lia. }
    assert (Hh2 : w_handles w2 !! m_stdout_r p = Some (OPipeServer path)) by (by rewrite Hhd).
    apply (IH _ _ _ _ _ _ path Hok Hh2) in Hrun; [| lia | lia |].
    2:{ rewrite HB2, blen_app. unfold blen at 1. rewrite length_drop.
        pose proof (blen_nonneg a). unfold blen in *. lia. }
    destruct Hrun as (evs & Htr' & Hcount & Hall).
    exists (EvReadFile (m_stdout_r p) read (Some chunk) :: pr ++ evs).
    split. { rewrite Htr', Htr. by rewrite <- app_assoc. }
    split.
    + rewrite count_events_cons, count_events_app, Hc0. cbn [is_read].
      rewrite Nat2Z.inj_add, Nat2Z.inj_add, Hcount. cbn.
      destruct (Z.le_gt_cases (available - total) 256).
      * replace read with (available - total) by lia.
        replace (available - (total + (available - total)) + 255) with 255 by lia.
        change (255 / 256) with 0.
        apply Z.div_unique with (r := available - total - 1); lia.
      * replace read with 256 by lia.
        replace (available - total + 255) with (available - (total + 256) + 255 + 1 * 256)
          by lia.
        rewrite Z.div_add by lia. lia.
    + constructor; [cbn; lia|]. apply Forall_app. by split.
Qed.

End Reads.

(** X11: a drain pass in which no call fails returns once it has read all
    it measured, in ⌈available / 256⌉ ReadFile calls, each asking for between
    1 and 256 bytes; fuel for that many turns is enough. *)
Theorem drain_pass_takes_few_reads os fuel p w path :
  (∀ wf, ora_read os wf = true) →
  ora_peek os (arrive os path w) = true →
  w_handles w !! m_stdout_r p = Some (OPipeServer path) →
  wrap32 (blen (pipe_bytes w path ++ ora_child_output os w)) ≤ Z.of_nat fuel * 256 →
  let available := wrap32 (blen (pipe_bytes w path ++ ora_child_output os w)) in
  ∃ w', ReadOutput os fuel p w = (Some available, w') ∧
  ∃ evs, w_trace w' = w_trace w ++ EvPeekNamedPipe (m_stdout_r p) (Some available) :: evs ∧
         Z.of_nat (count_events is_read evs) = (available + 255) / 256 ∧
         Forall read_within_buffer evs.
Proof.
  intros Hread Hpeek Hh Hfuel available.
  destruct (ReadOutput os fuel p w) as [r w'] eqn:Hrun. exists w'.
  pose proof (ReadOutput_server os _ _ _ _ _ path Hh Hrun) as Hs. cbv zeta in Hs.
  rewrite Hpeek in Hs. fold available in Hs, Hfuel.
  destruct Hs as (chunks & later & tail & _ & _ & _ & _ & _ & _ & _ & _ & Hres).
  destruct r as [n|]; [|lia].
  destruct Hres as (Hn & Hres).
  assert (n = available) as ->.
  { destruct Hres as [[_ ?]|(_ & _ & wf & Hwf)]; [done|]. by rewrite Hread in Hwf. }
  split; [done|].
  unfold ReadOutput, bind in Hrun.
  rewrite (PeekNamedPipe_server os _ _ path Hh) in Hrun. cbv zeta in Hrun.
  rewrite Hpeek, pipe_bytes_arrive in Hrun. fold available in Hrun.
  pose proof (wrap32_range (blen (pipe_bytes w path ++ ora_child_output os w))) as Hav.
  pose proof (wrap32_le _ (blen_nonneg (pipe_bytes w path ++ ora_child_output os w))) as Hle.
  fold available in Hav, Hle.
  eapply (ReadOutput_loop_reads os _ _ _ _ _ _ _ path Hread) in Hrun; [|done|lia|lia|].
  2:{ rewrite pipe_bytes_add_event, pipe_bytes_arrive. lia. }
  destruct Hrun as (evs & Htr & Hc & Hall). exists evs.
  rewrite Z.sub_0_r in Hc. split_and!; try done.
  cbn [w_trace add_event arrive set_pipes] in Htr. rewrite Htr. by rewrite <- app_assoc.
Qed.

Lemma drain_pass_takes_few_reads_witness :
  let available :=
    wrap32 (blen (pipe_bytes demo_w demo_stdout ++ ora_child_output os_demo demo_w)) in
  ∃ w', ReadOutput os_demo 2 demo_p demo_w = (Some available, w') ∧
  ∃ evs, w_trace w'
         = w_trace demo_w ++ EvPeekNamedPipe (m_stdout_r demo_p) (Some available) :: evs ∧
         Z.of_nat (count_events is_read evs) = (available + 255) / 256 ∧
         Forall read_within_buffer evs.
Proof.
  apply (drain_pass_takes_few_reads os_demo 2 demo_p demo_w demo_stdout).
  - reflexivity.
  - reflexivity.
  - vm_compute. reflexivity.
  - vm_compute. discriminate.
Defined.

(** ** The destructor and the named pipes *)

Lemma close_all_eq sentinel hs : ∀ w,
  close_all sentinel hs w = (tt, close_each (filter (λ h, h ≠ sentinel) hs) w).
Proof.
  induction hs as [|h hs IH]; intros w; [done|].
  cbn [close_all]. unfold bind at 1. rewrite filter_cons.
  destruct (Z.eqb_spec h sentinel) as [->|Hne].
  - cbn [ret]. rewrite decide_False by (intros ?; done). apply IH.
  - unfold bind at 1. rewrite (surjective_pairing (CloseHandle h w)). cbn [ret].
    rewrite decide_True by done. apply IH.
Qed.

Lemma Pipe_destructor_eq p w :
  Pipe_destructor p w = (tt, close_each (owned_handles p) w).
Proof.
  unfold Pipe_destructor, bind. rewrite close_all_eq, close_all_eq.
  unfold owned_handles, null_handles, invalid_handles, close_each.
  by rewrite foldl_app.
Qed.

Lemma close_each_pipes hs : ∀ w,
  (∀ q, w_pipes w !! q = None → w_pipes (close_each hs w) !! q = None) ∧
  (∀ q h, h ∈ hs → w_handles w !! h = Some (OPipeServer q) →
          w_pipes (close_each hs w) !! q = None) ∧
  (∀ q, (∀ h, h ∈ hs → w_handles w !! h ≠ Some (OPipeServer q)) →
        w_pipes (close_each hs w) !! q = w_pipes w !! q).
Proof.
  induction hs as [|h0 hs IH]; intros w.
  { split_and!; try done. intros q h Hin. by apply elem_of_nil in Hin. }
  cbn [close_each foldl]. fold (close_each hs (snd (CloseHandle h0 w))).
  destruct (IH (snd (CloseHandle h0 w))) as (Hnone & Hsrv & Hoth).
  pose proof (CloseHandle_pipes h0 w) as Hp.
  destruct (CloseHandle_effect h0 w) as (_ & Hhd & _).
  split_and!.
  - intros q Hq. apply Hnone. rewrite Hp.
    destruct (w_handles w !! h0) as [[]|]; try done.
    apply lookup_delete_None. by right.
  - intros q h Hin Hh. destruct (decide (h = h0)) as [->|Hne].
    + apply Hnone. rewrite Hp, Hh. apply lookup_delete_eq.
    + apply elem_of_cons in Hin as [?|Hin]; [done|].
      apply (Hsrv q h Hin). rewrite Hhd. by rewrite lookup_delete_ne.
  - intros q Hq. rewrite Hoth.
    + rewrite Hp. pose proof (Hq h0 (list_elem_of_here _ _)) as H0.
      destruct (w_handles w !! h0) as [[]|]; try done.
      rewrite lookup_delete_ne; [done|congruence].
    + intros h Hin. rewrite Hhd. intros [_ E]%lookup_delete_Some.
      by apply (Hq h (list_elem_of_further _ _ _ Hin)).
Qed.

Section CreateFresh.
Variable os : Oracle.

Lemma CreatePipePair_fresh name out_read_pipe cur_read cur_write bs t w r wr w' :
  CreatePipePair os name out_read_pipe cur_read cur_write bs t w = (true, r, wr, w') →
  w_pipes w !! full_name (w_pid w) out_read_pipe name = None.
Proof.
  intros Hrun. unfold CreatePipePair, GetCurrentProcessId in Hrun.
  unfold bind at 1, ask at 1 in Hrun. unfold bind at 1 in Hrun.
  rewrite CreateNamedPipeA_eq in Hrun.
  destruct (ora_create os w && bool_decide (w_pipes w !! _ = None)) eqn:E1.
  - apply andb_true_iff in E1 as [_ E1]. by apply bool_decide_eq_true in E1.
  - by cbn in Hrun.
Qed.

End CreateFresh.

Lemma close_each_sink hs : ∀ w, w_sink (close_each hs w) = w_sink w.
Proof.
  induction hs as [|h hs IH]; intros w; [done|].
  cbn [close_each foldl]. fold (close_each hs (snd (CloseHandle h w))).
  rewrite IH. by destruct (CloseHandle_effect h w) as (_ & _ & _ & _ & ?).
Qed.

(** X12: the destructor makes only CloseHandle calls, one for each
    resource field that does not hold its sentinel, in the order event,
    process, thread, then the four pipe ends; it neither waits for the child
    nor terminates it. The handles it closes leave the table, every other
    handle stays. *)
Theorem destructor_only_closes p w :
  let w' := snd (Pipe_destructor p w) in
  w_trace w' = w_trace w ++ (EvCloseHandle <$> owned_handles p) ∧
  (∀ h, h ∈ owned_handles p → w_handles w' !! h = None) ∧
  (∀ h, h ∉ owned_handles p → w_handles w' !! h = w_handles w !! h) ∧
  w_sink w' = w_sink w.
Proof.
  intros w'. destruct (Pipe_destructor p w) as [[] w1] eqn:Ed.
  pose proof (Pipe_destructor_spec _ _ _ Ed) as (Htr & Hhd & _).
  rewrite Pipe_destructor_eq in Ed. inversion Ed; subst w1; clear Ed.
  subst w'. cbn [snd]. split; [done|].
  split_and!.
  - intros h Hh. rewrite Hhd, lookup_foldl_delete. by rewrite decide_True.
  - intros h Hh. rewrite Hhd, lookup_foldl_delete. by rewrite decide_False.
  - apply close_each_sink.
Qed.

Example demo_destructor_trace :
  w_trace (snd (Pipe_destructor demo_p demo_w))
  = w_trace demo_w ++ (EvCloseHandle <$> [4; 24; 28; 16; 20; 8; 12]).
Proof. vm_compute. reflexivity. Qed.

(** ** What Create leaves behind *)

Lemma no_child_closes (l : list HANDLE) :
  Forall (λ e, is_child_start e = false) (EvCloseHandle <$> l).
Proof. induction l; cbn; by constructor. Qed.

Section CreateShape.
Variable os : Oracle.

(** The destructor takes back the pipes whose read ends the object holds. *)
Lemma destructor_restores_pipes p w wi wd (created : list string) :
  (∀ q, q ∈ created →
        w_pipes w !! q = None ∧
        ∃ h, h ∈ owned_handles p ∧ w_handles wi !! h = Some (OPipeServer q)) →
  (∀ q, q ∉ created →
        w_pipes wi !! q = w_pipes w !! q ∧
        ∀ h, h ∈ owned_handles p → w_handles wi !! h ≠ Some (OPipeServer q)) →
  Pipe_destructor p wi = (tt, wd) →
  w_pipes wd = w_pipes w.
Proof.
  intros Hin Hout Hd. rewrite Pipe_destructor_eq in Hd. inversion Hd; subst wd; clear Hd.
  destruct (close_each_pipes (owned_handles p) wi) as (_ & Hsrv & Hoth).
  apply map_eq. intros q. destruct (decide (q ∈ created)) as [Hq|Hq].
  - destruct (Hin q Hq) as (-> & h & Hh & Hs). by apply (Hsrv q h).
  - destruct (Hout q Hq) as (<- & Hno). by apply Hoth.
Qed.

Ltac failed_branch Ed Htr :=
  let Htrd := fresh "Htrd" in
  destruct (Pipe_destructor_spec _ _ _ Ed) as (Htrd & _);
  split;
  [|eexists; split;
    [rewrite Htrd, Htr, <- app_assoc; reflexivity
    |apply Forall_app; split; [by repeat constructor|apply no_child_closes]]].

Lemma Create_shape self ffmpeg_path ffmpeg_args timeout_ms w r w' :
  world_ok w →
  Create os self ffmpeg_path ffmpeg_args timeout_ms w = (r, w') →
  let n := w_next w in
  let pout := full_name (w_pid w) (addr_m_stdout_r self) "stdout" in
  let pin := full_name (w_pid w) (addr_m_stdin_r self) "stdin" in
  match r with
  | None =>
      w_pipes w' = w_pipes w ∧
      ∃ evs, w_trace w' = w_trace w ++ evs ∧
             Forall (λ e, is_child_start e = false) evs
  | Some p =>
      p = mkPipe (mkProcInfo (n + 20) (n + 24)) (n + 12) (n + 16) (n + 4) (n + 8) n
            timeout_ms (Some DefaultPrintFunc) ∧
      w_handles w' =
        <[n + 24 := OThread]> (<[n + 20 := OProcess]>
       (<[n + 16 := OPipeClient pin]> (<[n + 12 := OPipeServer pin]>
       (<[n + 8 := OPipeClient pout]> (<[n + 4 := OPipeServer pout]>
       (<[n := OEvent]> (w_handles w))))))) ∧
      w_pipes w' = <[pin := []]> (<[pout := []]> (w_pipes w)) ∧
      w_pipes w !! pout = None ∧ w_pipes w !! pin = None ∧ pin ≠ pout ∧
      w_trace w' = w_trace w ++
        [EvCreateEvent n;
         EvCreateNamedPipe pout (4096 * 4096) timeout_ms (n + 4);
         EvCreateFile pout (n + 8);
         EvSetHandleInformation (n + 4) true;
         EvCreateNamedPipe pin (4096 * 4096) timeout_ms (n + 12);
         EvCreateFile pin (n + 16);
         EvSetHandleInformation (n + 16) true;
         EvCreateProcess (ffmpeg_path +:+ " " +:+ ffmpeg_args) (n + 12) (n + 8) (n + 8) true]
  end.
Proof.
  intros Hok Hrun n pout pin. pose proof Hok as [Hpos Hrange].
  unfold Create in Hrun. unfold bind, ret in Hrun.
  destruct (CreateEventA os w) as [ev w1] eqn:E1.
  assert (Hp1 : w_pipes w1 = w_pipes w).
  { unfold CreateEventA, bind, ask, alloc, log, ret in E1.
    destruct (ora_create os w); by inversion E1. }
  apply CreateEventA_spec in E1.
  destruct E1 as (Hpid1 & Htr1 & [(-> & Hhd1 & Hnx1)|(-> & Hhd1 & Hnx1)]).
  { (* no event *)
    change (NULL =? NULL) with true in Hrun. cbv beta iota in Hrun.
    destruct (Pipe_destructor _ w1) as [[] wd] eqn:Ed. inversion Hrun; subst; clear Hrun.
    failed_branch Ed Htr1.
    eapply (destructor_restores_pipes _ w w1 _ []) in Ed; [done| |].
    - intros q Hq. by apply elem_of_nil in Hq.
    - intros q _. split; [by rewrite Hp1|]. intros h. owned_simpl. by intros ?%elem_of_nil. }
  fold n in Hhd1, Hnx1, Htr1, Hrun.
  destruct (Z.eqb_spec n NULL) as [Hbad|_]; [unfold NULL in Hbad; lia|].
  assert (Hok1 : world_ok w1).
  { split; [lia|]. intros h o. rewrite Hhd1, Hnx1.
    intros [[<- _]|[_ E]]%lookup_insert_Some; [lia|]. apply Hrange in E. lia. }
  destruct (CreatePipePair os "stdout" _ _ _ _ _ w1) as [[[ok1 r1] wr1] w2] eqn:E2.
  pose proof E2 as E2'.
  apply (CreatePipePair_spec os _ _ _ _ _ _ _ _ _ _ _ Hok1) in E2. cbv zeta in E2.
  rewrite Hpid1 in E2. fold pout in E2. destruct E2 as (Hpid2 & _ & E2).
  destruct ok1.
  2:{ (* no output channel *)
    destruct E2 as (-> & -> & Hhd2 & Hp2 & Htr2).
    cbn [negb] in Hrun; cbv beta iota in Hrun.
    destruct (Pipe_destructor _ w2) as [[] wd] eqn:Ed. inversion Hrun; subst; clear Hrun.
    assert (∃ evs, w_trace w2 = w_trace w ++ evs ∧
                   Forall (λ e, is_child_start e = false) evs) as (evs & Htr & Hall).
    { destruct Htr2 as [[_ ->]|[_ ->]]; rewrite Htr1, <- app_assoc;
        eexists; (split; [reflexivity|]); by repeat constructor. }
    destruct (Pipe_destructor_spec _ _ _ Ed) as (Htrd & _).
    split; [|eexists; split; [rewrite Htrd, Htr, <- app_assoc; reflexivity
                             |apply Forall_app; split; [done|apply no_child_closes]]].
    eapply (destructor_restores_pipes _ w w2 _ []) in Ed; [done| |].
    - intros q Hq. by apply elem_of_nil in Hq.
    - intros q _. split; [by rewrite Hp2, Hp1|]. intros h. owned_simpl.
      intros ->%list_elem_of_singleton. rewrite Hhd2, Hhd1, lookup_insert_eq. done. }
  apply CreatePipePair_fresh in E2'. rewrite Hpid1, Hp1 in E2'. fold pout in E2'.
  destruct E2 as (-> & -> & Hnx2 & Hhd2 & Hp2 & Htr2).
  rewrite Hnx1 in *. rewrite Hhd1 in Hhd2. rewrite Hp1 in Hp2.
  rewrite Htr1, <- app_assoc in Htr2. cbn [app] in Htr2.
  clear Hhd1 Htr1 Hok1 Hpid1 Hp1.
  destruct (SetHandleInformation os _ w2) as [ok2 w3] eqn:E3.
  assert (Hp3 : w_pipes w3 = w_pipes w2).
  { unfold SetHandleInformation, bind, ask, log, ret in E3. by inversion E3. }
  apply SetHandleInformation_spec in E3.
  destruct E3 as (Hpid3 & Hhd3 & Hnx3 & Htr3).
  rewrite Hpid2 in Hpid3. rewrite Hhd2 in Hhd3. rewrite Hnx2 in Hnx3. rewrite Hp2 in Hp3.
  rewrite Htr2, <- app_assoc in Htr3. cbn [app] in Htr3.
  clear Hpid2 Hhd2 Hnx2 Htr2 Hp2.
  cbn [m_stdout_r set_m_stdout] in Htr3.
  assert (Hlook3 : ∀ h, h ∈ [n; n + 4; n + 4 + 4] →
            w_handles w3 !! h = Some OEvent ∨ w_handles w3 !! h = Some (OPipeServer pout) ∧ h = n + 4
            ∨ w_handles w3 !! h = Some (OPipeClient pout)).
  { intros h. rewrite Hhd3, !elem_of_cons.
    intros [->|[->|[->|?%elem_of_nil]]]; [| | |done].
    - left. rewrite !lookup_insert_ne by lia. apply lookup_insert_eq.
    - right. left. rewrite !lookup_insert_ne by lia. split; [apply lookup_insert_eq|done].
    - right. right. apply lookup_insert_eq. }
  assert (Hfail3 : ∀ wi wd pi tm fn,
    w_handles wi = w_handles w3 → w_pipes wi = w_pipes w3 →
    Pipe_destructor
      (mkPipe pi INVALID_HANDLE_VALUE INVALID_HANDLE_VALUE (n + 4) (n + 4 + 4) n tm fn) wi
      = (tt, wd) →
    hProcess pi = 0 → hThread pi = 0 →
    w_pipes wd = w_pipes w).
  { intros wi wd [hp ht] tm fn Hh Hp Hd Hpr Hth. cbn in Hpr, Hth. subst hp ht.
    eapply (destructor_restores_pipes _ w wi _ [pout]) in Hd; [done| |].
    - intros q ->%list_elem_of_singleton. split; [done|].
      exists (n + 4). split.
      + owned_simpl.
        apply list_elem_of_further, list_elem_of_here.
      + rewrite Hh, Hhd3. rewrite !lookup_insert_ne by lia. apply lookup_insert_eq.
    - intros q Hq. apply not_elem_of_cons in Hq as [Hq _]. split.
      + rewrite Hp, Hp3. by rewrite lookup_insert_ne.
      + intros h. owned_simpl. intros Hin. rewrite Hh.
        intros E'. destruct (Hlook3 h Hin) as [E|[[E _]|E]];
          pose proof (eq_trans (eq_sym E) E') as X; congruence. }
  destruct ok2; cbn [negb] in Hrun; cbv beta iota in Hrun.
  2:{ destruct (Pipe_destructor _ w3) as [[] wd] eqn:Ed. inversion Hrun; subst; clear Hrun.
      failed_branch Ed Htr3. by eapply Hfail3 in Ed. }
  assert (Hok3 : world_ok w3).
  { split; [lia|]. intros h o. rewrite Hhd3, Hnx3.
    rewrite !lookup_insert_Some. intros [[<- _]|[_ [[<- _]|[_ [[<- _]|[_ E]]]]]]; try lia.
    apply Hrange in E. lia. }
  destruct (CreatePipePair os "stdin" _ _ _ _ _ w3) as [[[ok4 r4] wr4] w4] eqn:E4.
  pose proof E4 as E4'.
  apply (CreatePipePair_spec os _ _ _ _ _ _ _ _ _ _ _ Hok3) in E4. cbv zeta in E4.
  rewrite Hpid3 in E4. fold pin in E4. destruct E4 as (Hpid4 & _ & E4).
  destruct ok4; cbn [negb] in Hrun; cbv beta iota in Hrun.
  2:{ destruct E4 as (-> & -> & Hhd4 & Hp4 & Htr4).
      destruct (Pipe_destructor _ w4) as [[] wd] eqn:Ed. inversion Hrun; subst; clear Hrun.
      assert (∃ evs, w_trace w4 = w_trace w ++ evs ∧
                     Forall (λ e, is_child_start e = false) evs) as (evs & Htr & Hall).
      { destruct Htr4 as [[_ ->]|[_ ->]]; rewrite Htr3, <- app_assoc;
          eexists; (split; [reflexivity|]); by repeat constructor. }
      destruct (Pipe_destructor_spec _ _ _ Ed) as (Htrd & _).
      split; [|eexists; split; [rewrite Htrd, Htr, <- app_assoc; reflexivity
                               |apply Forall_app; split; [done|apply no_child_closes]]].
      eapply Hfail3 in Ed; [done|congruence|congruence|done..]. }
  clear Hfail3 Hlook3.
  apply CreatePipePair_fresh in E4'. rewrite Hpid3, Hp3 in E4'. fold pin in E4'.
  assert (Hne : pin ≠ pout).
  { intros E. rewrite E, lookup_insert_eq in E4'. done. }
  rewrite lookup_insert_ne in E4' by done.
  destruct E4 as (-> & -> & Hnx4 & Hhd4 & Hp4 & Htr4).
  rewrite Hnx3 in *. rewrite Hhd3 in Hhd4. rewrite Hp3 in Hp4.
  rewrite Htr3, <- app_assoc in Htr4. cbn [app] in Htr4.
  clear Hhd3 Htr3 Hok3 Hpid3 Hnx3 Hp3.
  destruct (SetHandleInformation os _ w4) as [ok5 w5] eqn:E5.
  assert (Hp5 : w_pipes w5 = w_pipes w4).
  { unfold SetHandleInformation, bind, ask, log, ret in E5. by inversion E5. }
  apply SetHandleInformation_spec in E5.
  destruct E5 as (Hpid5 & Hhd5 & Hnx5 & Htr5).
  rewrite Hpid4 in Hpid5. rewrite Hhd4 in Hhd5. rewrite Hnx4 in Hnx5. rewrite Hp4 in Hp5.
  rewrite Htr4, <- app_assoc in Htr5. cbn [app] in Htr5.
  clear Hpid4 Hhd4 Hnx4 Htr4 Hp4.
  cbn [m_stdin_w set_m_stdin] in Htr5.
  assert (Hfail5 : ∀ wi wd pi tm fn,
    w_handles wi = w_handles w5 → w_pipes wi = w_pipes w5 →
    Pipe_destructor
      (mkPipe pi (n + 4 + 8) (n + 4 + 8 + 4) (n + 4) (n + 4 + 4) n tm fn) wi
      = (tt, wd) →
    hProcess pi = 0 → hThread pi = 0 →
    w_pipes wd = w_pipes w).
  { intros wi wd [hp ht] tm fn Hh Hp Hd Hpr Hth. cbn in Hpr, Hth. subst hp ht.
    eapply (destructor_restores_pipes _ w wi _ [pout; pin]) in Hd; [done| |].
    - intros q. rewrite !elem_of_cons. intros [->|[->|?%elem_of_nil]]; [| |done].
      + split; [done|]. exists (n + 4). split.
        * owned_simpl.
          do 3 apply list_elem_of_further. apply list_elem_of_here.
        * rewrite Hh, Hhd5. rewrite !lookup_insert_ne by lia. apply lookup_insert_eq.
      + split; [done|]. exists (n + 4 + 8). split.
        * owned_simpl.
          apply list_elem_of_further, list_elem_of_here.
        * rewrite Hh, Hhd5. rewrite !lookup_insert_ne by lia. apply lookup_insert_eq.
    - intros q Hq. rewrite !not_elem_of_cons in Hq. destruct Hq as (Hq1 & Hq2 & _). split.
      + rewrite Hp, Hp5. by rewrite !lookup_insert_ne.
      + intros h. owned_simpl. rewrite Hh, Hhd5, !elem_of_cons.
        intros [->|[->|[->|[->|[->|?%elem_of_nil]]]]]; [..|done];
          rewrite ?lookup_insert_ne by lia; rewrite lookup_insert_eq; congruence. }
  destruct ok5; cbn [negb] in Hrun; cbv beta iota in Hrun.
  2:{ destruct (Pipe_destructor _ w5) as [[] wd] eqn:Ed. inversion Hrun; subst; clear Hrun.
      failed_branch Ed Htr5. by eapply Hfail5 in Ed. }
  destruct (CreateProcessW os _ _ _ w5) as [[ok6 pi6] w6] eqn:E6.
  assert (Hp6 : w_pipes w6 = w_pipes w5).
  { unfold CreateProcessW, bind, ask, alloc, log, ret in E6.
    destruct (ora_create os w5); by inversion E6. }
  apply CreateProcessW_spec in E6. destruct E6 as (Hpid6 & Htr6 & E6).
  rewrite Htr5, <- app_assoc in Htr6. cbn [app] in Htr6.
  destruct ok6; cbn [negb] in Hrun; cbv beta iota in Hrun.
  2:{ destruct E6 as (-> & Hhd6 & _).
      destruct (Pipe_destructor _ w6) as [[] wd] eqn:Ed. inversion Hrun; subst; clear Hrun.
      failed_branch Ed Htr6. eapply Hfail5 in Ed; [done|congruence|congruence|done..]. }
  clear Hfail5.
  destruct E6 as (-> & Hhd6 & Hnx6). rewrite Hhd5 in Hhd6. rewrite Hnx5 in *.
  inversion Hrun; subst r w'; clear Hrun.
  cbn [hStdInput hStdOutput hStdError m_stdin_r m_stdout_w set_m_stdin set_m_stdout
       set_m_event set_m_timeout_ms Pipe_new] in Htr6.
  replace (n + 4 + 4) with (n + 8) in * by lia.
  replace (n + 4 + 8) with (n + 12) in * by lia.
  replace (n + 12 + 4) with (n + 16) in * by lia.
  replace (n + 12 + 8) with (n + 20) in * by lia.
  replace (n + 20 + 4) with (n + 24) in * by lia.
  split_and!; try done.
  congruence.
Qed.

End CreateShape.

Section OpsPipes.
Variable os : Oracle.

Lemma Close_pipes fuel p timeout_ms terminate w r w' q :
  (∀ path, w_handles w !! m_stdin_w p ≠ Some (OPipeServer path)) →
  w_handles w !! m_stdout_r p ≠ Some (OPipeServer q) →
  Close os fuel p timeout_ms terminate w = (r, w') →
  w_pipes w' !! q = w_pipes w !! q.
Proof.
  intros Hin Hout Hrun. rewrite Close_eq in Hrun. cbv zeta in Hrun.
  pose proof (CloseHandle_pipes (m_stdin_w p) w) as Hp.
  destruct (CloseHandle_effect (m_stdin_w p) w) as (_ & Hhd & _).
  set (w1 := snd (CloseHandle (m_stdin_w p) w)) in *.
  assert (w_pipes w1 = w_pipes w) as Hp1.
  { rewrite Hp. destruct (w_handles w !! m_stdin_w p) as [[| | |path|]|]; try done.
    by destruct (Hin path). }
  match type of Hrun with
  | match ReadOutput _ _ _ ?w3 with _ => _ end = _ =>
      assert (w_pipes w3 = w_pipes w ∧ w_handles w3 = delete (m_stdin_w p) (w_handles w))
        as [Hp3 Hh3] by (by destruct (negb _ && terminate));
      destruct (ReadOutput os fuel (set_m_stdin_w INVALID_HANDLE_VALUE p) w3)
        as [dr w4] eqn:Edrain
  end.
  apply (ReadOutput_pipes os _ _ _ _ _ q) in Edrain.
  - destruct dr; inversion Hrun; subst; congruence.
  - cbn [m_stdout_r set_m_stdin_w set_m_stdin]. rewrite Hh3.
    rewrite lookup_delete_Some. intros [_ E]. done.
Qed.

End OpsPipes.

(** X13: a Create that returns nullptr leaves no handle and no named pipe
    behind and has started no child: what it had made before the failing
    step is released again. *)
Theorem Create_failure_leaves_nothing os self ffmpeg_path ffmpeg_args timeout_ms w w' :
  world_ok w →
  Create os self ffmpeg_path ffmpeg_args timeout_ms w = (None, w') →
  w_handles w' = w_handles w ∧ w_pipes w' = w_pipes w ∧
  ∃ evs, w_trace w' = w_trace w ++ evs ∧
         Forall (λ e, is_child_start e = false) evs.
Proof.
  intros Hok Hrun.
  destruct (Create_spec os _ _ _ _ _ _ _ Hok Hrun) as [_ Hhd].
  destruct (Create_shape os _ _ _ _ _ _ _ Hok Hrun) as [Hp Htr].
  done.
Qed.

Lemma Create_failure_leaves_nothing_witness :
  let w' := snd (Create os_half 4096 "ffmpeg" "-i - out.mp4" 1000 w_init) in
  w_handles w' = w_handles w_init ∧ w_pipes w' = w_pipes w_init ∧
  ∃ evs, w_trace w' = w_trace w_init ++ evs ∧
         Forall (λ e, is_child_start e = false) evs.
Proof.
  intros w'.
  apply (Create_failure_leaves_nothing os_half 4096 "ffmpeg" "-i - out.mp4" 1000 w_init).
  - exact init_world_ok.
  - vm_compute. reflexivity.
Defined.



(** ** The example program: painting a frame *)

Lemma for_each_total {St : Type} (body : Z → St → option St) (I : Z → St → Prop)
    (len : nat) : ∀ m s,
  I m s →
  (∀ k t, m ≤ k < m + Z.of_nat len → I k t → ∃ t', body k t = Some t' ∧ I (k + 1) t') →
  ∃ s', for_each (seqZ m (Z.of_nat len)) body s = Some s' ∧ I (m + Z.of_nat len) s'.
Proof.
  induction len as [|len IH]; intros m s Hs Hstep.
  { exists s. rewrite Z.add_0_r. done. }
  rewrite seqZ_cons by lia. cbn [for_each].
  destruct (Hstep m s) as (t' & -> & Ht'); [lia|done|].
  replace (Z.pred (Z.of_nat (S len))) with (Z.of_nat len) by lia.
  destruct (IH (Z.succ m) t') as (s' & Hrun & Hs').
  - by replace (Z.succ m) with (m + 1) by lia.
  - intros k t Hk. apply Hstep. lia.
  - exists s'. split; [done|].
    by replace (m + Z.of_nat (S len)) with (Z.succ m + Z.of_nat len) by lia.
Qed.

Lemma for_each_fails {St : Type} (body : Z → St → option St) x xs : ∀ s,
  x ∈ xs → (∀ t, body x t = None) → for_each xs body s = None.
Proof.
  induction xs as [|a xs IH]; intros s Hin Hx; [by apply elem_of_nil in Hin|].
  cbn [for_each]. destruct (decide (a = x)) as [->|Hne].
  - by rewrite Hx.
  - destruct (body a s); [|done]. apply IH; [|done].
    apply elem_of_cons in Hin as [?|?]; [congruence|done].
Qed.

Section Fill.
Variable colour : Z → Z → Z → Z → Z → Z → Byte.byte.
Variables width height frame : Z.
Hypothesis Hwidth : 0 ≤ width < 2 ^ 32.
Hypothesis Hheight : 0 ≤ height < 2 ^ 32.

Let size := wrap32 (width * height) * 3.

Lemma pixel_parts x y i :
  0 ≤ x < width → 0 ≤ i < 3 →
  frame_byte colour width height frame ((y * width + x) * 3 + i)
  = colour width height frame x y i.
Proof.
  intros Hx Hi. unfold frame_byte.
  assert (((y * width + x) * 3 + i) / 3 = y * width + x) as ->.
  { symmetry. apply Z.div_unique with (r := i); lia. }
  assert (((y * width + x) * 3 + i) mod 3 = i) as ->.
  { symmetry. apply Z.mod_unique with (q := y * width + x); lia. }
  assert ((y * width + x) mod width = x) as ->.
  { symmetry. apply Z.mod_unique with (q := y); lia. }
  assert ((y * width + x) / width = y) as ->.
  { symmetry. apply Z.div_unique with (r := x); lia. }
  done.
Qed.

Lemma paint_pixel x y old buffer :
  width * height < 2 ^ 32 →
  0 ≤ x < width → 0 ≤ y < height →
  painted colour width height frame (y * width + x) old buffer →
  ∃ buffer',
    for_each (seqZ 0 3) (λ i,
      store size (wrap32 (wrap32 (y * width) + x) * 3 + i)
        (colour width height frame x y i)) buffer = Some buffer' ∧
    painted colour width height frame (y * width + x + 1) old buffer'.
Proof.
  intros Hfit Hx Hy Hold.
  assert (Hpix : 0 ≤ y * width + x ∧ y * width + x + 1 ≤ width * height) by nia.
  assert (Hw : wrap32 (wrap32 (y * width) + x) = y * width + x).
  { rewrite (wrap32_small (y * width)) by (unfold DWORD_MAX; nia).
    apply wrap32_small. unfold DWORD_MAX. lia. }
  assert (Hs : size = width * height * 3).
  { unfold size. rewrite wrap32_small; [done|]. unfold DWORD_MAX. nia. }
  rewrite Hw, Hs. change (seqZ 0 3) with [0; 1; 2]. cbn [for_each]. unfold store.
  set (pix := y * width + x) in *.
  destruct (Z.leb_spec 0 (pix * 3 + 0)); [|lia].
  destruct (Z.ltb_spec (pix * 3 + 0) (width * height * 3)); [|lia].
  destruct (Z.leb_spec 0 (pix * 3 + 1)); [|lia].
  destruct (Z.ltb_spec (pix * 3 + 1) (width * height * 3)); [|lia].
  destruct (Z.leb_spec 0 (pix * 3 + 2)); [|lia].
  destruct (Z.ltb_spec (pix * 3 + 2) (width * height * 3)); [|lia].
  cbn [andb]. eexists. split; [reflexivity|].
  intros off. cbv beta. specialize (Hold off).
  destruct (Z.eqb_spec off (pix * 3 + 2)) as [->|?].
  { destruct (Z.leb_spec 0 (pix * 3 + 2)); [|lia].
    destruct (Z.ltb_spec (pix * 3 + 2) ((pix + 1) * 3)); [|lia].
    cbn [andb]. unfold pix. by rewrite pixel_parts by lia. }
  destruct (Z.eqb_spec off (pix * 3 + 1)) as [->|?].
  { destruct (Z.leb_spec 0 (pix * 3 + 1)); [|lia].
    destruct (Z.ltb_spec (pix * 3 + 1) ((pix + 1) * 3)); [|lia].
    cbn [andb]. unfold pix. by rewrite pixel_parts by lia. }
  destruct (Z.eqb_spec off (pix * 3 + 0)) as [->|?].
  { destruct (Z.leb_spec 0 (pix * 3 + 0)); [|lia].
    destruct (Z.ltb_spec (pix * 3 + 0) ((pix + 1) * 3)); [|lia].
    cbn [andb]. unfold pix. by rewrite pixel_parts by lia. }
  rewrite Hold.
  destruct (Z.leb_spec 0 off); cbn [andb]; [|done].
  destruct (Z.ltb_spec off (pix * 3)), (Z.ltb_spec off ((pix + 1) * 3)); try done; lia.
Qed.

Lemma paint_row y old buffer :
  width * height < 2 ^ 32 →
  0 ≤ y < height →
  painted colour width height frame (y * width) old buffer →
  ∃ buffer',
    for_each (seqZ 0 width) (λ x,
      let pixel := wrap32 (wrap32 (y * width) + x) * 3 in
      for_each (seqZ 0 3) (λ i,
        store size (pixel + i) (colour width height frame x y i))) buffer
    = Some buffer' ∧
    painted colour width height frame ((y + 1) * width) old buffer'.
Proof.
  intros Hfit Hy Hold.
  destruct (for_each_total
    (λ x, for_each (seqZ 0 3) (λ i,
        store size (wrap32 (wrap32 (y * width) + x) * 3 + i)
          (colour width height frame x y i)))
    (λ x b, painted colour width height frame (y * width + x) old b) (Z.to_nat width) 0 buffer)
    as (buffer' & Hrun & Hp).
  - by rewrite Z.add_0_r.
  - intros k t Hk Ht. rewrite Z.add_assoc. apply paint_pixel; try done. lia.
  - exists buffer'. rewrite Z2Nat.id in * by lia. split; [done|].
    by replace ((y + 1) * width) with (y * width + (0 + width)) by lia.
Qed.

Lemma fill_frame_paints buffer :
  width * height < 2 ^ 32 →
  ∃ buffer', fill_frame colour width height frame size buffer = Some buffer' ∧
             painted colour width height frame (width * height) buffer buffer'.
Proof.
  intros Hfit. unfold fill_frame.
  destruct (for_each_total
    (λ y, for_each (seqZ 0 width) (λ x,
      let pixel := wrap32 (wrap32 (y * width) + x) * 3 in
      for_each (seqZ 0 3) (λ i,
        store size (pixel + i) (colour width height frame x y i))))
    (λ y b, painted colour width height frame (y * width) buffer b) (Z.to_nat height) 0 buffer)
    as (buffer' & Hrun & Hp).
  - intros off. destruct (Z.leb_spec 0 off), (Z.ltb_spec off (0 * width * 3)); try done; lia.
  - intros k t Hk Ht. apply paint_row; try done. lia.
  - exists buffer'. rewrite Z2Nat.id in * by lia. split; [done|].
    by replace (width * height) with ((0 + height) * width) by lia.
Qed.

Lemma fill_frame_overflows buffer :
  2 ^ 32 ≤ width * height →
  fill_frame colour width height frame size buffer = None.
Proof.
  intros Hbig. unfold fill_frame.
  set (t := wrap32 (width * height)).
  assert (Ht : 0 ≤ t < 2 ^ 32) by apply wrap32_range.
  assert (Hw : 0 < width) by nia.
  apply (for_each_fails _ (t / width)).
  { apply elem_of_seqZ. split; [apply Z.div_pos; lia|].
    apply Z.div_lt_upper_bound; lia. }
  intros buf. apply (for_each_fails _ (t mod width)).
  { apply elem_of_seqZ. pose proof (Z.mod_pos_bound t width Hw). lia. }
  intros buf'. cbv zeta.
  assert (wrap32 (wrap32 (t / width * width) + t mod width) = t) as ->.
  { pose proof (Z.div_mod t width ltac:(lia)) as Hdm.
    pose proof (Z.mod_pos_bound t width Hw).
    assert (0 ≤ t / width * width ≤ t) by (split; [apply Z.mul_nonneg_nonneg; [apply Z.div_pos|]; lia|lia]).
    rewrite (wrap32_small (t / width * width)) by (unfold DWORD_MAX; lia).
    replace (t / width * width + t mod width) with t by lia.
    apply wrap32_small. unfold DWORD_MAX. lia. }
  change (seqZ 0 3) with [0; 1; 2]. cbn [for_each]. unfold store, size. fold t.
  destruct (Z.ltb_spec (t * 3 + 0) (t * 3)); [lia|].
  by rewrite andb_false_r.
Qed.

End Fill.

(** X16: painting a frame stays inside the frame buffer exactly when
    [width * height] fits 32 bits: then every store lands in the buffer and
    the byte of channel [i] of pixel [(x, y)] ends up at offset
    [(y * width + x) * 3 + i]; otherwise the buffer is too small and a store
    leaves it. *)
Theorem fill_frame_stays_in_buffer colour width height frame buffer :
  0 ≤ width < 2 ^ 32 → 0 ≤ height < 2 ^ 32 →
  let buffer_size := wrap32 (width * height) * 3 in
  (is_Some (fill_frame colour width height frame buffer_size buffer)
   ↔ width * height < 2 ^ 32) ∧
  ∀ buffer', fill_frame colour width height frame buffer_size buffer = Some buffer' →
    ∀ x y i, 0 ≤ x < width → 0 ≤ y < height → 0 ≤ i < 3 →
      buffer' ((y * width + x) * 3 + i) = colour width height frame x y i.
Proof.
  intros Hw Hh buffer_size. unfold buffer_size.
  destruct (Z.lt_ge_cases (width * height) (2 ^ 32)) as [Hfit|Hbig].
  - destruct (fill_frame_paints colour width height frame Hw Hh buffer Hfit)
      as (painted_buffer & Hfill & Hpaint).
    rewrite Hfill. split; [done|].
    intros buffer' [= <-] x y i Hx Hy Hi. rewrite Hpaint.
    destruct (Z.leb_spec 0 ((y * width + x) * 3 + i)); [|nia].
    destruct (Z.ltb_spec ((y * width + x) * 3 + i) (width * height * 3)); [|nia].
    cbn [andb]. by apply pixel_parts.
  - rewrite (fill_frame_overflows colour width height frame Hw Hh buffer Hbig).
    split; [|done]. split; [by intros [? ?]|lia].
Qed.

Lemma fill_frame_stays_in_buffer_witness :
  (is_Some (fill_frame grey 4 3 0 (wrap32 (4 * 3) * 3) (λ _, Byte.x00)) ↔ 4 * 3 < 2 ^ 32) ∧
  ∀ buffer', fill_frame grey 4 3 0 (wrap32 (4 * 3) * 3) (λ _, Byte.x00) = Some buffer' →
    ∀ x y i, 0 ≤ x < 4 → 0 ≤ y < 3 → 0 ≤ i < 3 →
      buffer' ((y * 4 + x) * 3 + i) = grey 4 3 0 x y i.
Proof.
  apply (fill_frame_stays_in_buffer grey 4 3 0 (λ _, Byte.x00)); lia.
Defined.

(** ** The example program: sending the frames *)

Lemma take_seqZ m n k : 0 ≤ k ≤ n → take (Z.to_nat k) (seqZ m n) = seqZ m k.
Proof.
  intros Hk. replace n with (k + (n - k)) by lia.
  rewrite seqZ_app by lia. rewrite take_app_le by (rewrite length_seqZ; lia).
  apply take_ge. rewrite length_seqZ. lia.
Qed.

Lemma read_buf_painted colour width height frame old buffer k :
  painted colour width height frame (width * height) old buffer →
  0 ≤ k ≤ width * height * 3 →
  read_buf buffer 0 k = take (Z.to_nat k) (frame_bytes colour width height frame).
Proof.
  intros Hp Hk. unfold read_buf, frame_bytes.
  rewrite <- fmap_take, take_seqZ by done.
  apply list_fmap_ext. intros i off Hoff. apply lookup_seqZ in Hoff as [-> Hi].
  rewrite Hp. destruct (Z.leb_spec 0 (0 + Z.of_nat i)); [|lia].
  destruct (Z.ltb_spec (0 + Z.of_nat i) (width * height * 3)); [done|lia].
Qed.

Section Frames.
Variable os : Oracle.
Variable colour : Z → Z → Z → Z → Z → Z → Byte.byte.

Lemma printf_effect text w :
  printf text w = (tt, set_sink (λ out, out ++ list_byte_of_string text) w).
Proof. done. Qed.

Lemma frames_loop_frame fuel p width height size frames : ∀ buffer w r w',
  frames_loop os colour fuel p width height size frames buffer w = (r, w') →
  w_handles w' = w_handles w ∧ w_next w' = w_next w ∧
  (∀ q, w_handles w !! m_stdin_w p ≠ Some (OPipeClient q) →
        w_handles w !! m_stdout_r p ≠ Some (OPipeServer q) →
        w_pipes w' !! q = w_pipes w !! q) ∧
  ∃ evs, w_trace w' = w_trace w ++ evs ∧ ∀ h, closes h evs = 0%nat.
Proof.
  induction frames as [|frame rest IH]; intros buffer w r w' Hrun; cbn [frames_loop] in Hrun.
  { inversion Hrun; subst. split_and!; try done. exists []. by rewrite app_nil_r. }
  destruct (fill_frame colour width height frame size buffer) as [buffer'|].
  2:{ inversion Hrun; subst. split_and!; try done. exists []. by rewrite app_nil_r. }
  unfold bind at 1 in Hrun.
  destruct (Write os fuel p buffer' size w) as [ok w1] eqn:Ew.
  assert (Hpipes : ∀ q, w_handles w !! m_stdin_w p ≠ Some (OPipeClient q) →
        w_handles w !! m_stdout_r p ≠ Some (OPipeServer q) →
        w_pipes w1 !! q = w_pipes w !! q).
  { intros q. by apply (Write_loop_pipes os _ _ _ _ _ _ _ _ q Ew). }
  apply Write_frame in Ew as (Hhd & Hnx & evs & Htr & Hcl).
  destruct ok as [[|]|].
  - apply IH in Hrun as (Hhd' & Hnx' & Hp' & evs' & Htr' & Hcl').
    split_and!; try congruence.
    + intros q Hq1 Hq2. rewrite Hp' by congruence. by apply Hpipes.
    + exists (evs ++ evs'). split; [by rewrite Htr', Htr, app_assoc|].
      intros h. by rewrite closes_app, Hcl, Hcl'.
  - cbn in Hrun. inversion Hrun; subst; clear Hrun. split_and!; try done. by exists evs.
  - inversion Hrun; subst; clear Hrun. split_and!; try done. by exists evs.
Qed.

Lemma frames_loop_spec fuel p width height path frames : ∀ buffer w r w',
  0 ≤ width < 2 ^ 32 → 0 ≤ height < 2 ^ 32 → width * height < 2 ^ 32 →
  w_handles w !! m_stdin_w p = Some (OPipeClient path) →
  w_handles w !! m_stdout_r p ≠ Some (OPipeServer path) →
  frames_loop os colour fuel p width height (wrap32 (width * height) * 3) frames buffer w
  = (r, w') →
  ∃ sent rest partial,
    frames = sent ++ rest ∧
    pipe_bytes w' path
    = pipe_bytes w path ++ concat (frame_bytes colour width height <$> sent) ++ partial ∧
    match r with
    | Returns _ =>
        rest = [] ∧ partial = [] ∨
        ∃ frame rest' k, rest = frame :: rest' ∧
          partial = take k (frame_bytes colour width height frame)
    | OutOfFuel =>
        ∃ frame rest' k, rest = frame :: rest' ∧
          partial = take k (frame_bytes colour width height frame)
    | Undefined => False
    end.
Proof.
  intros buffer w r w' Hw Hh Hfit. revert buffer w r w'.
  assert (Hsize : wrap32 (width * height) * 3 = width * height * 3).
  { rewrite wrap32_small; [done|]. unfold DWORD_MAX. nia. }
  induction frames as [|frame rest IH]; intros buffer w r w' Hin Hout Hrun;
    cbn [frames_loop] in Hrun.
  { inversion Hrun; subst. exists [], [], []. rewrite !app_nil_r. split_and!; try done.
    by left. }
  destruct (fill_frame_paints colour width height frame Hw Hh buffer Hfit)
    as (buffer' & Hfill & Hpaint).
  rewrite Hfill in Hrun. unfold bind at 1 in Hrun.
  destruct (Write os fuel p buffer' (wrap32 (width * height) * 3) w) as [ok w1] eqn:Ew.
  unfold Write in Ew.
  apply Write_loop_spec in Ew; [|nia|pose proof (wrap32_range (wrap32 (width * height) * 3)); lia].
  destruct Ew as (k & evs & Hk & Hpb & Hhd & _ & _ & Htrue & _).
  specialize (Hpb path Hin Hout). rewrite Z.sub_0_r in Hpb.
  assert (Hkle : 0 ≤ k ≤ width * height * 3).
  { pose proof (wrap32_le (wrap32 (width * height) * 3)). lia. }
  rewrite (read_buf_painted colour width height frame buffer buffer' k Hpaint Hkle) in Hpb.
  destruct ok as [[|]|].
  - apply IH in Hrun; [|congruence..].
    destruct Hrun as (sent & rest' & partial & -> & Hpb' & Hres).
    exists (frame :: sent), rest', partial. split; [done|]. split; [|done].
    rewrite Hpb', Hpb. rewrite (Htrue eq_refl), Hsize.
    rewrite take_ge by (unfold frame_bytes; rewrite length_fmap, length_seqZ; lia).
    cbn [fmap list_fmap concat]. by rewrite <- !app_assoc.
  - cbn in Hrun. inversion Hrun; subst; clear Hrun.
    exists [], (frame :: rest), (take (Z.to_nat k) (frame_bytes colour width height frame)).
    split_and!; try done. right. by eexists _, _, _.
  - inversion Hrun; subst; clear Hrun.
    exists [], (frame :: rest), (take (Z.to_nat k) (frame_bytes colour width height frame)).
    split_and!; try done. by eexists _, _, _.
Qed.

End Frames.

(** X17: WriteDummyFrames sends the frames in order, each whole, one Write
    per frame, and stops at the first Write that fails: the child's input
    stream receives frames 0 to k-1 and then a part of frame k, which is empty
    when all the frames were sent. No store leaves the buffer when
    [width * height] fits 32 bits. *)
Theorem WriteDummyFrames_sends_frames_in_order os colour fuel p width height
    num_frames fresh w r w' path :
  0 ≤ width < 2 ^ 32 → 0 ≤ height < 2 ^ 32 → width * height < 2 ^ 32 →
  w_handles w !! m_stdin_w p = Some (OPipeClient path) →
  w_handles w !! m_stdout_r p ≠ Some (OPipeServer path) →
  WriteDummyFrames os colour fuel p width height num_frames fresh w = (r, w') →
  ∃ k partial,
    0 ≤ k ∧
    pipe_bytes w' path
    = pipe_bytes w path ++ concat (frame_bytes colour width height <$> seqZ 0 k) ++ partial ∧
    match r with
    | Returns _ =>
        k = Z.max 0 num_frames ∧ partial = [] ∨
        k < num_frames ∧ ∃ j, partial = take j (frame_bytes colour width height k)
    | OutOfFuel =>
        k < num_frames ∧ ∃ j, partial = take j (frame_bytes colour width height k)
    | Undefined => False
    end.
Proof.
  intros Hw Hh Hfit Hin Hout Hrun. unfold WriteDummyFrames in Hrun. cbv zeta in Hrun.
  apply (frames_loop_spec os colour _ _ _ _ path) in Hrun; try done.
  destruct Hrun as (sent & rest & partial & Hsplit & Hpb & Hres).
  assert (Hlen : Z.of_nat (length sent) + Z.of_nat (length rest) = Z.max 0 num_frames).
  { apply (f_equal length) in Hsplit. rewrite length_seqZ, length_app in Hsplit. lia. }
  assert (Hsent : sent = seqZ 0 (Z.of_nat (length sent))).
  { destruct (Z.le_gt_cases 0 num_frames) as [Hn|Hn].
    - pose proof (f_equal (take (length sent)) Hsplit) as Ht.
      rewrite take_app_length in Ht.
      rewrite <- (Nat2Z.id (length sent)) in Ht at 1.
      rewrite take_seqZ in Ht by lia. done.
    - destruct sent; [done|]. cbn [length] in Hlen. lia. }
  assert (Hnext : ∀ frame rest', rest = frame :: rest' →
            frame = Z.of_nat (length sent) ∧ Z.of_nat (length sent) < num_frames).
  { intros frame rest' ->.
    assert (seqZ 0 num_frames !! length sent = Some frame) as Hl.
    { rewrite Hsplit. by rewrite list_lookup_middle. }
    apply lookup_seqZ in Hl. lia. }
  exists (Z.of_nat (length sent)), partial. split; [lia|]. rewrite <- Hsent.
  split; [done|].
  destruct r as [[]| |]; [| |done].
  - destruct Hres as [[-> ->]|(frame & rest' & j & Hr & ->)].
    + left. cbn in Hlen. split; [lia|done].
    + right. destruct (Hnext _ _ Hr) as [-> ?]. split; [done|]. by exists j.
  - destruct Hres as (frame & rest' & j & Hr & ->).
    destruct (Hnext _ _ Hr) as [-> ?]. split; [done|]. by exists j.
Qed.

Lemma WriteDummyFrames_sends_frames_in_order_witness :
  let res := WriteDummyFrames os_demo grey 6 demo_p 2 1 2 (λ _, Byte.x00) demo_w in
  ∃ k partial,
    0 ≤ k ∧
    pipe_bytes (snd res) demo_stdin
    = pipe_bytes demo_w demo_stdin ++ concat (frame_bytes grey 2 1 <$> seqZ 0 k) ++ partial ∧
    match fst res with
    | Returns _ =>
        k = Z.max 0 2 ∧ partial = [] ∨
        k < 2 ∧ ∃ j, partial = take j (frame_bytes grey 2 1 k)
    | OutOfFuel => k < 2 ∧ ∃ j, partial = take j (frame_bytes grey 2 1 k)
    | Undefined => False
    end.
Proof.
  intros res.
  apply (WriteDummyFrames_sends_frames_in_order os_demo grey 6 demo_p 2 1 2 (λ _, Byte.x00)
           demo_w (fst res) (snd res) demo_stdin).
  - lia.
  - lia.
  - lia.
  - vm_compute. reflexivity.
  - vm_compute. discriminate.
  - vm_compute. reflexivity.
Defined.

Example demo_frames_arrive :
  let res := WriteDummyFrames os_demo grey 6 demo_p 2 1 2 (λ _, Byte.x00) demo_w in
  fst res = Returns tt ∧
  pipe_bytes (snd res) demo_stdin
  = [Byte.x80; Byte.x40; Byte.x40; Byte.x80; Byte.x40; Byte.x40;
     Byte.x80; Byte.x40; Byte.x40; Byte.x80; Byte.x40; Byte.x40].
Proof. split; vm_compute; reflexivity. Qed.

(** ** The example program: main *)

Section MainProofs.
Variable os : Oracle.
Variable colour : Z → Z → Z → Z → Z → Z → Byte.byte.

(** Destroying a closed Session gives back what its creation took. *)
Lemma closed_session_end self ffmpeg_path ffmpeg_args timeout_ms w p w0 wi w' :
  world_ok w →
  Create os self ffmpeg_path ffmpeg_args timeout_ms w = (Some p, w0) →
  w_handles wi = delete (m_stdin_w p) (w_handles w0) →
  (∀ q, q ≠ full_name (w_pid w) (addr_m_stdin_r self) "stdin" →
        q ≠ full_name (w_pid w) (addr_m_stdout_r self) "stdout" →
        w_pipes wi !! q = w_pipes w0 !! q) →
  Pipe_destructor (set_m_stdin_w INVALID_HANDLE_VALUE p) wi = (tt, w') →
  w_handles w' = w_handles w ∧ w_pipes w' = w_pipes w.
Proof.
  intros Hok Hc Hhi Hpi Hd.
  pose proof (Create_shape os _ _ _ _ _ _ _ Hok Hc) as Hs. cbv zeta in Hs.
  set (n := w_next w) in *.
  set (pout := full_name (w_pid w) (addr_m_stdout_r self) "stdout") in *.
  set (pin := full_name (w_pid w) (addr_m_stdin_r self) "stdin") in *.
  destruct Hs as (-> & Hhd & Hpp & Hfo & Hfi & Hne & _).
  pose proof Hok as [Hpos Hrange].
  cbn [m_stdin_w] in Hhi. rewrite Hhd in Hhi.
  assert (Hfresh : ∀ h, n ≤ h → w_handles w !! h = None)
    by (intros; by apply world_ok_above).
  assert (Hown : ∀ h, h ∈ owned_handles (set_m_stdin_w INVALID_HANDLE_VALUE
      {| m_procinfo := {| hProcess := n + 20; hThread := n + 24 |};
         m_stdin_r := n + 12; m_stdin_w := n + 16; m_stdout_r := n + 4;
         m_stdout_w := n + 8; m_event := n; m_timeout_ms := timeout_ms;
         m_print_fn := Some DefaultPrintFunc |})
      ↔ h ∈ [n; n + 20; n + 24; n + 12; n + 4; n + 8]).
  { intros h. by owned_simpl. }
  assert (Hlook : ∀ h, h ∈ [n; n + 20; n + 24; n + 12; n + 4; n + 8] →
     w_handles wi !! h = Some OEvent ∨ w_handles wi !! h = Some OProcess ∨
     w_handles wi !! h = Some OThread ∨
     (h = n + 12 ∧ w_handles wi !! h = Some (OPipeServer pin)) ∨
     (h = n + 4 ∧ w_handles wi !! h = Some (OPipeServer pout)) ∨
     w_handles wi !! h = Some (OPipeClient pout)).
  { intros h. rewrite Hhi, !elem_of_cons.
    intros [->|[->|[->|[->|[->|[->|?%elem_of_nil]]]]]]; [..|done];
      rewrite lookup_delete_ne by lia; rewrite ?lookup_insert_ne by lia;
      rewrite lookup_insert_eq; auto 10. }
  split.
  - eapply destructor_restores in Hd as (Hh & _); [exact Hh| |].
    + intros h Hh. apply Hown in Hh. apply Hfresh. rewrite !elem_of_cons in Hh.
      destruct Hh as [->|[->|[->|[->|[->|[->|?%elem_of_nil]]]]]]; [lia..|done].
    + intros h Hh. rewrite Hown, !not_elem_of_cons in Hh.
      destruct Hh as (? & ? & ? & ? & ? & ? & _). rewrite Hhi.
      destruct (decide (h = n + 16)) as [->|?].
      * rewrite lookup_delete_eq. symmetry. apply Hfresh. lia.
      * rewrite lookup_delete_ne by done. by rewrite !lookup_insert_ne by lia.
  - eapply (destructor_restores_pipes _ w wi _ [pout; pin]) in Hd; [done| |].
    + intros q. rewrite !elem_of_cons. intros [->|[->|?%elem_of_nil]]; [| |done].
      * split; [done|]. exists (n + 4). split.
        { apply Hown. do 4 apply list_elem_of_further. apply list_elem_of_here. }
        rewrite Hhi. rewrite lookup_delete_ne by lia. rewrite !lookup_insert_ne by lia.
        apply lookup_insert_eq.
      * split; [done|]. exists (n + 12). split.
        { apply Hown. do 3 apply list_elem_of_further. apply list_elem_of_here. }
        rewrite Hhi. rewrite lookup_delete_ne by lia. rewrite !lookup_insert_ne by lia.
        apply lookup_insert_eq.
    + intros q Hq. rewrite !not_elem_of_cons in Hq. destruct Hq as (Hq1 & Hq2 & _). split.
      * rewrite Hpi by done. rewrite Hpp. by rewrite !lookup_insert_ne.
      * intros h Hh E. apply Hown in Hh.
        destruct (Hlook h Hh) as [X|[X|[X|[[_ X]|[[_ X]|X]]]]];
          pose proof (eq_trans (eq_sym X) E) as Y; congruence.
Qed.

End MainProofs.

Section MainLemmas.
Variable os : Oracle.
Variable colour : Z → Z → Z → Z → Z → Z → Byte.byte.

Lemma main_three fw fh fr ds fuel self fresh a0 ffmpeg_path output_args w code w' :
  world_ok w →
  example_main os colour fw fh fr ds fuel self fresh [a0; ffmpeg_path; output_args] w
  = (Returns code, w') →
  w_handles w' = w_handles w ∧ w_pipes w' = w_pipes w ∧
  (code = 0 ∨ code = -1) ∧
  (code = -1 → ∃ evs, w_trace w' = w_trace w ++ evs ∧
                      Forall (λ e, is_child_start e = false) evs).
Proof.
  intros Hok Hrun. unfold example_main in Hrun. cbv zeta in Hrun. unfold bind at 1 in Hrun.
  destruct (Create os self ffmpeg_path _ 10000 w) as [[p|] w0] eqn:Ec.
  2:{ (* no Session *)
    destruct (Create_spec os _ _ _ _ _ _ _ Hok Ec) as [_ Hhd].
    destruct (Create_shape os _ _ _ _ _ _ _ Hok Ec) as [Hp Htr].
    cbn in Hrun. inversion Hrun; subst; clear Hrun. cbn.
    split_and!; try done. by right. }
  unfold bind at 1 in Hrun.
  destruct (WriteDummyFrames os colour fuel p _ _ _ fresh w0) as [r w1] eqn:Ef.
  destruct r as [[]| |]; [|by inversion Hrun..].
  unfold WriteDummyFrames in Ef. cbv zeta in Ef.
  apply frames_loop_frame in Ef as (Hhd1 & Hnx1 & Hp1 & _).
  unfold bind at 1 in Hrun.
  destruct (Close os fuel p INFINITE true w1) as [[p'|] w2] eqn:Ecl; [|by inversion Hrun].
  unfold GetLastError, ask, bind at 1 in Hrun.
  pose proof (Create_shape os _ _ _ _ _ _ _ Hok Ec) as Hs. cbv zeta in Hs.
  destruct Hs as (Hp & Hhd0 & Hpp & _ & _ & Hne & _).
  assert (Hin0 : w_handles w0 !! m_stdin_w p
                 = Some (OPipeClient (full_name (w_pid w) (addr_m_stdin_r self) "stdin"))).
  { rewrite Hp, Hhd0. cbn [m_stdin_w]. pose proof Hok as [? _].
    rewrite !lookup_insert_ne by lia. apply lookup_insert_eq. }
  assert (Hout0 : w_handles w0 !! m_stdout_r p
                 = Some (OPipeServer (full_name (w_pid w) (addr_m_stdout_r self) "stdout"))).
  { rewrite Hp, Hhd0. cbn [m_stdout_r]. pose proof Hok as [? _].
    rewrite !lookup_insert_ne by lia. apply lookup_insert_eq. }
  assert (Hpipes2 : ∀ q, q ≠ full_name (w_pid w) (addr_m_stdin_r self) "stdin" →
        q ≠ full_name (w_pid w) (addr_m_stdout_r self) "stdout" →
        w_pipes w2 !! q = w_pipes w0 !! q).
  { intros q Hq1 Hq2.
    rewrite (Close_pipes os fuel p INFINITE true w1 (Some p') w2 q); [| | |exact Ecl].
    - apply Hp1.
      + intros E. pose proof (eq_trans (eq_sym Hin0) E) as X. congruence.
      + intros E. pose proof (eq_trans (eq_sym Hout0) E) as X. congruence.
    - intros path E. rewrite Hhd1 in E. pose proof (eq_trans (eq_sym Hin0) E) as X. done.
    - intros E. rewrite Hhd1 in E. pose proof (eq_trans (eq_sym Hout0) E) as X. congruence. }
  apply Close_result in Ecl as [-> Hhd2]. rewrite Hhd1 in Hhd2.
  match type of Hrun with
  | bind ?pr _ ?wx = _ =>
      assert (∃ w3, pr wx = (tt, w3) ∧ w_handles w3 = w_handles w2 ∧ w_pipes w3 = w_pipes w2)
        as (w3 & Epr & Hhd3 & Hp3)
  end.
  { destruct (negb _); eexists; (split; [reflexivity|done]). }
  unfold bind at 1 in Hrun. rewrite Epr in Hrun. unfold bind, ret in Hrun.
  destruct (Pipe_destructor _ w3) as [[] w4] eqn:Ed.
  inversion Hrun; subst code w'; clear Hrun.
  eapply (closed_session_end os self _ _ _ w p w0 w3 w4 Hok Ec) in Ed.
  - destruct Ed. split_and!; [done|done|by left|intros ?; lia].
  - congruence.
  - intros q Hq1 Hq2. rewrite Hp3. by apply Hpipes2.
Qed.

End MainLemmas.

(** X18: when main returns, every handle and every named pipe it made is
    released: the handle table and the pipes are as they were at the start.
    It returns 0 or -1; with an argument count other than 3 it returns 0
    without a single system call, and -1 means that no child was started. *)
Theorem main_releases_everything os colour fuel self fresh argv w code w' :
  world_ok w →
  main os colour fuel self fresh argv w = (Returns code, w') →
  w_handles w' = w_handles w ∧ w_pipes w' = w_pipes w ∧
  (code = 0 ∨ code = -1) ∧
  (length argv ≠ 3%nat → code = 0 ∧ w_trace w' = w_trace w) ∧
  (code = -1 → ∃ evs, w_trace w' = w_trace w ++ evs ∧
                      Forall (λ e, is_child_start e = false) evs).
Proof.
  unfold main. generalize FRAME_WIDTH FRAME_HEIGHT FRAMERATE DURATION_SECONDS.
  intros fw fh fr ds Hok Hrun.
  destruct argv as [|a0 [|a1 [|a2 [|a3 rest]]]];
    try (unfold example_main, bind, printf, modify, ret in Hrun;
         inversion Hrun; subst;
         split_and!; [done|done|by left|done|intros ?; lia]).
  destruct (main_three os colour _ _ _ _ _ _ _ _ _ _ _ _ _ Hok Hrun) as (? & ? & ? & ?).
  split_and!; try done.
Qed.

Lemma main_releases_everything_witness :
  let res := main os_half grey 3 4096 (λ _, Byte.x00) ["ffmpipe"; "ffmpeg"; "out.mp4"]
               w_init in
  w_handles (snd res) = w_handles w_init ∧ w_pipes (snd res) = w_pipes w_init ∧
  (-1 = 0 ∨ -1 = -1) ∧
  (length ["ffmpipe"; "ffmpeg"; "out.mp4"] ≠ 3%nat →
   -1 = 0 ∧ w_trace (snd res) = w_trace w_init) ∧
  (-1 = -1 → ∃ evs, w_trace (snd res) = w_trace w_init ++ evs ∧
                    Forall (λ e, is_child_start e = false) evs).
Proof.
  intros res.
  apply (main_releases_everything os_half grey 3 4096 (λ _, Byte.x00)
           ["ffmpipe"; "ffmpeg"; "out.mp4"] w_init (-1) (snd res)).
  - exact init_world_ok.
  - vm_compute. reflexivity.
Defined.

(** ** The example program on a system that works *)

Section FramesComplete.
Variable os : Oracle.
Variable colour : Z → Z → Z → Z → Z → Z → Byte.byte.

Lemma frames_loop_completes fuel p width height path frames : ∀ buffer w,
  input_side_works os →
  0 ≤ width < 2 ^ 32 → 0 ≤ height < 2 ^ 32 → width * height * 3 < 2 ^ 32 →
  w_handles w !! m_stdin_w p = Some (OPipeClient path) →
  w_handles w !! m_stdout_r p ≠ Some (OPipeServer path) →
  width * height * 3 + drain_fuel ≤ Z.of_nat fuel →
  ∃ w', frames_loop os colour fuel p width height (wrap32 (width * height) * 3)
          frames buffer w = (Returns tt, w') ∧
        pipe_bytes w' path
        = pipe_bytes w path ++ concat (frame_bytes colour width height <$> frames) ∧
        w_handles w' = w_handles w ∧ w_next w' = w_next w.
Proof.
  intros buffer w Hos Hw Hh Hfit. revert buffer w.
  assert (Hfit' : width * height < 2 ^ 32) by nia.
  assert (Hsize : wrap32 (width * height) * 3 = width * height * 3).
  { rewrite wrap32_small; [done|]. unfold DWORD_MAX. nia. }
  induction frames as [|frame rest IH]; intros buffer w Hin Hout Hfuel; cbn [frames_loop].
  { exists w. cbn. by rewrite app_nil_r. }
  destruct (fill_frame_paints colour width height frame Hw Hh buffer Hfit')
    as (buffer' & -> & Hpaint).
  unfold bind at 1. rewrite Hsize.
  destruct (Write_completes os fuel p buffer' (width * height * 3) w path Hos Hin)
    as [w1 Hrun]; [unfold DWORD_MAX; nia|done|].
  rewrite Hrun.
  pose proof Hrun as Hw1. unfold Write in Hw1.
  apply Write_loop_spec in Hw1; [|nia|pose proof (wrap32_range (width * height * 3)); lia].
  destruct Hw1 as (k & evs & _ & Hpb & Hhd & Hnx & _ & Htrue & _).
  specialize (Hpb path Hin Hout). rewrite (Htrue eq_refl), Z.sub_0_r in Hpb.
  rewrite (read_buf_painted colour width height frame buffer buffer' _ Hpaint) in Hpb by nia.
  rewrite take_ge in Hpb by (unfold frame_bytes; rewrite length_fmap, length_seqZ; lia).
  rewrite <- Hsize.
  destruct (IH buffer' w1) as (w' & Hloop & Hpb' & Hhd' & Hnx'); [congruence..|done|].
  exists w'. split; [done|]. split; [|split; congruence].
  rewrite Hpb', Hpb. cbn [fmap list_fmap concat]. by rewrite <- app_assoc.
Qed.

End FramesComplete.

Section CreateSucceeds.
Variable os : Oracle.
Hypothesis Hcreate : creation_works os.

Lemma CreateEventA_works w :
  CreateEventA os w
  = (w_next w, add_event (EvCreateEvent (w_next w))
                 (set_next (w_next w + 4) (set_handles (insert (w_next w) OEvent) w))).
Proof. unfold CreateEventA, bind, ask, alloc, log, ret. by rewrite Hcreate. Qed.

Lemma CreatePipePair_works name out_read_pipe cur_read cur_write bs t w :
  world_ok w →
  w_pipes w !! full_name (w_pid w) out_read_pipe name = None →
  ∃ r wr w', CreatePipePair os name out_read_pipe cur_read cur_write bs t w
             = (true, r, wr, w').
Proof.
  intros [Hpos _] Hfree. unfold CreatePipePair, GetCurrentProcessId.
  unfold bind at 1, ask at 1. unfold bind at 1. rewrite CreateNamedPipeA_eq.
  rewrite Hcreate, bool_decide_true by done. cbn [andb].
  destruct (Z.eqb_spec (w_next w) INVALID_HANDLE_VALUE) as [Ebad|_].
  { unfold INVALID_HANDLE_VALUE in Ebad. lia. }
  unfold bind at 1. rewrite CreateFileA_eq. rewrite Hcreate.
  rewrite bool_decide_true by (pipe_simpl; rewrite lookup_insert_eq; by eexists).
  cbn [andb]. pipe_simpl.
  destruct (Z.eqb_spec (w_next w + 4) INVALID_HANDLE_VALUE) as [Ebad|_].
  { unfold INVALID_HANDLE_VALUE in Ebad. lia. }
  by eexists _, _, _.
Qed.

Lemma SetHandleInformation_works h w :
  is_Some (w_handles w !! h) →
  SetHandleInformation os h w = (true, add_event (EvSetHandleInformation h true) w).
Proof.
  intros Hh. unfold SetHandleInformation, bind, ask, log, ret.
  by rewrite Hcreate, bool_decide_true by done.
Qed.

Lemma CreateProcessW_works cmdline si pi w :
  ∃ pi' w', CreateProcessW os cmdline si pi w = (true, pi', w').
Proof.
  unfold CreateProcessW, bind, ask, alloc, log, ret. rewrite Hcreate. by eexists _, _.
Qed.

Lemma Create_works self ffmpeg_path ffmpeg_args timeout_ms w :
  world_ok w →
  w_pipes w !! full_name (w_pid w) (addr_m_stdout_r self) "stdout" = None →
  w_pipes w !! full_name (w_pid w) (addr_m_stdin_r self) "stdin" = None →
  full_name (w_pid w) (addr_m_stdin_r self) "stdin"
  ≠ full_name (w_pid w) (addr_m_stdout_r self) "stdout" →
  ∃ p w', Create os self ffmpeg_path ffmpeg_args timeout_ms w = (Some p, w').
Proof.
  intros Hok Hfo Hfi Hne. pose proof Hok as [Hpos Hrange].
  unfold Create. unfold bind at 1. rewrite CreateEventA_works.
  set (n := w_next w) in *.
  destruct (Z.eqb_spec n NULL) as [Hbad|_]; [unfold NULL in Hbad; lia|].
  match goal with
  | |- context [CreatePipePair os "stdout" ?a ?b ?c ?d ?e] =>
      set (w1 := add_event (EvCreateEvent n)
                   (set_next (n + 4) (set_handles (insert n OEvent) w)))
  end.
  assert (Hok1 : world_ok w1).
  { split; [cbn; lia|]. intros h o. cbn.
    intros [[<- _]|[_ E]]%lookup_insert_Some; [lia|]. apply Hrange in E. fold n in E. lia. }
  unfold bind at 1.
  destruct (CreatePipePair_works "stdout" (addr_m_stdout_r self)
              (m_stdout_r (set_m_event n (set_m_timeout_ms timeout_ms Pipe_new)))
              (m_stdout_w (set_m_event n (set_m_timeout_ms timeout_ms Pipe_new)))
              (4096 * 4096) timeout_ms w1 Hok1 Hfo) as (r1 & wr1 & w2 & E2).
  rewrite E2.
  apply (CreatePipePair_spec os _ _ _ _ _ _ _ _ _ _ _ Hok1) in E2. cbv zeta in E2.
  destruct E2 as (Hpid2 & _ & -> & -> & Hnx2 & Hhd2 & Hp2 & _).
  cbn [w_next w1 add_event set_next set_handles w_handles w_pipes w_pid] in *.
  unfold bind at 1. cbn [m_stdout_r set_m_stdout].
  rewrite (SetHandleInformation_works (n + 4) w2).
  2:{ rewrite Hhd2. rewrite lookup_insert_ne by lia. rewrite lookup_insert_eq. by eexists. }
  cbn [negb]. cbv iota beta.
  set (w3 := add_event (EvSetHandleInformation (n + 4) true) w2).
  assert (Hok3 : world_ok w3).
  { split; [cbn; lia|]. intros h o. cbn. rewrite Hhd2, Hnx2.
    rewrite !lookup_insert_Some. intros [[<- _]|[_ [[<- _]|[_ [[<- _]|[_ E]]]]]]; try lia.
    apply Hrange in E. fold n in E. lia. }
  assert (Hfi3 : w_pipes w3 !! full_name (w_pid w3) (addr_m_stdin_r self) "stdin" = None).
  { cbn. rewrite Hpid2, Hp2. by rewrite lookup_insert_ne. }
  unfold bind at 1.
  destruct (CreatePipePair_works "stdin" (addr_m_stdin_r self)
              (m_stdin_r (set_m_stdout (n + 4) (n + 4 + 4)
                 (set_m_event n (set_m_timeout_ms timeout_ms Pipe_new))))
              (m_stdin_w (set_m_stdout (n + 4) (n + 4 + 4)
                 (set_m_event n (set_m_timeout_ms timeout_ms Pipe_new))))
              (4096 * 4096) timeout_ms w3 Hok3 Hfi3) as (r4 & wr4 & w4 & E4).
  rewrite E4.
  apply (CreatePipePair_spec os _ _ _ _ _ _ _ _ _ _ _ Hok3) in E4. cbv zeta in E4.
  destruct E4 as (_ & _ & -> & -> & _ & Hhd4 & _).
  unfold bind at 1. cbn [m_stdin_w set_m_stdin].
  rewrite (SetHandleInformation_works (w_next w3 + 4) w4).
  2:{ rewrite Hhd4. rewrite lookup_insert_eq. by eexists. }
  cbn [negb]. cbv iota beta. unfold bind at 1.
  match goal with
  | |- context [CreateProcessW os ?c ?si ?pi ?wx] =>
      destruct (CreateProcessW_works c si pi wx) as (pi' & w6 & ->)
  end.
  cbn [negb]. cbv iota beta. by eexists _, _.
Qed.

End CreateSucceeds.

(** X19: on a system whose input side works, WriteDummyFrames (with a
    frame of fewer than 2^32 bytes) returns normally and the child's input
    stream has received all [num_frames] frames, whole and in order. *)
Theorem WriteDummyFrames_delivers_all os colour fuel p width height num_frames
    fresh w path :
  input_side_works os →
  0 ≤ width < 2 ^ 32 → 0 ≤ height < 2 ^ 32 → width * height * 3 < 2 ^ 32 →
  w_handles w !! m_stdin_w p = Some (OPipeClient path) →
  w_handles w !! m_stdout_r p ≠ Some (OPipeServer path) →
  width * height * 3 + drain_fuel ≤ Z.of_nat fuel →
  ∃ w', WriteDummyFrames os colour fuel p width height num_frames fresh w
        = (Returns tt, w') ∧
        pipe_bytes w' path
        = pipe_bytes w path
          ++ concat (frame_bytes colour width height <$> seqZ 0 num_frames).
Proof.
  intros Hos Hw Hh Hfit Hin Hout Hfuel. unfold WriteDummyFrames. cbv zeta.
  destruct (frames_loop_completes os colour fuel p width height path
              (seqZ 0 num_frames) fresh w) as (w' & Hrun & Hpb & _); try done.
  by exists w'.
Qed.

Lemma WriteDummyFrames_delivers_all_witness :
  ∃ w', WriteDummyFrames os_demo grey (Z.to_nat 16777300) demo_p 2 1 2 (λ _, Byte.x00) demo_w
        = (Returns tt, w') ∧
        pipe_bytes w' demo_stdin
        = pipe_bytes demo_w demo_stdin ++ concat (frame_bytes grey 2 1 <$> seqZ 0 2).
Proof.
  apply (WriteDummyFrames_delivers_all os_demo grey (Z.to_nat 16777300) demo_p 2 1 2
           (λ _, Byte.x00) demo_w demo_stdin).
  - exact input_side_works_demo.
  - lia.
  - lia.
  - lia.
  - vm_compute. reflexivity.
  - vm_compute. discriminate.
  - unfold drain_fuel. lia.
Defined.

(** X20: Create has no failure of its own: when every creation call
    succeeds and the two channel paths are not taken, it returns a Session
    with the timeout given, whose seven resource fields hold seven distinct
    open handles. *)
Theorem Create_succeeds_when_calls_succeed os self ffmpeg_path ffmpeg_args timeout_ms w :
  creation_works os →
  world_ok w → 0 ≤ w_pid w → 0 ≤ self → self + sizeof_Pipe ≤ 2 ^ 64 →
  w_pipes w !! full_name (w_pid w) (addr_m_stdout_r self) "stdout" = None →
  w_pipes w !! full_name (w_pid w) (addr_m_stdin_r self) "stdin" = None →
  ∃ p w', Create os self ffmpeg_path ffmpeg_args timeout_ms w = (Some p, w') ∧
          m_timeout_ms p = timeout_ms ∧ Pipe_inv p w' ∧ length (owned_handles p) = 7%nat.
Proof.
  intros Hos Hok Hpid Hs Hs' Hfo Hfi.
  destruct (Create_works os Hos self ffmpeg_path ffmpeg_args timeout_ms w Hok Hfo Hfi)
    as (p & w' & Hrun).
  { by apply session_paths_differ. }
  exists p, w'. split; [done|].
  destruct (Create_spec os _ _ _ _ _ _ _ Hok Hrun) as (_ & _ & Hinv & Ht & _).
  split; [done|]. split; [done|].
  pose proof (Create_shape os _ _ _ _ _ _ _ Hok Hrun) as Hsh. cbv zeta in Hsh.
  destruct Hsh as (-> & _). destruct Hok as [Hpos _].
  by owned_simpl.
Qed.

Lemma creation_works_sample : creation_works os_demo.
Proof. by intros w. Qed.

Lemma Create_succeeds_when_calls_succeed_witness :
  ∃ p w', Create os_demo 4096 "ffmpeg" "-i - out.mp4" 1000 w_init = (Some p, w') ∧
          m_timeout_ms p = 1000 ∧ Pipe_inv p w' ∧ length (owned_handles p) = 7%nat.
Proof.
  apply (Create_succeeds_when_calls_succeed os_demo 4096 "ffmpeg" "-i - out.mp4" 1000 w_init).
  - exact creation_works_sample.
  - exact init_world_ok.
  - vm_compute. discriminate.
  - lia.
  - unfold sizeof_Pipe. lia.
  - vm_compute. reflexivity.
  - vm_compute. reflexivity.
Defined.

Section MainCompletes.
Variable os : Oracle.
Variable colour : Z → Z → Z → Z → Z → Z → Byte.byte.

Lemma example_main_completes fw fh fr ds fuel self fresh a0 ffmpeg_path output_args w :
  creation_works os → input_side_works os →
  0 ≤ fw < 2 ^ 32 → 0 ≤ fh < 2 ^ 32 → fw * fh * 3 < 2 ^ 32 →
  fw * fh * 3 + drain_fuel ≤ Z.of_nat fuel →
  world_ok w → 0 ≤ w_pid w → 0 ≤ self → self + sizeof_Pipe ≤ 2 ^ 64 →
  w_pipes w !! full_name (w_pid w) (addr_m_stdout_r self) "stdout" = None →
  w_pipes w !! full_name (w_pid w) (addr_m_stdin_r self) "stdin" = None →
  ∃ w', example_main os colour fw fh fr ds fuel self fresh
          [a0; ffmpeg_path; output_args] w = (Returns 0, w').
Proof.
  intros Hcr Hos Hw Hh Hfit Hfuel Hok Hpid Hs Hs' Hfo Hfi.
  unfold example_main. cbv zeta. unfold bind at 1.
  match goal with
  | |- context [Create os self ffmpeg_path ?args 10000 w] =>
      destruct (Create_works os Hcr self ffmpeg_path args 10000 w Hok Hfo Hfi)
        as (p & w0 & Hrun); [by apply session_paths_differ|]
  end.
  rewrite Hrun.
  pose proof (Create_shape os _ _ _ _ _ _ _ Hok Hrun) as Hsh. cbv zeta in Hsh.
  destruct Hsh as (Hp & Hhd & _ & _ & _ & Hne & _). pose proof Hok as [Hpos _].
  assert (Hin0 : w_handles w0 !! m_stdin_w p
                 = Some (OPipeClient (full_name (w_pid w) (addr_m_stdin_r self) "stdin"))).
  { rewrite Hp, Hhd. cbn [m_stdin_w].
    rewrite !lookup_insert_ne by lia. apply lookup_insert_eq. }
  assert (Hout0 : w_handles w0 !! m_stdout_r p
                  ≠ Some (OPipeServer (full_name (w_pid w) (addr_m_stdin_r self) "stdin"))).
  { rewrite Hp, Hhd. cbn [m_stdout_r].
    rewrite !lookup_insert_ne by lia. rewrite lookup_insert_eq. congruence. }
  unfold bind at 1. unfold WriteDummyFrames. cbv zeta.
  destruct (frames_loop_completes os colour fuel p fw fh _ (seqZ 0 (ds * fr)) fresh w0
              Hos Hw Hh Hfit Hin0 Hout0 Hfuel) as (w1 & -> & _).
  unfold bind at 1.
  destruct (Close_returns os fuel p INFINITE true w1) as [w2 ->].
  { pose proof (Z.mul_nonneg_nonneg (fw * fh) 3). nia. }
  unfold GetLastError, ask, bind at 1.
  match goal with
  | |- ∃ w', bind ?pr _ ?wx = _ =>
      assert (∃ w3, pr wx = (tt, w3)) as (w3 & Epr)
        by (destruct (negb _); by eexists)
  end.
  unfold bind at 1. rewrite Epr. unfold bind, ret.
  destruct (Pipe_destructor _ w3) as [[] w4]. by exists w4.
Qed.

End MainCompletes.

(** X21: on a system where every call succeeds and the input side works,
    main with three arguments returns 0, having released every handle and
    every named pipe it made. The frames of the example are 640 by 480
    pixels, 921600 bytes each. *)
Theorem main_returns_zero os colour fuel self fresh a0 ffmpeg_path output_args w :
  creation_works os → input_side_works os →
  921600 + drain_fuel ≤ Z.of_nat fuel →
  world_ok w → 0 ≤ w_pid w → 0 ≤ self → self + sizeof_Pipe ≤ 2 ^ 64 →
  w_pipes w !! full_name (w_pid w) (addr_m_stdout_r self) "stdout" = None →
  w_pipes w !! full_name (w_pid w) (addr_m_stdin_r self) "stdin" = None →
  ∃ w', main os colour fuel self fresh [a0; ffmpeg_path; output_args] w = (Returns 0, w') ∧
        w_handles w' = w_handles w ∧ w_pipes w' = w_pipes w.
Proof.
  intros Hcr Hos Hfuel Hok Hpid Hs Hs' Hfo Hfi.
  assert (Hdims : 0 ≤ FRAME_WIDTH < 2 ^ 32 ∧ 0 ≤ FRAME_HEIGHT < 2 ^ 32 ∧
                  FRAME_WIDTH * FRAME_HEIGHT * 3 = 921600).
  { unfold FRAME_WIDTH, FRAME_HEIGHT. lia. }
  destruct Hdims as (Hw & Hh & Hsz).
  unfold main. revert Hw Hh Hsz.
  generalize FRAME_WIDTH FRAME_HEIGHT FRAMERATE DURATION_SECONDS.
  intros fw fh fr ds Hw Hh Hsz.
  destruct (example_main_completes os colour fw fh fr ds fuel self fresh a0 ffmpeg_path
              output_args w) as [w' Hrun]; try done; try lia.
  exists w'. split; [done|].
  destruct (main_three os colour _ _ _ _ _ _ _ _ _ _ _ _ _ Hok Hrun) as (? & ? & _).
  done.
Qed.

Lemma main_returns_zero_witness :
  ∃ w', main os_demo grey (Z.to_nat 17700000) 4096 (λ _, Byte.x00)
          ["ffmpipe"; "ffmpeg"; "out.mp4"] w_init = (Returns 0, w') ∧
        w_handles w' = w_handles w_init ∧ w_pipes w' = w_pipes w_init.
Proof.
  apply (main_returns_zero os_demo grey (Z.to_nat 17700000) 4096 (λ _, Byte.x00)
           "ffmpipe" "ffmpeg" "out.mp4" w_init).
  - exact creation_works_sample.
  - exact input_side_works_demo.
  - unfold drain_fuel. lia.
  - exact init_world_ok.
  - vm_compute. discriminate.
  - lia.
  - unfold sizeof_Pipe. lia.
  - vm_compute. reflexivity.
  - vm_compute. reflexivity.
Defined.

(** The same program with frames of 2 by 1 pixels, one frame a second for
    two seconds, on a system where every call succeeds. *)
Example demo_example_run :
  let res := example_main os_demo grey 2 1 1 2 8 4096 (λ _, Byte.x00)
               ["ffmpipe"; "ffmpeg"; "out.mp4"] w_init in
  fst res = Returns 0 ∧
  w_handles (snd res) = w_handles w_init ∧ w_pipes (snd res) = w_pipes w_init ∧
  count_events is_child_start (w_trace (snd res)) = 1%nat ∧
  closes (m_stdin_w demo_p) (w_trace (snd res)) = 1%nat.
Proof. vm_compute. repeat split. Qed.
